(** * MariGeoRoute: the isochrone routing core, embedded and verified

    Shallow embedding of
      - [WeatherRoutingTool/utils/unit_conversion.py] (speed units, rounding
        of times, angles),
      - [Isochrone/algorithms/isobased.py] (class [IsoBased]: branching,
        step propagation, pruning, termination), and
      - [WeatherRoutingTool/weather.py] (the forecast window and the wind
        vectors of [WeatherCond] and [WeatherCondFromFile]).

    Numbers.  The Python code computes on IEEE doubles; here every real
    quantity is an exact rational ([Q]), compared with [Qeq]/[Qle].  Rounding
    is outside the model.  NaN, which the code only meets as the statistic of
    an empty pruning bin, is [None] in an [option Q].

    Arrays.  A one-dimensional numpy array is a [list]; a two-dimensional
    (M,N) array is a list of M rows of N entries each, row 0 first. *)

From Stdlib Require Import String List ZArith QArith Qabs Qfield Bool Lia PeanoNat.
From Stdlib Require Import Qround Sorted Lqa.
Import ListNotations.

Local Open Scope Q_scope.

(* ================================================================== *)
(** * Unit conversion ([unit_conversion.py]) *)

Module UnitConversion.

(** [mps_to_knots], lines 12-15: [vals * 3600.0 / 1852.0]. *)
Definition mps_to_knots (vals : Q) : Q := vals * 3600 / 1852.

(** [knots_to_mps], lines 17-21: [vals * 1852.0 / 3600.0]. *)
Definition knots_to_mps (vals : Q) : Q := vals * 1852 / 3600.

End UnitConversion.

(* ================================================================== *)
(** * Python results

    A call either returns a value or raises.  The exception carries the
    class Python raises and a short tag naming the raise site. *)

Inductive exn : Type :=
| ValueError (site : string)
| TypeError (site : string)
| IndexError (site : string)
| AttributeError (site : string)
| PlainException (site : string).

Inductive result (A : Type) : Type :=
| Ok (a : A)
| Raise (e : exn).

Arguments Ok {A} a.
Arguments Raise {A} e.

Definition bind {A B : Type} (r : result A) (k : A -> result B) : result B :=
  match r with
  | Ok a => k a
  | Raise e => Raise e
  end.

Notation "x <- r ;; k" := (bind r (fun x => k))
  (at level 61, r at next level, right associativity).
Notation "r ;;; k" := (bind r (fun _ => k))
  (at level 61, right associativity).

Definition raises {A : Type} (r : result A) : Prop := exists e, r = Raise e.

(* ================================================================== *)
(** * Rational comparisons as booleans *)

Definition Qlt_bool (x y : Q) : bool := negb (Qle_bool y x).

(** Python's [max] of two numbers, keeping the first on a tie. *)
Definition qmax (a b : Q) : Q := if Qlt_bool a b then b else a.

(** The smaller of two numbers, keeping the first on a tie. *)
Definition qmin (a b : Q) : Q := if Qlt_bool b a then b else a.

(* ================================================================== *)
(** * numpy

    Only the calls [isobased.py] makes, with the behaviour numpy documents
    for them.  A call that numpy rejects raises here as well. *)

Definition matrix (A : Type) : Type := list (list A).

Module np.
Section Arrays.
Context {A : Type}.

(** [a.shape[0]] and [a.shape[1]] of a two-dimensional array that has at
    least one row (every per-step container of the routing state does). *)
Definition shape0 (m : matrix A) : nat := length m.
Definition shape1 (m : matrix A) : nat := length (hd [] m).

(** [a[0]]: the first row. *)
Definition row0 (m : matrix A) : result (list A) :=
  match m with
  | r :: _ => Ok r
  | [] => Raise (IndexError "index 0 is out of bounds for axis 0")
  end.

(** [np.repeat(a, k)] on a vector: every entry [k] times in a row. *)
Definition repeat_each (k : nat) (a : list A) : list A :=
  flat_map (fun x => List.repeat x k) a.

Definition repeat (a : list A) (repeats : Z) : result (list A) :=
  if (repeats <? 0)%Z
  then Raise (ValueError "repeats may not contain negative values")
  else Ok (repeat_each (Z.to_nat repeats) a).

(** [np.repeat(m, k, axis=1)]: the same inside every row. *)
Definition repeat_axis1 (m : matrix A) (repeats : Z) : result (matrix A) :=
  if (repeats <? 0)%Z
  then Raise (ValueError "repeats may not contain negative values")
  else Ok (map (repeat_each (Z.to_nat repeats)) m).

(** [np.full(n, x)], and [np.repeat(x, n)] of a scalar [x]. *)
Definition full (n : nat) (x : A) : list A := List.repeat x n.

(** [np.tile(a, n)]: the whole vector [n] times. *)
Definition tile (a : list A) (n : nat) : list A := concat (List.repeat a n).

(** [np.vstack((row, m))]: a new first row; the lengths must agree. *)
Definition vstack (row : list A) (m : matrix A) : result (matrix A) :=
  if Nat.eqb (length row) (shape1 m)
  then Ok (row :: m)
  else Raise (ValueError "all the input array dimensions must match").

(** [np.flip(m, 0)]. *)
Definition flip0 (m : matrix A) : matrix A := rev m.

(** [a[idxs]] with a list of indices. *)
Fixpoint take (a : list A) (idxs : list nat) : result (list A) :=
  match idxs with
  | [] => Ok []
  | i :: rest =>
      match nth_error a i with
      | Some x => xs <- take a rest ;; Ok (x :: xs)
      | None => Raise (IndexError "index is out of bounds")
      end
  end.

(** [m[:, idxs]]. *)
Fixpoint take_cols (m : matrix A) (idxs : list nat) : result (matrix A) :=
  match m with
  | [] => Ok []
  | r :: rest =>
      r' <- take r idxs ;;
      rest' <- take_cols rest idxs ;;
      Ok (r' :: rest')
  end.

(** [np.where(cond)[0]] for the condition [p] on the entries of [a]. *)
Fixpoint where_from (p : A -> bool) (i : nat) (a : list A) : list nat :=
  match a with
  | [] => []
  | x :: rest =>
      if p x then i :: where_from p (S i) rest else where_from p (S i) rest
  end.

Definition where_ (p : A -> bool) (a : list A) : list nat := where_from p 0 a.

(** [a[mask] = v] with a boolean mask of the length of [a]. *)
Definition mask_assign (a : list A) (mask : list bool) (v : A)
  : result (list A) :=
  if Nat.eqb (length mask) (length a)
  then Ok (map (fun xb : A * bool => if snd xb then v else fst xb) (combine a mask))
  else Raise (IndexError "boolean index did not match indexed array").

(** A binary operation entry by entry on two vectors of one length. *)
Definition zip_with {B C : Type} (f : A -> B -> C) (a : list A) (b : list B)
  : result (list C) :=
  if Nat.eqb (length a) (length b)
  then Ok (map (fun xy : A * B => f (fst xy) (snd xy)) (combine a b))
  else Raise (ValueError "operands could not be broadcast together").
End Arrays.

(** [a - b] on vectors. *)
Definition sub (a b : list Q) : result (list Q) := zip_with Qminus a b.

(** [np.linspace(start, stop, num)]: [num] evenly spaced samples, both
    ends included.  numpy writes [stop] itself into the last sample, which
    in exact arithmetic is the number computed here; a single sample is
    [start]. *)
Definition linspace (start stop : Q) (num : Z) : result (list Q) :=
  if (num <? 0)%Z
  then Raise (ValueError "Number of samples must be non-negative")
  else
    let n := Z.to_nat num in
    let step := (stop - start) / inject_Z (num - 1) in
    Ok (map (fun i => start + inject_Z (Z.of_nat i) * step) (seq 0 n)).

(** [np.argmax(a)]: the first index of the largest entry. *)
Fixpoint argmax_from (best : Q) (besti i : nat) (a : list Q) : nat :=
  match a with
  | [] => besti
  | x :: rest =>
      if Qlt_bool best x then argmax_from x i (S i) rest
      else argmax_from best besti (S i) rest
  end.

Definition argmax (a : list Q) : result nat :=
  match a with
  | [] => Raise (ValueError "attempt to get argmax of an empty sequence")
  | x :: rest => Ok (argmax_from x 0%nat 1%nat rest)
  end.

(** [np.nanmax(a)] of a vector without NaN; [None] on the empty vector,
    where numpy raises. *)
Definition nanmax (a : list Q) : option Q :=
  match a with
  | [] => None
  | x :: rest => Some (fold_left qmax rest x)
  end.

(** [np.any(a < b)]. *)
Definition any_lt (a b : list Q) : result bool :=
  c <- zip_with Qlt_bool a b ;; Ok (existsb (fun x => x) c).

(** [np.mean(a)].  On the empty vector numpy answers NaN, which has no
    rational counterpart: the model stops there. *)
Definition mean (a : list Q) : result Q :=
  match a with
  | [] => Raise (ValueError "mean of empty slice is NaN")
  | _ => Ok (fold_right Qplus 0 a / inject_Z (Z.of_nat (length a)))
  end.

(** [np.sort(a)]: ascending. *)
Fixpoint insert_sorted (x : Q) (a : list Q) : list Q :=
  match a with
  | [] => [x]
  | y :: rest => if Qle_bool x y then x :: a else y :: insert_sorted x rest
  end.

Definition sort (a : list Q) : list Q := fold_right insert_sorted [] a.

(** A float stored into an integer array: the fraction is cut off. *)
Definition to_int (x : Q) : Z := Z.quot (Qnum x) (Zpos (Qden x)).
End np.

(* ================================================================== *)
(** * scipy.stats.binned_statistic

    [binned_statistic(x, values, statistic=np.nanmax, bins=bins)] as
    [scipy/stats/_binned_statistic.py] computes it.

    A [bins] of any length but one is the sequence of the bin edges.  A
    [bins] of length one is not: [binned_statistic] hands it on as it is, and
    [_bin_edges] reads its entry as the number of bins, to be laid evenly
    between the smallest and the largest sample.

    Bin [i] is the half-open interval from edge [i] to edge [i+1], the last
    bin also holds its right edge, samples outside all bins are ignored, and
    the statistic of an empty bin is NaN ([None] here).  The call raises when
    [values] is not as long as [x] (an [AttributeError]), when there is no
    sample (the minimum of an empty array), and when the edges are fewer
    than two or not strictly increasing ([np.digitize], or the check of the
    smallest edge difference). *)

Module scipy_stats.

Definition in_bin (edges : list Q) (i : nat) (x : Q) : bool :=
  match nth_error edges i, nth_error edges (S i) with
  | Some lo, Some hi =>
      Qle_bool lo x &&
      (Qlt_bool x hi || (Nat.eqb (S (S i)) (length edges) && Qeq_bool x hi))
  | _, _ => false
  end.

(** The values of the samples that fall into bin [i]. *)
Definition bin_values (x values edges : list Q) (i : nat) : list Q :=
  map snd (filter (fun xv : Q * Q => in_bin edges i (fst xv)) (combine x values)).

Record BinnedStatisticResult : Type := mkBinned {
  statistic : list (option Q);
  bin_edges : list Q
}.

(** [_bin_edges(sample, bins, range=None)] for one dimension.  The range of
    the samples is taken first, whatever [bins] is; a range of width 0 is
    widened by a half on both sides.  For a number of bins [v] the count
    [nbin] (two outlier bins included) is stored into an integer array, and
    the edges are [np.linspace(smin, smax, nbin - 1)]. *)
Definition bin_edges_of (x bins : list Q) : result (list Q) :=
  match x with
  | [] => Raise (ValueError "zero-size array to reduction operation minimum which has no identity")
  | x0 :: xs =>
      match bins with
      | [v] =>
          let smin := fold_left qmin xs x0 in
          let smax := fold_left qmax xs x0 in
          let flat := Qeq_bool smin smax in
          let smin := if flat then smin - (1 # 2) else smin in
          let smax := if flat then smax + (1 # 2) else smax in
          let nbin := np.to_int (v + 2) in
          np.linspace smin smax (nbin - 1)
      | _ => Ok bins
      end
  end.

(** Every edge is smaller than the next one. *)
Fixpoint strictly_increasing (edges : list Q) : bool :=
  match edges with
  | lo :: rest =>
      match rest with
      | hi :: _ => Qlt_bool lo hi && strictly_increasing rest
      | [] => true
      end
  | [] => true
  end.

Definition binned_statistic (x values bins : list Q)
  : result BinnedStatisticResult :=
  if negb (Nat.eqb (length x) (length values))
  then Raise (AttributeError "The number of values elements must match the length of each sample dimension")
  else
    edges <- bin_edges_of x bins ;;
    if (2 <=? length edges)%nat && strictly_increasing edges
    then Ok (mkBinned
               (map (fun i => np.nanmax (bin_values x values edges i))
                    (seq 0 (length edges - 1)))
               edges)
    else Raise (ValueError "bins must be strictly increasing, with two edges at least").

End scipy_stats.

(* ================================================================== *)
(** * External collaborators

    The geodesic library, the weather provider, the ship model and the
    constraint list are used through their calls only. *)

(** [geovectorslib.geod]: the inverse and the direct geodesic problem for
    one pair of points.  [inverse1 lat1 lon1 lat2 lon2] is (azi1, s12),
    [direct1 lat1 lon1 azi1 s12] is (lat2, lon2, azi2). *)
Class Geod : Type := {
  inverse1 : Q -> Q -> Q -> Q -> Q * Q;
  direct1 : Q -> Q -> Q -> Q -> Q * Q * Q
}.

Record InverseResult : Type := mkInverse {
  azi1 : list Q;
  s12 : list Q
}.

(** The dictionary [geod.direct] returns, and [check_bearing] imitates. *)
Record Move : Type := mkMove {
  azi2 : list Q;
  lat2 : list Q;
  lon2 : list Q
}.

(** The wind dictionary: true wind angle and speed per candidate. *)
Record Wind : Type := mkWind {
  tws : list Q;
  twa : list Q
}.

(** [WeatherCond.get_wind_function((lats, lons), time)]. *)
Class WeatherCond : Type := {
  get_wind_function : list Q * list Q -> Q -> Wind
}.

(** The ship parameters of one step, one entry per candidate. *)
Record ShipParamsStep : Type := mkShipParamsStep {
  step_rpm : list Q;
  step_power : list Q;
  step_speed : list Q
}.

(** [Boat.boat_speed_function(wind)] and
    [Boat.get_fuel_per_time_netCDF(courses, lats, lons, time, wind)]. *)
Class Boat : Type := {
  boat_speed_function : Wind -> list Q;
  get_fuel_per_time_netCDF :
    list Q -> list Q -> list Q -> list Q -> Wind -> ShipParamsStep
}.

(** [ConstraintsList.safe_crossing(lat_start, lat_end, lon_start, lon_end,
    time, is_constrained)]. *)
Class ConstraintsList : Type := {
  safe_crossing :
    list Q -> list Q -> list Q -> list Q -> list Q -> list bool -> list bool
}.

(** The vectorised calls: entry by entry over arrays of one length. *)
Fixpoint inverse_pairs {G : Geod} (la1 lo1 la2 lo2 : list Q)
  : result (list (Q * Q)) :=
  match la1, lo1, la2, lo2 with
  | [], [], [], [] => Ok []
  | a :: la1', b :: lo1', c :: la2', d :: lo2' =>
      r <- inverse_pairs la1' lo1' la2' lo2' ;; Ok (inverse1 a b c d :: r)
  | _, _, _, _ => Raise (ValueError "operands could not be broadcast together")
  end.

Definition geod_inverse {G : Geod} (la1 lo1 la2 lo2 : list Q)
  : result InverseResult :=
  r <- inverse_pairs la1 lo1 la2 lo2 ;;
  Ok (mkInverse (map fst r) (map snd r)).

Fixpoint direct_triples {G : Geod} (la lo az ds : list Q)
  : result (list (Q * Q * Q)) :=
  match la, lo, az, ds with
  | [], [], [], [] => Ok []
  | a :: la', b :: lo', c :: az', d :: ds' =>
      r <- direct_triples la' lo' az' ds' ;; Ok (direct1 a b c d :: r)
  | _, _, _, _ => Raise (ValueError "operands could not be broadcast together")
  end.

Definition geod_direct {G : Geod} (la lo az ds : list Q) : result Move :=
  r <- direct_triples la lo az ds ;;
  Ok (mkMove (map snd r) (map (fun t => fst (fst t)) r)
             (map (fun t => snd (fst t)) r)).

(* ================================================================== *)
(** * ShipParams *)

(** Modelled from the spec: the class [ShipParams] ([ship/shipparams.py]) is
    not among the sources.  It holds the per-step telemetry arrays, which
    are "reshaped/filtered by the core identically to the position arrays".
    The accessors are the ones [update_shipparams] and [update_fuel] use. *)
Record ShipParams : Type := mkShipParams {
  get_rpm : matrix Q;
  get_power : matrix Q;
  get_speed : matrix Q;
  get_fuel : matrix Q
}.

Module ShipParamsOps.

(** Modelled from the spec: [ShipParams.define_variants(variant_segments)],
    not among the sources; every column is repeated as in the position
    arrays. *)
Definition define_variants (sp : ShipParams) (variant_segments : Z)
  : result ShipParams :=
  rpm <- np.repeat_axis1 (get_rpm sp) (variant_segments + 1) ;;
  power <- np.repeat_axis1 (get_power sp) (variant_segments + 1) ;;
  speed <- np.repeat_axis1 (get_speed sp) (variant_segments + 1) ;;
  fuel <- np.repeat_axis1 (get_fuel sp) (variant_segments + 1) ;;
  Ok (mkShipParams rpm power speed fuel).

(** Modelled from the spec: [ShipParams.select(idxs)], not among the
    sources; the given columns are kept as in the position arrays. *)
Definition select (sp : ShipParams) (idxs : list nat) : result ShipParams :=
  rpm <- np.take_cols (get_rpm sp) idxs ;;
  power <- np.take_cols (get_power sp) idxs ;;
  speed <- np.take_cols (get_speed sp) idxs ;;
  fuel <- np.take_cols (get_fuel sp) idxs ;;
  Ok (mkShipParams rpm power speed fuel).


End ShipParamsOps.

(* ================================================================== *)
(** * The routing state ([class IsoBased], lines 22-84)

    The attributes of [self], grouped: the route ends and the counters that
    [RoutingAlg] holds, the settings, the (M,N) per-step arrays, and the
    per-candidate vectors of length N.  Times are seconds. *)

Record RouteEnds : Type := mkRouteEnds {
  start : Q * Q;
  finish : Q * Q;
  start_temp : Q * Q;
  finish_temp : Q * Q;
  gcr_azi_temp : Q
}.

Record Settings : Type := mkSettings {
  variant_segments : Z;
  variant_increments_deg : Q;
  prune_sector_deg_half : Q;
  prune_segments : Z
}.

Record PerStep : Type := mkPerStep {
  lats_per_step : matrix Q;
  lons_per_step : matrix Q;
  azimuth_per_step : matrix (option Q);
  dist_per_step : matrix Q;
  shipparams_per_step : ShipParams;
  starttime_per_step : matrix Q
}.

Record PerVariant : Type := mkPerVariant {
  current_azimuth : list Q;
  current_variant : list Q;
  full_dist_traveled : list Q;
  full_time_traveled : list Q;
  full_fuel_consumed : list Q;
  time : list Q
}.

Record IsoBased : Type := mkIsoBased {
  count : nat;
  is_last_step : bool;
  is_pos_constraint_step : bool;
  ends : RouteEnds;
  settings : Settings;
  per_step : PerStep;
  per_variant : PerVariant
}.

Definition with_per_step (s : IsoBased) (ps : PerStep) : IsoBased :=
  mkIsoBased (count s) (is_last_step s) (is_pos_constraint_step s)
             (ends s) (settings s) ps (per_variant s).

Definition with_per_variant (s : IsoBased) (pv : PerVariant) : IsoBased :=
  mkIsoBased (count s) (is_last_step s) (is_pos_constraint_step s)
             (ends s) (settings s) (per_step s) pv.

Definition with_current_variant (pv : PerVariant) (cv : list Q) : PerVariant :=
  mkPerVariant (current_azimuth pv) cv (full_dist_traveled pv)
               (full_time_traveled pv) (full_fuel_consumed pv) (time pv).

(** [__init__], lines 66-84.  [current_azimuth] comes from [RoutingAlg];
    the default ship parameters are taken to be one row of zeros. *)
Definition init (ends0 : RouteEnds) (cfg : Settings) (time0 : Q)
  (current_azimuth0 : list Q) : IsoBased :=
  mkIsoBased 0 false false ends0 cfg
    (mkPerStep [[fst (start ends0)]] [[snd (start ends0)]] [[None]] [[0]]
               (mkShipParams [[0]] [[0]] [[0]] [[0]]) [[time0]])
    (mkPerVariant current_azimuth0 current_azimuth0 [0] [0] [0] [time0]).

(* ------------------------------------------------------------------ *)
(** ** Methods reached through [self]

    A call [self.m(...)] is resolved on the class of the object.  The class
    body of [IsoBased] binds several names twice, and Python keeps the
    binding made last.  For [get_current_lats] and [get_current_lons] the
    last binding is the working one (lines 403-407).  For
    [check_variant_def], [get_current_azimuth], [update_time] and
    [get_final_index] (and for [pruning_per_step] and
    [define_variants_per_step]) the last binding is the empty one of lines
    623-645.  [get_delta_variables_netCDF] is bound nowhere in the file.  The
    methods below that call such a name take the table of bindings as [cls];
    a subclass is another table. *)

Record Methods : Type := mkMethods {
  self_check_variant_def : IsoBased -> result unit;
  self_get_current_azimuth : IsoBased -> option (list Q);
  self_get_delta_variables_netCDF :
    IsoBased -> ShipParamsStep -> list Q -> result (list Q * list Q * list Q);
  self_get_delta_variables_netCDF_last_step :
    IsoBased -> ShipParamsStep -> list Q -> result (list Q * list Q * list Q);
  self_update_time : IsoBased -> list Q -> result IsoBased;
  self_get_final_index : IsoBased -> result (option nat)
}.

(** The bodies that the class body binds first and then replaces. *)
Module Shadowed.

(** [check_variant_def], lines 217-229.  The first [raise] is given a
    string, which Python 3 turns into a [TypeError]. *)
Definition check_variant_def (s : IsoBased) : result unit :=
  let ps := per_step s in
  if negb (Nat.eqb (np.shape1 (lats_per_step ps)) (np.shape1 (lons_per_step ps)) &&
           Nat.eqb (np.shape1 (lats_per_step ps)) (np.shape1 (azimuth_per_step ps)) &&
           Nat.eqb (np.shape1 (lats_per_step ps)) (np.shape1 (dist_per_step ps)))
  then Raise (TypeError "define_variants: number of columns not matching!")
  else if negb (Nat.eqb (np.shape0 (lats_per_step ps)) (np.shape0 (lons_per_step ps)) &&
                Nat.eqb (np.shape0 (lats_per_step ps)) (np.shape0 (azimuth_per_step ps)) &&
                Nat.eqb (np.shape0 (lats_per_step ps)) (np.shape0 (dist_per_step ps)) &&
                Nat.eqb (np.shape0 (lats_per_step ps)) (count s + 1))
  then Raise (ValueError "define_variants: number of rows not matching!")
  else Ok tt.

(** [get_current_azimuth], lines 400-401. *)
Definition get_current_azimuth (s : IsoBased) : option (list Q) :=
  Some (current_variant (per_variant s)).

(** [get_final_index], lines 433-435. *)
Definition get_final_index (s : IsoBased) : result (option nat) :=
  idx <- np.argmax (full_dist_traveled (per_variant s)) ;; Ok (Some idx).

End Shadowed.

(** [check_variant_def], lines 623-624: [pass]. *)
Definition check_variant_def (s : IsoBased) : result unit := Ok tt.

(** [get_current_azimuth], lines 635-636: [pass], which returns [None]. *)
Definition get_current_azimuth (s : IsoBased) : option (list Q) := None.

(** [update_time], lines 641-642: four parameters after [self], and
    [move_boat_direct] passes one. *)
Definition update_time (s : IsoBased) (delta_time : list Q) : result IsoBased :=
  Raise (TypeError "update_time() missing 3 required positional arguments").

(** [get_final_index], lines 644-645: [pass]. *)
Definition get_final_index (s : IsoBased) : result (option nat) := Ok None.

(** [get_delta_variables_netCDF_last_step], lines 545-546: three parameters
    after [self], and [move_boat_direct] passes two. *)
Definition get_delta_variables_netCDF_last_step (s : IsoBased)
  (ship_params : ShipParamsStep) (bs : list Q)
  : result (list Q * list Q * list Q) :=
  Raise (TypeError "get_delta_variables_netCDF_last_step() missing 1 required positional argument").

(** The bindings an object of class [IsoBased] itself resolves. *)
Definition IsoBased_methods : Methods :=
  mkMethods check_variant_def get_current_azimuth
    (fun _ _ _ => Raise (AttributeError "get_delta_variables_netCDF"))
    get_delta_variables_netCDF_last_step update_time get_final_index.

(** [get_current_lats] and [get_current_lons], lines 403-407. *)
Definition get_current_lats (s : IsoBased) : result (list Q) :=
  np.row0 (lats_per_step (per_step s)).

Definition get_current_lons (s : IsoBased) : result (list Q) :=
  np.row0 (lons_per_step (per_step s)).

(* ------------------------------------------------------------------ *)
(** ** Settings *)

(** [check_settings], lines 421-431.  [/] is Python's true division and
    [%] its modulo, which for the divisor 2 is [Z.modulo]. *)
Definition check_settings (s : IsoBased) : result unit :=
  let cfg := settings s in
  if Qle_bool (prune_sector_deg_half cfg)
              (inject_Z (variant_segments cfg) / 2 * variant_increments_deg cfg)
  then Raise (ValueError "Prune sector does not contain all variants. Please adjust settings.")
  else if negb (Z.eqb (variant_segments cfg mod 2) 0)
  then Raise (ValueError "Please provide an even number of variant segments")
  else if negb (Z.eqb (prune_segments cfg mod 2) 0)
  then Raise (ValueError "Please provide an even number of prune segments")
  else Ok tt.

(* ------------------------------------------------------------------ *)
(** ** Branching *)

(** [define_variants], lines 121-158. *)
Definition define_variants {G : Geod} (cls : Methods) (s : IsoBased)
  : result IsoBased :=
  let ps := per_step s in
  let pv := per_variant s in
  let vs := variant_segments (settings s) in
  let inc := variant_increments_deg (settings s) in
  let nof_input_routes := np.shape1 (lats_per_step ps) in
  let new_finish_one := np.full nof_input_routes (fst (finish_temp (ends s))) in
  let new_finish_two := np.full nof_input_routes (snd (finish_temp (ends s))) in
  lats0 <- np.row0 (lats_per_step ps) ;;
  lons0 <- np.row0 (lons_per_step ps) ;;
  new_azi <- geod_inverse lats0 lons0 new_finish_one new_finish_two ;;
  lats <- np.repeat_axis1 (lats_per_step ps) (vs + 1) ;;
  lons <- np.repeat_axis1 (lons_per_step ps) (vs + 1) ;;
  dist <- np.repeat_axis1 (dist_per_step ps) (vs + 1) ;;
  azimuth <- np.repeat_axis1 (azimuth_per_step ps) (vs + 1) ;;
  starttime <- np.repeat_axis1 (starttime_per_step ps) (vs + 1) ;;
  shipparams <- ShipParamsOps.define_variants (shipparams_per_step ps) vs ;;
  full_time <- np.repeat (full_time_traveled pv) (vs + 1) ;;
  full_fuel <- np.repeat (full_fuel_consumed pv) (vs + 1) ;;
  full_dist <- np.repeat (full_dist_traveled pv) (vs + 1) ;;
  time' <- np.repeat (time pv) (vs + 1) ;;
  let s1 :=
    with_per_variant
      (with_per_step s (mkPerStep lats lons azimuth dist shipparams starttime))
      (mkPerVariant (current_azimuth pv) (current_variant pv)
                    full_dist full_time full_fuel time') in
  self_check_variant_def cls s1 ;;;
  delta_hdgs <- np.linspace (- inject_Z vs / 2 * inc) (inject_Z vs / 2 * inc)
                            (vs + 1) ;;
  let delta_hdgs := np.tile delta_hdgs nof_input_routes in
  centers <- np.repeat (azi1 new_azi) (vs + 1) ;;
  headings <- np.sub centers delta_hdgs ;;
  Ok (with_per_variant s1 (with_current_variant (per_variant s1) headings)).

(* ------------------------------------------------------------------ *)
(** ** Pruning *)

(** [list(set(idxs))]: the distinct entries, in an order Python leaves
    open. *)
Class PySet : Type := {
  list_of_set : list nat -> list nat;
  list_of_set_NoDup : forall l, NoDup (list_of_set l);
  list_of_set_In : forall l x, In x (list_of_set l) <-> In x l
}.

(** What the module's [logger] receives. *)
Inductive LogRecord : Type :=
| LogError (msg : string)
| LogWarning (msg : string).

(** One round of the loop of lines 245-253 ([trim]).  A NaN statistic is
    not equal to 0 and equal to no distance, so that [np.where(...)[0][0]]
    raises the [IndexError] which the [except] clause passes over. *)
Definition trim_index (full_dist : list Q) (bin_stat : list (option Q))
  (i : nat) : list nat :=
  match nth_error bin_stat i with
  | Some (Some m) =>
      if Qeq_bool m 0 then []
      else match np.where_ (fun d => Qeq_bool d m) full_dist with
           | j :: _ => [j]
           | [] => []
           end
  | Some None => []
  | None => []
  end.

(** The loop of lines 256-257 (no [trim]): all indices whose distance
    equals the statistic of the bin. *)
Fixpoint notrim_indices (full_dist : list Q) (bin_stat : list (option Q))
  (bins : list nat) : result (list nat) :=
  match bins with
  | [] => Ok []
  | i :: rest =>
      match nth_error bin_stat i with
      | None => Raise (IndexError "index is out of bounds")
      | Some st =>
          more <- notrim_indices full_dist bin_stat rest ;;
          Ok (match st with
              | Some m => np.where_ (fun d => Qeq_bool d m) full_dist
              | None => []
              end ++ more)
      end
  end.

(** Lines 264-270. *)
Definition pruning_log (valid_pruning_segments : nat) (s : IsoBased)
  : list LogRecord :=
  let n := inject_Z (Z.of_nat valid_pruning_segments) in
  let segs := inject_Z (prune_segments (settings s)) in
  if Nat.eqb valid_pruning_segments 0
  then [LogError "All pruning segments fully constrained"]
  else if Qlt_bool n (segs * (1 # 10))
  then [LogWarning "More than 90% of pruning segments constrained"]
  else if Qlt_bool n (segs * (1 # 2))
  then [LogWarning "More than 50% of pruning segments constrained"]
  else [].

(** Lines 273-287: every container is indexed with [idxs]. *)
Definition select_columns (idxs : list nat) (s : IsoBased) : result IsoBased :=
  let ps := per_step s in
  let pv := per_variant s in
  lats <- np.take_cols (lats_per_step ps) idxs ;;
  lons <- np.take_cols (lons_per_step ps) idxs ;;
  azimuth <- np.take_cols (azimuth_per_step ps) idxs ;;
  dist <- np.take_cols (dist_per_step ps) idxs ;;
  shipparams <- ShipParamsOps.select (shipparams_per_step ps) idxs ;;
  starttime <- np.take_cols (starttime_per_step ps) idxs ;;
  azi <- np.take (current_variant pv) idxs ;;
  variant <- np.take (current_variant pv) idxs ;;
  full_dist <- np.take (full_dist_traveled pv) idxs ;;
  full_time <- np.take (full_time_traveled pv) idxs ;;
  full_fuel <- np.take (full_fuel_consumed pv) idxs ;;
  time' <- np.take (time pv) idxs ;;
  Ok (with_per_variant
        (with_per_step s (mkPerStep lats lons azimuth dist shipparams starttime))
        (mkPerVariant azi variant full_dist full_time full_fuel time')).

(** The indices lines 240-258 keep. *)
Definition pruning_idxs {P : PySet} (trim : bool) (bins : list Q) (s : IsoBased)
  : result (list nat) :=
  let pv := per_variant s in
  b <- scipy_stats.binned_statistic (current_variant pv) (full_dist_traveled pv)
                                    bins ;;
  let bin_stat := scipy_stats.statistic b in
  let rounds := seq 0 (length (scipy_stats.bin_edges b) - 1) in
  if trim
  then Ok (list_of_set (flat_map (trim_index (full_dist_traveled pv) bin_stat)
                                 rounds))
  else
    idxs <- notrim_indices (full_dist_traveled pv) bin_stat rounds ;;
    Ok (list_of_set idxs).

(** [pruning], lines 231-289.  The result carries what was logged. *)
Definition pruning {P : PySet} (trim : bool) (bins : list Q) (s : IsoBased)
  : result (IsoBased * list LogRecord) :=
  idxs <- pruning_idxs trim bins s ;;
  let log := pruning_log (length idxs) s in
  match select_columns idxs s with
  | Ok s' => Ok (s', log)
  | Raise (IndexError _) =>
      Raise (PlainException "Pruned indices running out of bounds.")
  | Raise e => Raise e
  end.

(** The bin edges of [pruning_gcr_centered], lines 310-339. *)
Definition gcr_centered_bins {G : Geod} (s : IsoBased) : result (list Q) :=
  let e := ends s in
  let cfg := settings s in
  mean_dist <- np.mean (full_dist_traveled (per_variant s)) ;;
  gcr_point <- geod_direct [fst (start_temp e)] [snd (start_temp e)]
                           [gcr_azi_temp e] [mean_dist] ;;
  new_azi <- geod_inverse (lat2 gcr_point) (lon2 gcr_point)
                          [fst (finish_temp e)] [snd (finish_temp e)] ;;
  azi0s <- np.repeat (azi1 new_azi) (prune_segments cfg + 1) ;;
  delta_hdgs <- np.linspace (- prune_sector_deg_half cfg)
                            (prune_sector_deg_half cfg)
                            (prune_segments cfg + 1) ;;
  bins <- np.sub azi0s delta_hdgs ;;
  Ok (np.sort bins).

(** [pruning_gcr_centered], lines 295-341. *)
Definition pruning_gcr_centered {G : Geod} {P : PySet} (trim : bool)
  (s : IsoBased) : result (IsoBased * list LogRecord) :=
  bins <- gcr_centered_bins s ;;
  pruning trim bins s.

(** [pruning_per_step], lines 629-630: [pass].  The body it replaces
    (lines 291-293) calls [pruning_gcr_centered]. *)
Definition pruning_per_step (trim : bool) (s : IsoBased)
  : result (IsoBased * list LogRecord) := Ok (s, []).

(** [define_variants_per_step], lines 626-627: [pass].  The body it
    replaces (lines 389-390) calls [define_variants]. *)
Definition define_variants_per_step (s : IsoBased) : result IsoBased := Ok s.

(* ------------------------------------------------------------------ *)
(** ** Step propagation *)

(** [get_wind_functions], lines 412-419. *)
Definition get_wind_functions {W : WeatherCond} (s : IsoBased) : result Wind :=
  lats <- get_current_lats s ;;
  lons <- get_current_lons s ;;
  match time (per_variant s) with
  | t0 :: _ => Ok (get_wind_function (lats, lons) t0)
  | [] => Raise (IndexError "index 0 is out of bounds for axis 0")
  end.

(** Lines 171-174 of [move_boat_direct]: the wind handed to the ship model.
    Subtracting [None] from an array is a [TypeError]. *)
Definition relative_wind {W : WeatherCond} (cls : Methods) (s : IsoBased)
  : result Wind :=
  winds <- get_wind_functions s ;;
  match self_get_current_azimuth cls s with
  | Some azimuth =>
      angle <- np.sub (twa winds) azimuth ;;
      Ok (mkWind (tws winds) angle)
  | None => Raise (TypeError "unsupported operand type(s) for -: float and NoneType")
  end.

Definition set_is_last_step (s : IsoBased) : IsoBased :=
  mkIsoBased (count s) true (is_pos_constraint_step s)
             (ends s) (settings s) (per_step s) (per_variant s).

Definition set_is_pos_constraint_step (s : IsoBased) : IsoBased :=
  mkIsoBased (count s) (is_last_step s) true
             (ends s) (settings s) (per_step s) (per_variant s).

(** [check_bearing], lines 454-496. *)
Definition check_bearing {G : Geod} (dist : list Q) (s : IsoBased)
  : result (IsoBased * Move) :=
  let e := ends s in
  lons <- get_current_lons s ;;
  let nvariants := length lons in
  lats <- get_current_lats s ;;
  dist_to_dest <- geod_inverse lats lons
                    (np.full nvariants (fst (finish_temp e)))
                    (np.full nvariants (snd (finish_temp e))) ;;
  reaching_dest <- np.any_lt (s12 dist_to_dest) dist ;;
  if reaching_dest
  then
    let reached_final :=
      Qeq_bool (fst (finish_temp e)) (fst (finish e)) &&
      Qeq_bool (snd (finish_temp e)) (snd (finish e)) in
    let new_lat := np.full nvariants (fst (finish_temp e)) in
    let new_lon := np.full nvariants (snd (finish_temp e)) in
    Ok (if reached_final then set_is_last_step s
        else set_is_pos_constraint_step s,
        mkMove (azi1 dist_to_dest) new_lat new_lon)
  else
    move <- geod_direct lats lons (current_variant (per_variant s)) dist ;;
    Ok (s, move).

(** [check_constraints], lines 498-505. *)
Definition check_constraints {C : ConstraintsList} (move : Move) (s : IsoBased)
  : result (list bool) :=
  let is_constrained := np.full (np.shape1 (lats_per_step (per_step s))) false in
  lats0 <- np.row0 (lats_per_step (per_step s)) ;;
  lons0 <- np.row0 (lons_per_step (per_step s)) ;;
  Ok (safe_crossing lats0 (lat2 move) lons0 (lon2 move) (time (per_variant s))
                    is_constrained).

(** [update_position], lines 507-532. *)
Definition update_position {G : Geod} (move : Move) (is_constrained : list bool)
  (dist : list Q) (s : IsoBased) : result IsoBased :=
  let ps := per_step s in
  let pv := per_variant s in
  lats <- np.vstack (lat2 move) (lats_per_step ps) ;;
  lons <- np.vstack (lon2 move) (lons_per_step ps) ;;
  dists <- np.vstack dist (dist_per_step ps) ;;
  azimuth <- np.vstack (map Some (current_variant pv)) (azimuth_per_step ps) ;;
  let start_lats := np.full (np.shape1 lats) (fst (start_temp (ends s))) in
  let start_lons := np.full (np.shape1 lons) (snd (start_temp (ends s))) in
  gcrs <- geod_inverse start_lats start_lons (lat2 move) (lon2 move) ;;
  full_dist <- np.mask_assign (s12 gcrs) is_constrained 0 ;;
  Ok (with_per_variant
        (with_per_step s
           (mkPerStep lats lons azimuth dists (shipparams_per_step ps)
                      (starttime_per_step ps)))
        (mkPerVariant (azi1 gcrs) (azi1 gcrs) full_dist
                      (full_time_traveled pv) (full_fuel_consumed pv) (time pv))).

(** The loop of lines 536-537: [a[i] += delta[i]] for every index of [a]. *)
Fixpoint add_each (a delta : list Q) : result (list Q) :=
  match a, delta with
  | [], _ => Ok []
  | x :: a', d :: delta' => r <- add_each a' delta' ;; Ok (x + d :: r)
  | _ :: _, [] => Raise (IndexError "index is out of bounds")
  end.

(** [update_fuel], lines 534-537. *)
Definition update_fuel (delta_fuel : list Q) (s : IsoBased) : result IsoBased :=
  let ps := per_step s in
  let pv := per_variant s in
  let sp := shipparams_per_step ps in
  fuel <- np.vstack delta_fuel (get_fuel sp) ;;
  full_fuel <- add_each (full_fuel_consumed pv) delta_fuel ;;
  Ok (with_per_variant
        (with_per_step s
           (mkPerStep (lats_per_step ps) (lons_per_step ps) (azimuth_per_step ps)
                      (dist_per_step ps)
                      (mkShipParams (get_rpm sp) (get_power sp) (get_speed sp) fuel)
                      (starttime_per_step ps)))
        (mkPerVariant (current_azimuth pv) (current_variant pv)
                      (full_dist_traveled pv) (full_time_traveled pv) full_fuel
                      (time pv))).

(** [update_shipparams], lines 207-214. *)
Definition update_shipparams (ship_params_single_step : ShipParamsStep)
  (s : IsoBased) : result IsoBased :=
  let ps := per_step s in
  let sp := shipparams_per_step ps in
  new_rpm <- np.vstack (step_rpm ship_params_single_step) (get_rpm sp) ;;
  new_power <- np.vstack (step_power ship_params_single_step) (get_power sp) ;;
  new_speed <- np.vstack (step_speed ship_params_single_step) (get_speed sp) ;;
  Ok (with_per_step s
        (mkPerStep (lats_per_step ps) (lons_per_step ps) (azimuth_per_step ps)
                   (dist_per_step ps)
                   (mkShipParams new_rpm new_power new_speed (get_fuel sp))
                   (starttime_per_step ps))).

Definition increment_count (s : IsoBased) : IsoBased :=
  mkIsoBased (count s + 1) (is_last_step s) (is_pos_constraint_step s)
             (ends s) (settings s) (per_step s) (per_variant s).

(** [move_boat_direct], lines 163-205.  [self.get_current_azimuth()] is
    called a second time in line 180; where it answers [None], line 174 has
    raised already. *)
Definition move_boat_direct {G : Geod} {W : WeatherCond} {B : Boat}
  {C : ConstraintsList} (cls : Methods) (s : IsoBased) : result IsoBased :=
  wind <- relative_wind cls s ;;
  let bs := boat_speed_function wind in
  match self_get_current_azimuth cls s with
  | None => Raise (TypeError "unsupported operand type(s) for -: float and NoneType")
  | Some courses =>
      lats <- get_current_lats s ;;
      lons <- get_current_lons s ;;
      let ship_params :=
        get_fuel_per_time_netCDF courses lats lons (time (per_variant s)) wind in
      deltas <- self_get_delta_variables_netCDF cls s ship_params bs ;;
      sm <- check_bearing (snd deltas) s ;;
      let s1 := fst sm in
      let move := snd sm in
      deltas <- (if is_last_step s1 || is_pos_constraint_step s1
                 then self_get_delta_variables_netCDF_last_step cls s1 ship_params bs
                 else Ok deltas) ;;
      let delta_time := fst (fst deltas) in
      let delta_fuel := snd (fst deltas) in
      let dist := snd deltas in
      is_constrained <- check_constraints move s1 ;;
      s2 <- update_position move is_constrained dist s1 ;;
      s3 <- self_update_time cls s2 delta_time ;;
      s4 <- update_fuel delta_fuel s3 ;;
      s5 <- update_shipparams ship_params s4 ;;
      Ok (increment_count s5)
  end.

(* ------------------------------------------------------------------ *)
(** ** Termination *)






(* ================================================================== *)
(** * Predicates used in the statements *)

(** The widest offset of the branch fan: [variant_segments/2 *
    variant_increments_deg]. *)
Definition fan_half_width (cfg : Settings) : Q :=
  inject_Z (variant_segments cfg) / 2 * variant_increments_deg cfg.

(** Every row of [m] has [N] entries. *)
Definition cols {A : Type} (m : matrix A) (N : nat) : Prop :=
  Forall (fun r => length r = N) m.

(** The (M,N) shape of a two-dimensional array. *)
Definition has_shape {A : Type} (m : matrix A) (M N : nat) : Prop :=
  length m = M /\ cols m N.

(** All per-step containers are [N] columns wide and all per-candidate
    vectors are [N] long. *)
Definition wide (s : IsoBased) (N : nat) : Prop :=
  let ps := per_step s in
  let pv := per_variant s in
  cols (lats_per_step ps) N /\ cols (lons_per_step ps) N /\
  cols (azimuth_per_step ps) N /\ cols (dist_per_step ps) N /\
  cols (starttime_per_step ps) N /\
  cols (get_rpm (shipparams_per_step ps)) N /\
  cols (get_power (shipparams_per_step ps)) N /\
  cols (get_speed (shipparams_per_step ps)) N /\
  cols (get_fuel (shipparams_per_step ps)) N /\
  length (full_dist_traveled pv) = N /\ length (full_time_traveled pv) = N /\
  length (full_fuel_consumed pv) = N /\ length (time pv) = N.

(** The shape invariant of the four position containers: [count + 1] rows
    and [N] columns each. *)
Definition shape_ok (s : IsoBased) (N : nat) : Prop :=
  let ps := per_step s in
  has_shape (lats_per_step ps) (count s + 1) N /\
  has_shape (lons_per_step ps) (count s + 1) N /\
  has_shape (azimuth_per_step ps) (count s + 1) N /\
  has_shape (dist_per_step ps) (count s + 1) N.

(** The per-step containers of [s'] are those of [s] with every column
    repeated [k] times, entries copied. *)
Definition replicated (k : nat) (s s' : IsoBased) : Prop :=
  let ps := per_step s in
  let ps' := per_step s' in
  lats_per_step ps' = map (np.repeat_each k) (lats_per_step ps) /\
  lons_per_step ps' = map (np.repeat_each k) (lons_per_step ps) /\
  azimuth_per_step ps' = map (np.repeat_each k) (azimuth_per_step ps) /\
  dist_per_step ps' = map (np.repeat_each k) (dist_per_step ps) /\
  starttime_per_step ps' = map (np.repeat_each k) (starttime_per_step ps) /\
  get_rpm (shipparams_per_step ps') =
    map (np.repeat_each k) (get_rpm (shipparams_per_step ps)) /\
  get_power (shipparams_per_step ps') =
    map (np.repeat_each k) (get_power (shipparams_per_step ps)) /\
  get_speed (shipparams_per_step ps') =
    map (np.repeat_each k) (get_speed (shipparams_per_step ps)) /\
  get_fuel (shipparams_per_step ps') =
    map (np.repeat_each k) (get_fuel (shipparams_per_step ps)).

(** The position of candidate [j]: row 0 of the position containers. *)
Definition position (s : IsoBased) (j : nat) : option (Q * Q) :=
  match lats_per_step (per_step s), lons_per_step (per_step s) with
  | lats0 :: _, lons0 :: _ =>
      match nth_error lats0 j, nth_error lons0 j with
      | Some la, Some lo => Some (la, lo)
      | _, _ => None
      end
  | _, _ => None
  end.

(** The great-circle azimuth from a point to the temporary destination. *)
Definition azimuth_to_destination {G : Geod} (s : IsoBased) (p : Q * Q) : Q :=
  fst (inverse1 (fst p) (snd p) (fst (finish_temp (ends s)))
                (snd (finish_temp (ends s)))).

(** The geodesic distance from a point to the temporary destination. *)
Definition distance_to_destination {G : Geod} (s : IsoBased) (p : Q * Q) : Q :=
  snd (inverse1 (fst p) (snd p) (fst (finish_temp (ends s)))
                (snd (finish_temp (ends s)))).

(** The geodesic distance from the origin of the route segment to a point. *)
Definition distance_from_start {G : Geod} (s : IsoBased) (p : Q * Q) : Q :=
  snd (inverse1 (fst (start_temp (ends s))) (snd (start_temp (ends s)))
                (fst p) (snd p)).

(** Some candidate is nearer to the temporary destination than the step
    it is about to make. *)
Definition some_candidate_reaches {G : Geod} (s : IsoBased) (dist : list Q)
  : Prop :=
  exists j p d,
    position s j = Some p /\ nth_error dist j = Some d /\
    distance_to_destination s p < d.

(** The temporary destination is the final destination. *)
Definition at_final_destination (s : IsoBased) : Prop :=
  fst (finish_temp (ends s)) == fst (finish (ends s)) /\
  snd (finish_temp (ends s)) == snd (finish (ends s)).

(** Entry [j] of a move. *)
Definition move_at (move : Move) (j : nat) : option (Q * Q * Q) :=
  match nth_error (lat2 move) j, nth_error (lon2 move) j,
        nth_error (azi2 move) j with
  | Some la, Some lo, Some az => Some (la, lo, az)
  | _, _, _ => None
  end.

(** Candidate [j] is put on the temporary destination, with the azimuth of
    the inverse geodesic from its position. *)
Definition lands_on_destination {G : Geod} (s : IsoBased) (move : Move)
  (j : nat) (p : Q * Q) : Prop :=
  move_at move j =
  Some (fst (finish_temp (ends s)), snd (finish_temp (ends s)),
        azimuth_to_destination s p).

(** Candidate [j] travels its step distance [d] along its heading [h]. *)
Definition travels_step {G : Geod} (move : Move) (j : nat) (p : Q * Q)
  (h d : Q) : Prop :=
  move_at move j = Some (direct1 (fst p) (snd p) h d).

(** The reading of step 3 of StepPropagation candidate by candidate: a
    candidate lands on the destination when it is itself nearer than its
    step, and travels its step otherwise. *)
Definition decides_per_candidate {G : Geod} (s : IsoBased) (dist : list Q)
  : Prop :=
  forall s' move, check_bearing dist s = Ok (s', move) ->
  forall j p d h,
    position s j = Some p -> nth_error dist j = Some d ->
    nth_error (current_variant (per_variant s)) j = Some h ->
    (distance_to_destination s p < d -> lands_on_destination s move j p) /\
    (~ distance_to_destination s p < d -> travels_step move j p h d).

(** A stand-in for the geodesic library in the examples: distances are
    taken along the axes, the course to any point is 90 degrees, and a
    direct move shifts the longitude by the distance. *)
Definition example_geod : Geod :=
  {| inverse1 := fun la1 lo1 la2 lo2 => (90, Qabs (la2 - la1) + Qabs (lo2 - lo1));
     direct1 := fun la lo az d => (la, lo + d, az) |}.

(** [list(set(idxs))] in the examples: first occurrences, in order. *)
Definition example_set : PySet :=
  {| list_of_set := fun l => nodup Nat.eq_dec l;
     list_of_set_NoDup := fun l => NoDup_nodup Nat.eq_dec l;
     list_of_set_In := fun l x => nodup_In Nat.eq_dec l x |}.

Definition example_settings : Settings := mkSettings 4 5 90 10.

Definition example_ends : RouteEnds :=
  mkRouteEnds (0, 0) (0, 10) (0, 0) (0, 10) 90.

(** The state at departure, with the settings of the branching law. *)
Definition example_departure : IsoBased :=
  init example_ends example_settings 0 [90].

(** Two candidates after one step, at longitudes 0 and 9 on the equator,
    with the destination at longitude 10; the second one started 3600
    seconds later. *)
Definition example_two : IsoBased :=
  mkIsoBased 1 false false example_ends example_settings
    (mkPerStep [[0; 0]; [0; 0]] [[0; 9]; [0; 0]]
               [[Some 90; Some 90]; [None; None]] [[0; 9]; [0; 0]]
               (mkShipParams [[0; 0]; [0; 0]] [[0; 0]; [0; 0]]
                             [[0; 0]; [0; 0]] [[0; 0]; [0; 0]])
               [[0; 0]])
    (mkPerVariant [90; 90] [90; 90] [0; 9] [0; 0] [0; 0] [0; 3600]).

(** The reading of step 1 of StepPropagation candidate by candidate: the
    wind used for candidate [j] is the answer of the wind model for the
    current positions at the current time of candidate [j]. *)
Definition wind_at_own_time {W : WeatherCond} (s : IsoBased) : Prop :=
  forall winds lats lons,
    get_wind_functions s = Ok winds ->
    get_current_lats s = Ok lats -> get_current_lons s = Ok lons ->
    forall j t,
      nth_error (time (per_variant s)) j = Some t ->
      nth_error (twa winds) j = nth_error (twa (get_wind_function (lats, lons) t)) j /\
      nth_error (tws winds) j = nth_error (tws (get_wind_function (lats, lons) t)) j.

(** A stand-in wind model for the examples: the wind turns with time, one
    degree per hour, and blows at 10 everywhere. *)
Definition example_weather : WeatherCond :=
  {| get_wind_function := fun pos t =>
       mkWind (np.full (length (fst pos)) 10)
              (np.full (length (fst pos)) (t / 3600)) |}.

(** A table of bindings in which [get_current_azimuth] and
    [check_variant_def] are the working bodies, as a subclass may restore
    them; steps advance by 5 in 3600 seconds. *)
Definition example_subclass : Methods :=
  mkMethods Shadowed.check_variant_def Shadowed.get_current_azimuth
    (fun s _ bs => Ok (map (fun _ => 3600) bs, map (fun _ => 1) bs,
                       map (fun _ => 5) bs))
    (fun s _ bs => Ok (map (fun _ => 3600) bs, map (fun _ => 1) bs,
                       map (fun _ => 5) bs))
    (fun s _ => Ok s)
    Shadowed.get_final_index.

(** Every container of [s'] is the container of [s] indexed with
    [idxs]: column [k] of [s'] is column [idxs[k]] of [s]. *)
Definition reindexed (idxs : list nat) (s s' : IsoBased) : Prop :=
  let ps := per_step s in
  let ps' := per_step s' in
  let pv := per_variant s in
  let pv' := per_variant s' in
  np.take_cols (lats_per_step ps) idxs = Ok (lats_per_step ps') /\
  np.take_cols (lons_per_step ps) idxs = Ok (lons_per_step ps') /\
  np.take_cols (azimuth_per_step ps) idxs = Ok (azimuth_per_step ps') /\
  np.take_cols (dist_per_step ps) idxs = Ok (dist_per_step ps') /\
  np.take_cols (starttime_per_step ps) idxs = Ok (starttime_per_step ps') /\
  np.take_cols (get_rpm (shipparams_per_step ps)) idxs =
    Ok (get_rpm (shipparams_per_step ps')) /\
  np.take_cols (get_power (shipparams_per_step ps)) idxs =
    Ok (get_power (shipparams_per_step ps')) /\
  np.take_cols (get_speed (shipparams_per_step ps)) idxs =
    Ok (get_speed (shipparams_per_step ps')) /\
  np.take_cols (get_fuel (shipparams_per_step ps)) idxs =
    Ok (get_fuel (shipparams_per_step ps')) /\
  np.take (current_variant pv) idxs = Ok (current_azimuth pv') /\
  np.take (current_variant pv) idxs = Ok (current_variant pv') /\
  np.take (full_dist_traveled pv) idxs = Ok (full_dist_traveled pv') /\
  np.take (full_time_traveled pv) idxs = Ok (full_time_traveled pv') /\
  np.take (full_fuel_consumed pv) idxs = Ok (full_fuel_consumed pv') /\
  np.take (time pv) idxs = Ok (time pv').

(** The pruning law read for every pass: whatever [trim] is, a pass leaves
    at most [prune_segments] columns. *)
Definition pass_within_segments {G : Geod} {P : PySet} (trim : bool)
  (s : IsoBased) : Prop :=
  forall s' log,
    pruning_gcr_centered trim s = Ok (s', log) ->
    (Z.of_nat (np.shape1 (lats_per_step (per_step s'))) <=
     prune_segments (settings s))%Z.

(** Three candidates with the same progress, two pruning segments. *)
Definition example_three : IsoBased :=
  mkIsoBased 1 false false example_ends (mkSettings 4 5 90 2)
    (mkPerStep [[0; 0; 0]; [0; 0; 0]] [[7; 7; 7]; [0; 0; 0]]
               [[Some 90; Some 90; Some 90]; [None; None; None]]
               [[7; 7; 7]; [0; 0; 0]]
               (mkShipParams [[0; 0; 0]; [0; 0; 0]] [[0; 0; 0]; [0; 0; 0]]
                             [[0; 0; 0]; [0; 0; 0]] [[0; 0; 0]; [0; 0; 0]])
               [[0; 0; 0]])
    (mkPerVariant [45; 50; 100] [45; 50; 100] [7; 7; 7] [0; 0; 0] [0; 0; 0]
                  [0; 0; 0]).

(** Two candidates with the same progress 7: the first heads 15 degrees
    (second bin of the edges 0, 10, 20), the second 5 degrees (first bin). *)
Definition example_tie : IsoBased :=
  mkIsoBased 1 false false example_ends (mkSettings 4 5 10 2)
    (mkPerStep [[1; 2]; [0; 0]] [[3; 4]; [0; 0]]
               [[Some 15; Some 5]; [None; None]] [[7; 7]; [0; 0]]
               (mkShipParams [[0; 0]; [0; 0]] [[0; 0]; [0; 0]]
                             [[0; 0]; [0; 0]] [[0; 0]; [0; 0]])
               [[0; 0]])
    (mkPerVariant [15; 5] [15; 5] [7; 7] [0; 0] [0; 0] [0; 0]).

(** The departure state with one row too many in [dist_per_step]. *)
Definition example_mismatch : IsoBased :=
  mkIsoBased 0 false false example_ends example_settings
    (mkPerStep [[0]] [[0]] [[None]] [[0]; [0]]
               (mkShipParams [[0]] [[0]] [[0]] [[0]]) [[0]])
    (mkPerVariant [90] [90] [0] [0] [0] [0]).

(** A stand-in ship: speed 5 whatever the wind, no telemetry of note. *)
Definition example_boat : Boat :=
  {| boat_speed_function := fun wind => map (fun _ => 5) (twa wind);
     get_fuel_per_time_netCDF := fun courses lats lons time wind =>
       mkShipParamsStep (map (fun _ => 100) courses) (map (fun _ => 2000) courses)
                        (map (fun _ => 5) courses) |}.

(** A stand-in constraint list: a candidate is blocked when its step ends
    north of latitude 1. *)
Definition example_constraints : ConstraintsList :=
  {| safe_crossing := fun lat_start lat_end lon_start lon_end time is_constrained =>
       map (fun la => Qlt_bool 1 la) lat_end |}.

(* ================================================================== *)
(** * Time ([datetime]) and rounding ([unit_conversion.py])

    A [datetime] is the number of microseconds since [datetime.min]
    (midnight of 0001-01-01), a [timedelta] a number of microseconds.  Dates
    are taken to stay inside the range of [datetime]. *)

Module pytime.

Definition us_per_second : Z := 1000000.
Definition seconds_per_day : Z := 86400.

(** [timedelta.seconds]: the seconds within the day. *)
Definition seconds (td : Z) : Z := (td / us_per_second) mod seconds_per_day.

(** [datetime.microsecond]. *)
Definition microsecond (d : Z) : Z := d mod us_per_second.

(** [timedelta.total_seconds()]. *)
Definition total_seconds (td : Z) : Q := inject_Z td / inject_Z us_per_second.

(** [timedelta(days, seconds, microseconds)] with whole numbers. *)
Definition timedelta (days secs micros : Z) : Z :=
  (days * seconds_per_day + secs) * us_per_second + micros.

(** [timedelta(hours=h)]. *)
Definition hours (h : Z) : Z := h * 3600 * us_per_second.

(** [int(x)]: truncation towards zero. *)
Definition int (x : Q) : Z := Z.quot (Qnum x) (Zpos (Qden x)).

End pytime.

(** What the weather module raises. *)
Inductive weather_exn : Type :=
| ZeroDivisionError
| ResolutionError
| KeyError
| WrongForecast.

Definition outcome (A : Type) : Type := (weather_exn + A)%type.

Definition and_then {A B : Type} (r : outcome A) (k : A -> outcome B)
  : outcome B :=
  match r with
  | inl e => inl e
  | inr a => k a
  end.

(** [round_time(dt=None, round_to=60)], lines 23-42, with the clock reading
    [now] for [datetime.datetime.now()].  [round_to / 2] is a true division
    and [//] the floor of the quotient. *)
Definition round_time (now : Z) (dt : option Z) (round_to : Z) : outcome Z :=
  let dt := match dt with Some d => d | None => now end in
  let seconds := pytime.seconds (dt - 0) in
  if Z.eqb round_to 0 then inl ZeroDivisionError
  else
    let rounding :=
      (Qfloor ((inject_Z seconds + inject_Z round_to / 2) / inject_Z round_to)
       * round_to)%Z in
    inr (dt + pytime.timedelta 0 (rounding - seconds) (- pytime.microsecond dt))%Z.

(** [math.radians]. *)
Class Radians : Type := {
  radians : Q -> Q
}.

(** The four corrections of [degree_to_pmpi], lines 44-48. *)
Definition degree_to_pmpi_degrees (degrees : Q) : Q :=
  let degrees := if Qle_bool 360 degrees then degrees - 360 else degrees in
  let degrees := if Qle_bool degrees (-(360)) then degrees + 360 else degrees in
  let degrees := if Qlt_bool 180 degrees then degrees - 360 else degrees in
  let degrees := if Qlt_bool degrees (-(180)) then degrees + 360 else degrees in
  degrees.

(** [degree_to_pmpi], lines 44-50. *)
Definition degree_to_pmpi {R : Radians} (degrees : Q) : Q :=
  radians (degree_to_pmpi_degrees degrees).

(* ================================================================== *)
(** * The weather provider ([weather.py]) *)

(** The dictionary [read_wind_vectors] returns: the wind field of one time
    and that time. *)
Record WindVector (Field : Type) : Type := mkWindVector {
  field : Field;
  timestamp : Z
}.

Arguments mkWindVector {Field} field timestamp.
Arguments field {Field} w.
Arguments timestamp {Field} w.

(** The attributes of [WeatherCond] (lines 19-26) that the time handling
    uses; [wind_vectors] holds the numbered entries of the dictionary of
    [WeatherCondFromFile], in the order of insertion. *)
Record WeatherState (Field : Type) : Type := mkWeatherState {
  time_steps : Z;
  _time_res : Z;
  _time_start : Z;
  _time_end : Z;
  wind_vectors : list (Z * WindVector Field)
}.

Arguments mkWeatherState {Field} time_steps _time_res _time_start _time_end wind_vectors.
Arguments time_steps {Field} w.
Arguments _time_res {Field} w.
Arguments _time_start {Field} w.
Arguments _time_end {Field} w.
Arguments wind_vectors {Field} w.

Module Weather.
Section WithField.
Context {Field : Type}.

(** The setter of [time_res], lines 48-52, for a whole number of hours. *)
Definition set_time_res (value : Z) : outcome Z :=
  if (value <? 3)%Z then inl ResolutionError else inr (pytime.hours value).

(** The setter of [time_start], lines 58-62.  Half of a whole number of
    hours is a whole number of microseconds. *)
Definition set_time_start (now time_res value : Z) : outcome Z :=
  let rounded_time := (value - time_res / 2)%Z in
  round_time now (Some rounded_time) (pytime.int (pytime.total_seconds time_res)).

(** The setter of [time_end], lines 69-73. *)
Definition set_time_end (now time_res value : Z) : outcome Z :=
  let rounded_time := (value + time_res / 2)%Z in
  round_time now (Some rounded_time) (pytime.int (pytime.total_seconds time_res)).

(** [WeatherCond.__init__], lines 28-42. *)
Definition init (now time hours time_res : Z) : outcome (WeatherState Field) :=
  and_then (set_time_res time_res) (fun res =>
  and_then (set_time_start now res time) (fun time_start =>
  and_then (set_time_end now res (time + pytime.hours hours)) (fun time_end =>
  if Qeq_bool (pytime.total_seconds res) 0 then inl ZeroDivisionError
  else
    let time_passed := (time_end - time_start)%Z in
    inr (mkWeatherState
           (pytime.int (pytime.total_seconds time_passed / pytime.total_seconds res))
           res time_start time_end [])))).

(** [get_time_step_index], lines 292-296: the rounded time and the index,
    a quotient of floats. *)
Definition get_time_step_index (now : Z) (w : WeatherState Field) (time : Z)
  : outcome (Z * Q) :=
  and_then (round_time now (Some time)
              (pytime.int (pytime.total_seconds (_time_res w))))
    (fun rounded_time =>
       let time_passed := (rounded_time - _time_start w)%Z in
       if Qeq_bool (pytime.total_seconds (_time_res w)) 0
       then inl ZeroDivisionError
       else inr (rounded_time,
                 pytime.total_seconds time_passed /
                 pytime.total_seconds (_time_res w))).

(** [self.wind_vectors[idx]] for an index that is a float: the entry whose
    key equals it, a [KeyError] without one. *)
Fixpoint lookup (d : list (Z * WindVector Field)) (idx : Q)
  : outcome (WindVector Field) :=
  match d with
  | [] => inl KeyError
  | (k, v) :: rest => if Qeq_bool (inject_Z k) idx then inr v else lookup rest idx
  end.

(** [d[k] = v]: the value of an existing key is replaced in place, a new
    key goes to the end. *)
Fixpoint store (d : list (Z * WindVector Field)) (k : Z) (v : WindVector Field)
  : list (Z * WindVector Field) :=
  match d with
  | [] => [(k, v)]
  | (k', v') :: rest =>
      if Z.eqb k' k then (k', v) :: rest else (k', v') :: store rest k v
  end.

(** [read_wind_vectors], lines 181-208: the field the data set holds for
    [time] (looked up outside, [ds_sel]), stamped with [time]. *)
Definition read_wind_vectors (ds_sel : Z -> outcome Field) (time : Z)
  : outcome (WindVector Field) :=
  and_then (ds_sel time) (fun f => inr (mkWindVector f time)).

(** The loop of [init_wind_vectors], lines 343-346, over the given indices. *)
Fixpoint fill_wind_vectors (ds_sel : Z -> outcome Field)
  (w : WeatherState Field) (d : list (Z * WindVector Field)) (indices : list nat)
  : outcome (list (Z * WindVector Field)) :=
  match indices with
  | [] => inr d
  | i :: rest =>
      let time := (_time_start w + _time_res w * Z.of_nat i)%Z in
      and_then (read_wind_vectors ds_sel time) (fun v =>
      fill_wind_vectors ds_sel w (store d (Z.of_nat i) v) rest)
  end.

(** [init_wind_vectors], lines 327-347. *)
Definition init_wind_vectors (ds_sel : Z -> outcome Field)
  (w : WeatherState Field) : outcome (WeatherState Field) :=
  and_then (fill_wind_vectors ds_sel w [] (seq 0 (Z.to_nat (time_steps w))))
    (fun d => inr (mkWeatherState (time_steps w) (_time_res w) (_time_start w)
                                  (_time_end w) d)).

(** [get_wind_vector], lines 349-365. *)
Definition get_wind_vector (now : Z) (w : WeatherState Field) (time : Z)
  : outcome (WindVector Field) :=
  and_then (get_time_step_index now w time) (fun time_passed =>
  let rounded_time := fst time_passed in
  let idx := snd time_passed in
  and_then (lookup (wind_vectors w) idx) (fun v =>
  let wind_timestamp := timestamp v in
  if negb (Z.eqb rounded_time wind_timestamp) then inl WrongForecast
  else lookup (wind_vectors w) idx)).

End WithField.
End Weather.

(** The start of the day of [d]. *)
Definition midnight (d : Z) : Z :=
  (d / (pytime.seconds_per_day * pytime.us_per_second)
   * (pytime.seconds_per_day * pytime.us_per_second))%Z.

(** [d] without its microseconds. *)
Definition whole_seconds (d : Z) : Z := (d - pytime.microsecond d)%Z.

(** An entry of the dictionary of wind vectors is numbered below [n] and
    stamped with the time of its number. *)
Definition stamped {Field : Type} (w : WeatherState Field) (n : Z)
  (kv : Z * WindVector Field) : Prop :=
  (0 <= fst kv < n)%Z /\
  timestamp (snd kv) = (_time_start w + _time_res w * fst kv)%Z.

(** A data set that holds a field for every time, and ten o'clock of the
    first day, in microseconds. *)
Definition example_ds_sel (time : Z) : outcome unit := inr tt.

Definition example_ten_oclock : Z := 36000000000.

(** [math.radians] with 355/113 for pi, for the examples. *)
Definition example_radians : Radians :=
  {| radians := fun d => d * (355 # 113) / 180 |}.

(* ================================================================== *)
(** * More example states *)

(** A state with the progress metric replaced. *)
Definition with_progress (s : IsoBased) (full_dist : list Q) : IsoBased :=
  let pv := per_variant s in
  with_per_variant s
    (mkPerVariant (current_azimuth pv) (current_variant pv) full_dist
                  (full_time_traveled pv) (full_fuel_consumed pv) (time pv)).

(** Three candidates heading 45, 50 and 100 degrees; the second one has
    been blocked, so that its progress is 0. *)
Definition example_front : IsoBased := with_progress example_three [7; 0; 3].

(** The same three candidates, all of them blocked. *)
Definition example_all_blocked : IsoBased :=
  with_progress example_three [0; 0; 0].

(** The symmetry axis of [pruning_gcr_centered], lines 310-321: the azimuth
    to the temporary destination, taken at the point that lies the mean
    progress away from the origin of the route segment in the direction
    [gcr_azi_temp]. *)
Definition pruning_axis {G : Geod} (s : IsoBased) (mean_dist : Q) : Q :=
  let e := ends s in
  let p := direct1 (fst (start_temp e)) (snd (start_temp e)) (gcr_azi_temp e)
                   mean_dist in
  fst (inverse1 (fst (fst p)) (snd (fst p))
                (fst (finish_temp e)) (snd (finish_temp e))).

(* ================================================================== *)
(** * States reached by the methods *)

(** A binding of [update_time] that, like the body of lines 450-452,
    assigns [full_time_traveled] and [time] and nothing else. *)
Definition only_updates_time (cls : Methods) : Prop :=
  forall s delta_time s',
    self_update_time cls s delta_time = Ok s' ->
    exists full_time time',
      s' = with_per_variant s
             (mkPerVariant (current_azimuth (per_variant s))
                           (current_variant (per_variant s))
                           (full_dist_traveled (per_variant s)) full_time
                           (full_fuel_consumed (per_variant s)) time').

(** The states that calls of [define_variants], [move_boat_direct] and
    [pruning] (with any edges) lead to from a freshly built object. *)
Inductive reachable {G : Geod} {W : WeatherCond} {B : Boat}
  {C : ConstraintsList} {P : PySet} (cls : Methods) : IsoBased -> Prop :=
| reach_init (ends0 : RouteEnds) (cfg : Settings) (time0 : Q)
    (current_azimuth0 : list Q) :
    reachable cls (init ends0 cfg time0 current_azimuth0)
| reach_define_variants (s s' : IsoBased) :
    reachable cls s -> define_variants cls s = Ok s' -> reachable cls s'
| reach_move_boat_direct (s s' : IsoBased) :
    reachable cls s -> move_boat_direct cls s = Ok s' -> reachable cls s'
| reach_pruning (trim : bool) (bins : list Q) (s s' : IsoBased)
    (log : list LogRecord) :
    reachable cls s -> pruning trim bins s = Ok (s', log) -> reachable cls s'.

(** The shape invariant of the class comment (lines 30-58): the four
    position containers have [count + 1] rows and [N] columns, and the
    progress and the fuel total have one entry per column. *)
Definition state_ok (s : IsoBased) (N : nat) : Prop :=
  shape_ok s N /\
  length (full_dist_traveled (per_variant s)) = N /\
  length (full_fuel_consumed (per_variant s)) = N.

(** The azimuth of the geodesic from the origin of the route segment to a
    point. *)
Definition azimuth_from_start {G : Geod} (s : IsoBased) (p : Q * Q) : Q :=
  fst (inverse1 (fst (start_temp (ends s))) (snd (start_temp (ends s)))
                (fst p) (snd p)).

(** Every candidate's heading is the azimuth, and its progress 0 or the
    distance, of the geodesic from the origin of the route segment to the
    candidate's position. *)
Definition tracks_origin {G : Geod} (s : IsoBased) : Prop :=
  current_azimuth (per_variant s) = current_variant (per_variant s) /\
  forall j p, position s j = Some p ->
    nth_error (current_variant (per_variant s)) j = Some (azimuth_from_start s p) /\
    exists d, nth_error (full_dist_traveled (per_variant s)) j = Some d /\
              (d = 0 \/ d = distance_from_start s p).

(** The departure state with [variant_segments = -2]. *)
Definition example_negative : IsoBased :=
  init example_ends (mkSettings (-2) 5 90 10) 0 [90].

(* ================================================================== *)
(** * Pruning around the median heading *)

(** [np.round] of a float: the nearest whole number, a tie going to the
    even one. *)
Definition round_half_even (x : Q) : Z :=
  let f := Qfloor x in
  let r := x - inject_Z f in
  if Qlt_bool r (1 # 2) then f
  else if Qlt_bool (1 # 2) r then (f + 1)%Z
  else if Z.even f then f else (f + 1)%Z.

(** The bin edges of [pruning_headings_centered], lines 354-381.  [int] of
    a rounded float is that whole number; it is not negative here, so that
    the index counts from the front. *)
Definition headings_centered_bins {G : Geod} (s : IsoBased) : result (list Q) :=
  let ps := per_step s in
  let cfg := settings s in
  let nof_input_routes := np.shape1 (lats_per_step ps) in
  let new_finish_one := np.full nof_input_routes (fst (finish_temp (ends s))) in
  let new_finish_two := np.full nof_input_routes (snd (finish_temp (ends s))) in
  lats0 <- np.row0 (lats_per_step ps) ;;
  lons0 <- np.row0 (lons_per_step ps) ;;
  new_azi <- geod_inverse lats0 lons0 new_finish_one new_finish_two ;;
  let new_azi_sorted := np.sort (azi1 new_azi) in
  let meadian_indx :=
    round_half_even (inject_Z (Z.of_nat (length new_azi_sorted)) / 2) in
  match nth_error new_azi_sorted (Z.to_nat meadian_indx) with
  | None => Raise (IndexError "index is out of bounds for axis 0")
  | Some mean_azimuth =>
      bins <- np.linspace (mean_azimuth - prune_sector_deg_half cfg)
                          (mean_azimuth + prune_sector_deg_half cfg)
                          (prune_segments cfg + 1) ;;
      Ok (np.sort bins)
  end.

(** [pruning_headings_centered], lines 343-386. *)
Definition pruning_headings_centered {G : Geod} {P : PySet} (trim : bool)
  (s : IsoBased) : result (IsoBased * list LogRecord) :=
  bins <- headings_centered_bins s ;;
  pruning trim bins s.

(** [example_three] with [prune_segments = 0]. *)
Definition example_zero_segments : IsoBased :=
  mkIsoBased 1 false false example_ends (mkSettings 4 5 90 0)
             (per_step example_three) (per_variant example_three).

(* ================================================================== *)
(** * Lemmas on comparisons *)

Lemma Qlt_bool_iff (x y : Q) : Qlt_bool x y = true <-> x < y.
Proof.
  unfold Qlt_bool. rewrite negb_true_iff. split; intro H.
  - apply Qnot_le_lt. intro Hle. apply Qle_bool_iff in Hle. congruence.
  - destruct (Qle_bool y x) eqn:E; [|reflexivity].
    apply Qle_bool_iff in E. exfalso. exact (Qlt_not_le _ _ H E).
Qed.

Lemma Qlt_bool_false_iff (x y : Q) : Qlt_bool x y = false <-> y <= x.
Proof.
  unfold Qlt_bool. rewrite negb_false_iff. apply Qle_bool_iff.
Qed.

Lemma Qeq_bool_refl (x : Q) : Qeq_bool x x = true.
Proof. apply Qeq_bool_iff. reflexivity. Qed.

(* ================================================================== *)
(** * Theorems: unit conversion *)

(** C10.  Over exact rationals the two conversions are mutually inverse:
    converting m/s to knots and back, or knots to m/s and back, returns the
    speed one started from. *)
Theorem knots_mps_inverse (v : Q) :
  UnitConversion.knots_to_mps (UnitConversion.mps_to_knots v) == v /\
  UnitConversion.mps_to_knots (UnitConversion.knots_to_mps v) == v.
Proof.
  unfold UnitConversion.knots_to_mps, UnitConversion.mps_to_knots.
  split; field.
Qed.

(* ================================================================== *)
(** * Theorems: settings *)

(** C9.  [check_settings] raises a [ValueError] exactly when
    [variant_segments] is odd, or [prune_segments] is odd, or the fan half
    width [variant_segments/2 * variant_increments_deg] is not strictly below
    [prune_sector_deg_half]; and it returns normally exactly when both
    numbers are even and the fan half width is strictly below the sector
    half width. *)
Theorem check_settings_fails_fast (s : IsoBased) :
  ((Z.odd (variant_segments (settings s)) = true \/
    Z.odd (prune_segments (settings s)) = true \/
    ~ fan_half_width (settings s) < prune_sector_deg_half (settings s))
   <-> exists msg, check_settings s = Raise (ValueError msg)) /\
  ((Z.even (variant_segments (settings s)) = true /\
    Z.even (prune_segments (settings s)) = true /\
    fan_half_width (settings s) < prune_sector_deg_half (settings s))
   <-> check_settings s = Ok tt).
Proof.
  unfold check_settings, fan_half_width.
  destruct (settings s) as [vs inc half ps]; cbn [variant_segments
    variant_increments_deg prune_sector_deg_half prune_segments].
  rewrite <- !Z.negb_even.
  rewrite (Zmod_even vs), (Zmod_even ps).
  destruct (Qle_bool half (inject_Z vs / 2 * inc)) eqn:Hfan.
  - apply Qle_bool_iff in Hfan. split; split.
    + intros _. eexists. reflexivity.
    + intros _. right. right. intro Hlt. exact (Qlt_not_le _ _ Hlt Hfan).
    + intros (_ & _ & Hlt). exfalso. exact (Qlt_not_le _ _ Hlt Hfan).
    + discriminate.
  - assert (Hlt : inject_Z vs / 2 * inc < half).
    { apply Qnot_le_lt. intro Hle. apply Qle_bool_iff in Hle. congruence. }
    destruct (Z.even vs) eqn:Ev, (Z.even ps) eqn:Ep; cbn; split; split;
      try (intros _; eexists; reflexivity);
      try (intros [H | [H | H]]; try discriminate; contradiction);
      try (intros (H1 & H2 & _); discriminate);
      try discriminate;
      try (intros [msg H]; discriminate);
      try (intros _; auto; fail);
      try (intros _; repeat split; auto).
Qed.

(* ================================================================== *)
(** * Lemmas on arrays *)

Section ArrayLemmas.
Context {A : Type}.

Lemma repeat_each_cons (k : nat) (x : A) (a : list A) :
  np.repeat_each k (x :: a) = List.repeat x k ++ np.repeat_each k a.
Proof. reflexivity. Qed.

Lemma repeat_each_length (k : nat) (a : list A) :
  length (np.repeat_each k a) = (length a * k)%nat.
Proof.
  induction a as [|x a IH]; [reflexivity|].
  rewrite repeat_each_cons, length_app, repeat_length, IH. cbn. lia.
Qed.

Lemma nth_error_repeat (x : A) (k i : nat) :
  (i < k)%nat -> nth_error (List.repeat x k) i = Some x.
Proof.
  revert i. induction k as [|k IH]; intros i Hi; [lia|].
  destruct i as [|i]; [reflexivity|]. cbn. apply IH. lia.
Qed.

Lemma nth_error_repeat_each (k : nat) (a : list A) (j i : nat) :
  (i < k)%nat ->
  nth_error (np.repeat_each k a) (j * k + i) = nth_error a j.
Proof.
  intro Hi. revert j. induction a as [|x a IH]; intro j.
  - cbn. destruct j; now rewrite ?nth_error_nil.
  - rewrite repeat_each_cons. destruct j as [|j].
    + cbn [Nat.mul Nat.add nth_error].
      rewrite nth_error_app1 by (rewrite repeat_length; exact Hi).
      now apply nth_error_repeat.
    + rewrite nth_error_app2 by (rewrite repeat_length; cbn; lia).
      rewrite repeat_length.
      replace (S j * k + i - k)%nat with (j * k + i)%nat by (cbn; lia).
      cbn [nth_error]. apply IH.
Qed.

Lemma tile_length (a : list A) (n : nat) :
  length (np.tile a n) = (n * length a)%nat.
Proof.
  unfold np.tile. induction n as [|n IH]; [reflexivity|].
  cbn. rewrite length_app, IH. reflexivity.
Qed.

Lemma nth_error_tile (a : list A) (n j i : nat) :
  (j < n)%nat -> (i < length a)%nat ->
  nth_error (np.tile a n) (j * length a + i) = nth_error a i.
Proof.
  unfold np.tile. revert j. induction n as [|n IH]; intros j Hj Hi; [lia|].
  cbn [List.repeat concat]. destruct j as [|j].
  - cbn [Nat.mul Nat.add]. now rewrite nth_error_app1.
  - rewrite nth_error_app2 by (cbn; lia).
    replace (S j * length a + i - length a)%nat with (j * length a + i)%nat
      by (cbn; lia).
    apply IH; [lia | exact Hi].
Qed.

Lemma cols_repeat_each (k : nat) (m : matrix A) (N : nat) :
  cols m N -> cols (map (np.repeat_each k) m) (N * k).
Proof.
  unfold cols. intro H. apply Forall_map. eapply Forall_impl; [|exact H].
  cbn. intros r Hr. now rewrite repeat_each_length, Hr.
Qed.

Lemma zip_with_ok {B C : Type} (f : A -> B -> C) (a : list A) (b : list B) :
  length a = length b ->
  np.zip_with f a b = Ok (map (fun xy : A * B => f (fst xy) (snd xy)) (combine a b)).
Proof. intro H. unfold np.zip_with. now rewrite H, Nat.eqb_refl. Qed.

Lemma nth_error_combine {B : Type} (a : list A) (b : list B) (i : nat) (x : A) (y : B) :
  nth_error a i = Some x -> nth_error b i = Some y ->
  nth_error (combine a b) i = Some (x, y).
Proof.
  revert b i. induction a as [|x0 a IH]; intros b i Ha Hb.
  - now destruct i.
  - destruct b as [|y0 b]; [now destruct i|].
    destruct i as [|i]; cbn in *; [congruence|]. now apply IH.
Qed.

End ArrayLemmas.

Lemma repeat_axis1_ok {A : Type} (m : matrix A) (k : Z) :
  (0 <= k)%Z ->
  np.repeat_axis1 m k = Ok (map (np.repeat_each (Z.to_nat k)) m).
Proof.
  intro H. unfold np.repeat_axis1.
  destruct (Z.ltb_spec k 0); [lia | reflexivity].
Qed.

Lemma repeat_ok {A : Type} (a : list A) (k : Z) :
  (0 <= k)%Z -> np.repeat a k = Ok (np.repeat_each (Z.to_nat k) a).
Proof.
  intro H. unfold np.repeat.
  destruct (Z.ltb_spec k 0); [lia | reflexivity].
Qed.

Lemma linspace_ok (a b : Q) (num : Z) :
  (0 <= num)%Z ->
  np.linspace a b num =
  Ok (map (fun i => a + inject_Z (Z.of_nat i) * ((b - a) / inject_Z (num - 1)))
          (seq 0 (Z.to_nat num))).
Proof.
  intro H. unfold np.linspace.
  destruct (Z.ltb_spec num 0); [lia | reflexivity].
Qed.

Lemma inverse_pairs_full {G : Geod} (la lo : list Q) (n : nat) (c d : Q) :
  length la = n -> length lo = n ->
  inverse_pairs la lo (np.full n c) (np.full n d) =
  Ok (map (fun p : Q * Q => inverse1 (fst p) (snd p) c d) (combine la lo)).
Proof.
  revert lo n. induction la as [|a la IH]; intros lo n Hla Hlo.
  - cbn in Hla. subst n. destruct lo; [reflexivity | discriminate].
  - destruct n as [|n]; [discriminate|]. destruct lo as [|b lo]; [discriminate|].
    cbn in Hla, Hlo. injection Hla as Hla. injection Hlo as Hlo.
    cbn. unfold np.full in IH. rewrite (IH lo n Hla Hlo). reflexivity.
Qed.

(* ================================================================== *)
(** * Theorems: branching *)

Lemma linspace_fan_entry (vs : Z) (inc : Q) (i : nat) :
  (0 <= vs)%Z -> (i < Z.to_nat (vs + 1))%nat ->
  (- inject_Z vs / 2 * inc) +
  inject_Z (Z.of_nat i) *
    ((inject_Z vs / 2 * inc - (- inject_Z vs / 2 * inc)) / inject_Z (vs + 1 - 1))
  == (inject_Z (Z.of_nat i) - inject_Z vs / 2) * inc.
Proof.
  intros Hvs Hi. replace (vs + 1 - 1)%Z with vs by lia.
  destruct (Z.eq_dec vs 0) as [E | E].
  - subst vs. assert (i = 0%nat) by (cbn in Hi; lia). subst i.
    change (inject_Z (Z.of_nat 0)) with 0. change (inject_Z 0) with 0.
    rewrite Qmult_0_l. unfold Qdiv. ring.
  - assert (Hne : ~ inject_Z vs == 0).
    { intro H. apply E. unfold Qeq in H. cbn in H. lia. }
    field. exact Hne.
Qed.

(** C3.  Branching a state whose containers are all [N] columns wide
    succeeds; afterwards every per-step container and per-candidate vector is
    [N * (variant_segments + 1)] wide, every per-step container is the old
    one with each column copied [variant_segments + 1] times, and child [i]
    (counted from 0 to [variant_segments]) of candidate [j] heads for
    [center - (i - variant_segments/2) * variant_increments_deg], where
    [center] is the azimuth from the candidate's position to the temporary
    destination. *)
Theorem define_variants_fan {G : Geod} (s : IsoBased) (N : nat) :
  (0 <= variant_segments (settings s))%Z ->
  lats_per_step (per_step s) <> [] ->
  lons_per_step (per_step s) <> [] ->
  wide s N ->
  exists s',
    define_variants IsoBased_methods s = Ok s' /\
    wide s' (N * Z.to_nat (variant_segments (settings s) + 1)) /\
    replicated (Z.to_nat (variant_segments (settings s) + 1)) s s' /\
    length (current_variant (per_variant s')) =
      (N * Z.to_nat (variant_segments (settings s) + 1))%nat /\
    forall j i p,
      position s j = Some p ->
      (i < Z.to_nat (variant_segments (settings s) + 1))%nat ->
      exists h,
        nth_error (current_variant (per_variant s'))
                  (j * Z.to_nat (variant_segments (settings s) + 1) + i) = Some h /\
        h == azimuth_to_destination s p -
             (inject_Z (Z.of_nat i) - inject_Z (variant_segments (settings s)) / 2)
             * variant_increments_deg (settings s).
Proof.
  intros Hvs Hlats Hlons Hw.
  destruct s as [cnt last posc e cfg ps pv].
  destruct ps as [lats lons azis dists sp stt].
  destruct pv as [caz cv fd ft ff tm].
  destruct cfg as [vs inc half psegs].
  cbn [settings variant_segments variant_increments_deg per_step per_variant
       lats_per_step lons_per_step] in *.
  destruct lats as [|lats0 lats]; [contradiction|].
  destruct lons as [|lons0 lons]; [contradiction|].
  set (k := Z.to_nat (vs + 1)).
  destruct Hw as (Wla & Wlo & Waz & Wdi & Wst & Wrpm & Wpow & Wspd & Wfu &
                  Lfd & Lft & Lff & Ltm).
  cbn in Wla, Wlo, Waz, Wdi, Wst, Wrpm, Wpow, Wspd, Wfu, Lfd, Lft, Lff, Ltm.
  assert (L0 : length lats0 = N) by (inversion Wla; assumption).
  assert (L1 : length lons0 = N) by (inversion Wlo; assumption).
  assert (Hk : (0 <= vs + 1)%Z) by lia.
  unfold define_variants, geod_inverse, ShipParamsOps.define_variants.
  cbn [settings variant_segments variant_increments_deg per_step per_variant
       lats_per_step lons_per_step azimuth_per_step dist_per_step
       shipparams_per_step starttime_per_step full_time_traveled
       full_fuel_consumed full_dist_traveled time ends np.row0 bind
       np.shape1 hd].
  unfold np.shape1. cbn [hd].
  rewrite (inverse_pairs_full lats0 lons0 (length lats0) _ _ eq_refl)
    by congruence.
  cbn [bind azi1].
  rewrite !repeat_axis1_ok by exact Hk. cbn [bind].
  rewrite !repeat_ok by exact Hk. cbn [bind].
  cbn [IsoBased_methods self_check_variant_def check_variant_def bind].
  rewrite linspace_ok by exact Hk. cbn [bind].
  fold k.
  set (centers := map fst (map (fun p : Q * Q =>
          inverse1 (fst p) (snd p) (fst (finish_temp e)) (snd (finish_temp e)))
          (combine lats0 lons0))).
  set (delta := map (fun i : nat => - inject_Z vs / 2 * inc +
          inject_Z (Z.of_nat i) *
          ((inject_Z vs / 2 * inc - - inject_Z vs / 2 * inc) / inject_Z (vs + 1 - 1)))
          (seq 0 k)).
  assert (Lc : length centers = N).
  { unfold centers. rewrite !length_map, length_combine. lia. }
  assert (Ld : length delta = k).
  { unfold delta. now rewrite length_map, length_seq. }
  unfold np.sub. rewrite zip_with_ok.
  2:{ rewrite repeat_each_length, tile_length, Lc, Ld, L0. reflexivity. }
  cbn [bind]. eexists. split; [reflexivity|].
  split; [|split; [|split]].
  - unfold wide. cbn.
    repeat split;
      first [ exact (cols_repeat_each k (lats0 :: lats) N Wla)
            | exact (cols_repeat_each k (lons0 :: lons) N Wlo)
            | apply cols_repeat_each; assumption
            | rewrite repeat_each_length; congruence ].
  - unfold replicated. cbn. repeat split.
  - cbn. rewrite length_map, length_combine, repeat_each_length, tile_length.
    rewrite Lc, Ld, L0. lia.
  - intros j i [pla plo] Hpos Hi. fold k in Hi.
    unfold position in Hpos. cbn in Hpos.
    destruct (nth_error lats0 j) as [la|] eqn:Ela; [|discriminate].
    destruct (nth_error lons0 j) as [lo|] eqn:Elo; [|discriminate].
    injection Hpos as <- <-.
    cbn [per_variant with_per_variant with_current_variant current_variant].
    assert (Hc : nth_error (np.repeat_each k centers) (j * k + i) =
                 Some (fst (inverse1 la lo (fst (finish_temp e)) (snd (finish_temp e))))).
    { rewrite nth_error_repeat_each by exact Hi. unfold centers.
      rewrite !nth_error_map.
      rewrite (nth_error_combine _ _ _ _ _ Ela Elo). reflexivity. }
    assert (Hd : nth_error (np.tile delta (length lats0)) (j * k + i) =
                 nth_error delta i).
    { rewrite <- Ld. apply nth_error_tile; [|lia].
      apply nth_error_Some. congruence. }
    assert (Hdi : nth_error delta i = Some (- inject_Z vs / 2 * inc +
          inject_Z (Z.of_nat i) *
          ((inject_Z vs / 2 * inc - - inject_Z vs / 2 * inc) / inject_Z (vs + 1 - 1)))).
    { unfold delta. rewrite nth_error_map, nth_error_seq.
      destruct (Nat.ltb_spec i k); [reflexivity | lia]. }
    rewrite Hdi in Hd.
    eexists. split.
    + rewrite nth_error_map. rewrite (nth_error_combine _ _ _ _ _ Hc Hd).
      reflexivity.
    + cbn [fst snd]. unfold azimuth_to_destination. cbn [ends fst snd].
      rewrite (linspace_fan_entry vs inc i Hvs Hi). reflexivity.
Qed.

(* ================================================================== *)
(** * Theorems: committing a step *)

Lemma inverse_pairs_from {G : Geod} (la lo : list Q) (n : nat) (a b : Q) :
  length la = n -> length lo = n ->
  inverse_pairs (np.full n a) (np.full n b) la lo =
  Ok (map (fun p : Q * Q => inverse1 a b (fst p) (snd p)) (combine la lo)).
Proof.
  revert lo n. induction la as [|x la IH]; intros lo n Hla Hlo.
  - cbn in Hla. subst n. destruct lo; [reflexivity | discriminate].
  - destruct n as [|n]; [discriminate|]. destruct lo as [|y lo]; [discriminate|].
    cbn in Hla, Hlo. injection Hla as Hla. injection Hlo as Hlo.
    cbn. unfold np.full in IH. rewrite (IH lo n Hla Hlo). reflexivity.
Qed.

Lemma shape1_has_shape {A : Type} (m : matrix A) (M N : nat) :
  has_shape m (M + 1) N -> np.shape1 m = N.
Proof.
  intros [Hl Hc]. destruct m as [|r m]; [cbn in Hl; lia|].
  inversion Hc; assumption.
Qed.

Lemma vstack_ok {A : Type} (row : list A) (m : matrix A) (M N : nat) :
  has_shape m (M + 1) N -> length row = N ->
  np.vstack row m = Ok (row :: m).
Proof.
  intros Hm Hr. unfold np.vstack.
  rewrite (shape1_has_shape m M N Hm), Hr, Nat.eqb_refl. reflexivity.
Qed.

(** C5.  Committing a step succeeds on a well-shaped state; the new row is
    put in front of the four position containers; the progress metric of
    candidate [j] is 0 if the constraint gate flagged it and otherwise the
    inverse-geodesic distance from the origin of the route segment to the
    candidate's new position, whatever the metric was before; and no column
    is removed: every container and vector keeps its [N] columns. *)
Theorem update_position_progress {G : Geod} (s : IsoBased) (move : Move)
  (is_constrained : list bool) (dist : list Q) (N : nat) :
  shape_ok s N ->
  length (lat2 move) = N -> length (lon2 move) = N -> length dist = N ->
  length (current_variant (per_variant s)) = N ->
  length is_constrained = N ->
  exists s',
    update_position move is_constrained dist s = Ok s' /\
    lats_per_step (per_step s') = lat2 move :: lats_per_step (per_step s) /\
    lons_per_step (per_step s') = lon2 move :: lons_per_step (per_step s) /\
    dist_per_step (per_step s') = dist :: dist_per_step (per_step s) /\
    azimuth_per_step (per_step s') =
      map Some (current_variant (per_variant s)) :: azimuth_per_step (per_step s) /\
    length (full_dist_traveled (per_variant s')) = N /\
    length (current_variant (per_variant s')) = N /\
    full_time_traveled (per_variant s') = full_time_traveled (per_variant s) /\
    full_fuel_consumed (per_variant s') = full_fuel_consumed (per_variant s) /\
    time (per_variant s') = time (per_variant s) /\
    forall j la lo blocked,
      nth_error (lat2 move) j = Some la ->
      nth_error (lon2 move) j = Some lo ->
      nth_error is_constrained j = Some blocked ->
      nth_error (full_dist_traveled (per_variant s')) j =
        Some (if blocked then 0 else distance_from_start s (la, lo)).
Proof.
  intros (Sla & Slo & Saz & Sdi) Llat Llon Ldist Lcv Lmask.
  unfold update_position, geod_inverse.
  rewrite (vstack_ok _ _ _ _ Sla Llat). cbn [bind].
  rewrite (vstack_ok _ _ _ _ Slo Llon). cbn [bind].
  rewrite (vstack_ok _ _ _ _ Sdi Ldist). cbn [bind].
  rewrite (vstack_ok _ _ _ _ Saz) by (rewrite length_map; exact Lcv).
  cbn [bind]. unfold np.shape1. cbn [hd].
  rewrite Llat, Llon.
  rewrite (inverse_pairs_from (lat2 move) (lon2 move) N _ _ Llat Llon).
  cbn [bind s12 azi1].
  set (pairs := map (fun p : Q * Q =>
         inverse1 (fst (start_temp (ends s))) (snd (start_temp (ends s)))
                  (fst p) (snd p)) (combine (lat2 move) (lon2 move))).
  assert (Lp : length pairs = N).
  { unfold pairs. rewrite length_map, length_combine. lia. }
  unfold np.mask_assign.
  rewrite length_map, Lp, Lmask, Nat.eqb_refl. cbn [bind].
  eexists. split; [reflexivity|].
  cbn [per_step per_variant with_per_step with_per_variant lats_per_step
       lons_per_step dist_per_step azimuth_per_step full_dist_traveled
       current_variant full_time_traveled full_fuel_consumed time].
  repeat split.
  - rewrite length_map, length_combine, length_map, Lp, Lmask. lia.
  - now rewrite length_map.
  - intros j la lo blocked Hla Hlo Hb.
    rewrite nth_error_map.
    assert (Hp : nth_error (map snd pairs) j = Some (distance_from_start s (la, lo))).
    { unfold pairs. rewrite !nth_error_map.
      rewrite (nth_error_combine _ _ _ _ _ Hla Hlo). reflexivity. }
    rewrite (nth_error_combine _ _ _ _ _ Hp Hb). reflexivity.
Qed.

(* ================================================================== *)
(** * Theorems: reaching the destination *)

Lemma direct_triples_ok {G : Geod} (la lo az ds : list Q) (n : nat) :
  length la = n -> length lo = n -> length az = n -> length ds = n ->
  direct_triples la lo az ds =
  Ok (map (fun q : Q * Q * Q * Q =>
             direct1 (fst (fst (fst q))) (snd (fst (fst q))) (snd (fst q)) (snd q))
          (combine (combine (combine la lo) az) ds)).
Proof.
  revert lo az ds n.
  induction la as [|a la IH]; intros lo az ds n Hla Hlo Haz Hds.
  - cbn in Hla. subst n.
    destruct lo, az, ds; try discriminate. reflexivity.
  - destruct n as [|n]; [discriminate|].
    destruct lo as [|b lo], az as [|c az], ds as [|d ds]; try discriminate.
    cbn in Hla, Hlo, Haz, Hds.
    cbn. rewrite (IH lo az ds n); try congruence. reflexivity.
Qed.

Lemma existsb_lt_iff (a b : list Q) :
  existsb (fun x : bool => x)
          (map (fun xy : Q * Q => Qlt_bool (fst xy) (snd xy)) (combine a b)) = true
  <-> exists j x y, nth_error a j = Some x /\ nth_error b j = Some y /\ x < y.
Proof.
  revert b. induction a as [|x a IH]; intro b.
  - cbn. split; [discriminate|]. intros (j & x & y & H & _). now destruct j.
  - destruct b as [|y b].
    + cbn. split; [discriminate|]. intros (j & x' & y' & _ & H & _). now destruct j.
    + cbn [combine map existsb fst snd]. rewrite orb_true_iff, IH, Qlt_bool_iff.
      split.
      * intros [H | (j & x' & y' & Ha & Hb & Hlt)].
        -- exists 0%nat, x, y. auto.
        -- exists (S j), x', y'. auto.
      * intros ([|j] & x' & y' & Ha & Hb & Hlt); cbn in Ha, Hb.
        -- left. congruence.
        -- right. exists j, x', y'. auto.
Qed.

Lemma position_cons (s : IsoBased) (lats0 lons0 : list Q) (lats lons : matrix Q)
  (j : nat) (p : Q * Q) :
  lats_per_step (per_step s) = lats0 :: lats ->
  lons_per_step (per_step s) = lons0 :: lons ->
  (position s j = Some p <->
   nth_error lats0 j = Some (fst p) /\ nth_error lons0 j = Some (snd p)).
Proof.
  intros E1 E2. unfold position. rewrite E1, E2.
  destruct (nth_error lats0 j), (nth_error lons0 j), p; cbn;
    split; try discriminate; try (intros [? ?]; discriminate).
  - intro H. injection H as <- <-. auto.
  - intros [H1 H2]. congruence.
Qed.

(** C2, as the code has it.  On a well-shaped state [check_bearing]
    succeeds.  If some candidate is nearer to the temporary destination than
    its step, then every candidate is put on the destination with the azimuth
    of the inverse geodesic from its own position, and exactly one flag is
    raised: [is_last_step] when the temporary destination is the final one,
    [is_pos_constraint_step] otherwise.  If no candidate is that near, the
    state is unchanged and every candidate travels its step distance along
    its current heading. *)
Theorem check_bearing_all_or_none {G : Geod} (s : IsoBased) (dist : list Q)
  (N : nat) :
  shape_ok s N -> length dist = N ->
  length (current_variant (per_variant s)) = N ->
  exists s' move,
    check_bearing dist s = Ok (s', move) /\
    (some_candidate_reaches s dist ->
       (forall j p, position s j = Some p -> lands_on_destination s move j p) /\
       per_step s' = per_step s /\ per_variant s' = per_variant s /\
       (at_final_destination s ->
          is_last_step s' = true /\
          is_pos_constraint_step s' = is_pos_constraint_step s) /\
       (~ at_final_destination s ->
          is_pos_constraint_step s' = true /\
          is_last_step s' = is_last_step s)) /\
    (~ some_candidate_reaches s dist ->
       s' = s /\
       forall j p d h,
         position s j = Some p -> nth_error dist j = Some d ->
         nth_error (current_variant (per_variant s)) j = Some h ->
         travels_step move j p h d).
Proof.
  intros (Sla & Slo & _ & _) Ldist Lcv.
  destruct (lats_per_step (per_step s)) as [|lats0 lats] eqn:Elats.
  { destruct Sla as [H _]. cbn in H. lia. }
  destruct (lons_per_step (per_step s)) as [|lons0 lons] eqn:Elons.
  { destruct Slo as [H _]. cbn in H. lia. }
  assert (L0 : length lats0 = N) by (destruct Sla as [_ H]; inversion H; assumption).
  assert (L1 : length lons0 = N) by (destruct Slo as [_ H]; inversion H; assumption).
  pose proof (position_cons s lats0 lons0 lats lons) as Hpos.
  unfold check_bearing, get_current_lons, get_current_lats, geod_inverse,
    np.any_lt, geod_direct.
  rewrite Elats, Elons. cbn [np.row0 bind].
  rewrite (inverse_pairs_full lats0 lons0 (length lons0)) by congruence.
  cbn [bind s12 azi1].
  set (pairs := map (fun p : Q * Q =>
         inverse1 (fst p) (snd p) (fst (finish_temp (ends s)))
                  (snd (finish_temp (ends s)))) (combine lats0 lons0)).
  assert (Lp : length pairs = N).
  { unfold pairs. rewrite length_map, length_combine. lia. }
  assert (Hpair : forall j p, position s j = Some p ->
            nth_error pairs j =
            Some (azimuth_to_destination s p, distance_to_destination s p)).
  { intros j p Hp. apply (Hpos j p Elats Elons) in Hp. destruct Hp as [Ha Hb].
    unfold pairs. rewrite nth_error_map, (nth_error_combine _ _ _ _ _ Ha Hb).
    cbn. unfold azimuth_to_destination, distance_to_destination.
    now destruct (inverse1 _ _ _ _). }
  assert (Hreach : existsb (fun x : bool => x)
            (map (fun xy : Q * Q => Qlt_bool (fst xy) (snd xy))
                 (combine (map snd pairs) dist)) = true
          <-> some_candidate_reaches s dist).
  { rewrite existsb_lt_iff. unfold some_candidate_reaches. split.
    - intros (j & x & d & Hx & Hd & Hlt).
      assert (Hj : (j < N)%nat).
      { rewrite <- Ldist. apply nth_error_Some. congruence. }
      destruct (nth_error lats0 j) as [la|] eqn:Ela.
      2:{ apply nth_error_None in Ela. lia. }
      destruct (nth_error lons0 j) as [lo|] eqn:Elo.
      2:{ apply nth_error_None in Elo. lia. }
      assert (Hp : position s j = Some (la, lo)).
      { apply (Hpos j (la, lo) Elats Elons). auto. }
      exists j, (la, lo), d. repeat split; auto.
      rewrite nth_error_map, (Hpair _ _ Hp) in Hx. cbn in Hx.
      injection Hx as <-. exact Hlt.
    - intros (j & p & d & Hp & Hd & Hlt).
      exists j, (distance_to_destination s p), d. repeat split; auto.
      rewrite nth_error_map, (Hpair _ _ Hp). reflexivity. }
  rewrite zip_with_ok by (rewrite length_map; congruence).
  cbn [bind].
  destruct (existsb _ _) eqn:Eany.
  - eexists _, _. split; [reflexivity|]. split.
    2:{ intro Hn. exfalso. apply Hn, Hreach. reflexivity. }
    intros _. split; [|split; [|split; [|split]]].
    + intros j p Hp. unfold lands_on_destination, move_at. cbn [lat2 lon2 azi2].
      assert (Hj : (j < length lons0)%nat).
      { apply (Hpos j p Elats Elons) in Hp. destruct Hp as [_ Hb].
        apply nth_error_Some. congruence. }
      unfold np.full. rewrite !nth_error_repeat by exact Hj.
      rewrite nth_error_map, (Hpair _ _ Hp). reflexivity.
    + now destruct (_ && _).
    + now destruct (_ && _).
    + intros [H1 H2]. apply Qeq_bool_iff in H1, H2. rewrite H1, H2. cbn. auto.
    + intros Hnf.
      destruct (Qeq_bool (fst (finish_temp (ends s))) (fst (finish (ends s)))) eqn:E1,
               (Qeq_bool (snd (finish_temp (ends s))) (snd (finish (ends s)))) eqn:E2;
        cbn; auto.
      exfalso. apply Hnf. split; now apply Qeq_bool_iff.
  - rewrite (direct_triples_ok lats0 lons0 _ dist N) by assumption.
    cbn [bind]. eexists _, _. split; [reflexivity|]. split.
    { intro Hr. apply Hreach in Hr. discriminate. }
    intros _. split; [reflexivity|].
    intros j p d h Hp Hd Hh. apply (Hpos j p Elats Elons) in Hp.
    destruct Hp as [Ha Hb].
    unfold travels_step, move_at. cbn [lat2 lon2 azi2].
    rewrite !nth_error_map.
    rewrite (nth_error_combine _ _ _ _ _
               (nth_error_combine _ _ _ _ _
                  (nth_error_combine _ _ _ _ _ Ha Hb) Hh) Hd).
    cbn. now destruct (direct1 _ _ _ _) as [[? ?] ?].
Qed.

(** C2, as stated, fails.  Two candidates at longitudes 0 and 9 step by 5
    towards longitude 10: only the second is nearer than its step, yet the
    first one is put on the destination as well instead of travelling 5. *)
Lemma check_bearing_per_candidate_counterexample :
  ~ decides_per_candidate (G := example_geod) example_two [5; 5].
Proof.
  intro H.
  destruct (check_bearing (G := example_geod) [5; 5] example_two)
    as [[s' move]|e] eqn:E; [|vm_compute in E; discriminate].
  specialize (H s' move E 0%nat (0, 0) 5 90 eq_refl eq_refl eq_refl).
  destruct H as [_ Ht].
  vm_compute in E. injection E as <- <-.
  assert (Hn : ~ distance_to_destination (G := example_geod) example_two (0, 0) < 5).
  { vm_compute. discriminate. }
  specialize (Ht Hn). vm_compute in Ht. discriminate.
Qed.

Lemma example_two_shape : shape_ok example_two 2.
Proof. unfold shape_ok, has_shape, cols. cbn. repeat split; repeat constructor. Qed.

Lemma check_bearing_all_or_none_witness :
  shape_ok example_two 2 /\
  exists s' move,
    check_bearing (G := example_geod) [5; 5] example_two = Ok (s', move) /\
    is_last_step s' = true /\
    lat2 move = [0; 0] /\ lon2 move = [10; 10].
Proof.
  split; [exact example_two_shape|].
  destruct (@check_bearing_all_or_none example_geod example_two [5; 5] 2
              example_two_shape eq_refl eq_refl) as (s' & move & E & _).
  exists s', move. split; [exact E|].
  vm_compute in E. injection E as <- <-. repeat split.
Defined.

Lemma example_departure_wide : wide example_departure 1.
Proof. unfold wide, cols. cbn. repeat split; repeat constructor. Qed.

Lemma define_variants_fan_witness :
  wide example_departure 1 /\
  exists s',
    define_variants (G := example_geod) IsoBased_methods example_departure = Ok s' /\
    wide s' 5 /\
    Forall2 Qeq (current_variant (per_variant s')) [100; 95; 90; 85; 80].
Proof.
  split; [exact example_departure_wide|].
  destruct (@define_variants_fan example_geod example_departure 1)
    as (s' & E & W & _).
  - cbn. lia.
  - discriminate.
  - discriminate.
  - exact example_departure_wide.
  - exists s'. split; [exact E|]. split; [exact W|].
    vm_compute in E. injection E as <-. cbn.
    repeat constructor.
Defined.

(* ================================================================== *)
(** * Theorems: the wind of a step *)

(** C4, as stated, fails.  With two candidates whose clocks read 0 and 3600
    seconds, the wind used for the second candidate is the wind of time 0,
    not the wind of its own time. *)
Lemma wind_at_own_time_counterexample :
  ~ wind_at_own_time (W := example_weather) example_two.
Proof.
  intro H.
  destruct (H _ [0; 0] [0; 9] eq_refl eq_refl eq_refl 1%nat 3600 eq_refl)
    as [Htwa _].
  vm_compute in Htwa. discriminate.
Qed.

(** C4, as the code has it.  On a well-shaped state with at least one
    candidate, the wind model is asked once: for the current positions of all
    candidates (row 0 of the position containers) and for the current time of
    the first candidate, [time[0]].  The wind handed to the ship model keeps
    the wind speed and has, for every candidate, the queried true wind angle
    minus the entry [self.get_current_azimuth()] returns for it. *)
Theorem relative_wind_first_time {W : WeatherCond} (cls : Methods)
  (s : IsoBased) (N : nat) (azimuth : list Q) :
  shape_ok s N ->
  time (per_variant s) <> [] ->
  self_get_current_azimuth cls s = Some azimuth ->
  exists lats lons t0 rest,
    get_current_lats s = Ok lats /\ get_current_lons s = Ok lons /\
    (forall j p, position s j = Some p <->
       nth_error lats j = Some (fst p) /\ nth_error lons j = Some (snd p)) /\
    time (per_variant s) = t0 :: rest /\
    get_wind_functions s = Ok (get_wind_function (lats, lons) t0) /\
    (length (twa (get_wind_function (lats, lons) t0)) = length azimuth ->
     exists wind,
       relative_wind cls s = Ok wind /\
       tws wind = tws (get_wind_function (lats, lons) t0) /\
       forall j a h,
         nth_error (twa (get_wind_function (lats, lons) t0)) j = Some a ->
         nth_error azimuth j = Some h ->
         nth_error (twa wind) j = Some (a - h)).
Proof.
  intros (Sla & Slo & _ & _) Htime Hazi.
  destruct (lats_per_step (per_step s)) as [|lats0 lats] eqn:Elats.
  { destruct Sla as [H _]. cbn in H. lia. }
  destruct (lons_per_step (per_step s)) as [|lons0 lons] eqn:Elons.
  { destruct Slo as [H _]. cbn in H. lia. }
  destruct (time (per_variant s)) as [|t0 rest] eqn:Etime; [contradiction|].
  exists lats0, lons0, t0, rest.
  assert (Ew : get_wind_functions s = Ok (get_wind_function (lats0, lons0) t0)).
  { unfold get_wind_functions, get_current_lats, get_current_lons.
    rewrite Elats, Elons, Etime. reflexivity. }
  unfold get_current_lats, get_current_lons. rewrite Elats, Elons.
  split; [reflexivity|]. split; [reflexivity|].
  split; [intros j p; exact (position_cons s lats0 lons0 lats lons j p Elats Elons)|].
  split; [reflexivity|]. split; [exact Ew|].
  intro Hlen. unfold relative_wind. rewrite Ew, Hazi. cbn [bind].
    unfold np.sub. rewrite zip_with_ok by exact Hlen. cbn [bind].
    eexists. split; [reflexivity|]. split; [reflexivity|].
    intros j a h Ha Hh. cbn [twa].
    rewrite nth_error_map, (nth_error_combine _ _ _ _ _ Ha Hh). reflexivity.
Qed.

Lemma relative_wind_first_time_witness :
  shape_ok example_two 2 /\
  exists wind,
    relative_wind (W := example_weather) example_subclass example_two = Ok wind /\
    Forall2 Qeq (twa wind) [-(90); -(90)].
Proof.
  split; [exact example_two_shape|].
  destruct (@relative_wind_first_time example_weather example_subclass
              example_two 2 [90; 90] example_two_shape)
    as (lats & lons & t0 & rest & Ela & Elo & _ & Et & _ & Hrel).
  - discriminate.
  - reflexivity.
  - vm_compute in Ela, Elo, Et.
    injection Ela as <-. injection Elo as <-. injection Et as <- <-.
    destruct (Hrel eq_refl) as (wind & E & _).
    exists wind. split; [exact E|].
    vm_compute in E. injection E as <-. cbn. repeat constructor.
Defined.

(** With the bindings of class [IsoBased] itself the subtraction of line
    174 has [None] on its right and the step stops with a [TypeError]. *)
Lemma relative_wind_IsoBased {W : WeatherCond} (s : IsoBased) (winds : Wind) :
  get_wind_functions s = Ok winds ->
  exists msg, relative_wind IsoBased_methods s = Raise (TypeError msg).
Proof.
  intro E. unfold relative_wind. rewrite E. cbn. eexists. reflexivity.
Qed.

(* ================================================================== *)
(** * Lemmas on indexing *)

Section TakeLemmas.
Context {A : Type}.

Lemma take_ok (a : list A) (idxs : list nat) :
  (forall i, In i idxs -> (i < length a)%nat) ->
  exists r, np.take a idxs = Ok r /\ length r = length idxs.
Proof.
  induction idxs as [|i idxs IH]; intro H.
  - exists []. split; reflexivity.
  - destruct IH as (r & Er & Lr); [intros; apply H; now right|].
    destruct (nth_error a i) as [x|] eqn:Ex.
    + exists (x :: r). cbn. rewrite Ex, Er. cbn. split; [reflexivity | now rewrite Lr].
    + apply nth_error_None in Ex. specialize (H i (or_introl eq_refl)). lia.
Qed.

Lemma take_nth (a : list A) (idxs : list nat) (r : list A) :
  np.take a idxs = Ok r ->
  forall k i, nth_error idxs k = Some i -> nth_error r k = nth_error a i.
Proof.
  revert r. induction idxs as [|i0 idxs IH]; intros r E k i Hk.
  - now destruct k.
  - cbn in E. destruct (nth_error a i0) as [x|] eqn:Ex; [|discriminate].
    destruct (np.take a idxs) as [r0|e] eqn:Er; [|discriminate].
    cbn in E. injection E as <-.
    destruct k as [|k]; cbn in Hk |- *.
    + injection Hk as <-. now rewrite Ex.
    + now apply IH.
Qed.

Lemma take_cols_ok (m : matrix A) (idxs : list nat) (N : nat) :
  cols m N -> (forall i, In i idxs -> (i < N)%nat) ->
  exists m', np.take_cols m idxs = Ok m' /\ length m' = length m /\
             cols m' (length idxs).
Proof.
  intros Hc Hi. induction Hc as [|r m Hr Hc IH].
  - exists []. repeat split. constructor.
  - destruct IH as (m' & Em & Lm & Cm).
    destruct (take_ok r idxs) as (r' & Er & Lr).
    { intros i Hin. rewrite Hr. now apply Hi. }
    exists (r' :: m'). cbn. rewrite Er, Em. cbn.
    repeat split; [now rewrite Lm | now constructor].
Qed.

End TakeLemmas.

Lemma where_from_bound {A : Type} (p : A -> bool) (a : list A) (i j : nat) :
  In j (np.where_from p i a) -> (i <= j < i + length a)%nat.
Proof.
  revert i. induction a as [|x a IH]; intros i H; [contradiction|].
  cbn in H. destruct (p x).
  - destruct H as [<- | H]; [cbn; lia|]. apply IH in H. cbn. lia.
  - apply IH in H. cbn. lia.
Qed.

Lemma where_bound {A : Type} (p : A -> bool) (a : list A) (j : nat) :
  In j (np.where_ p a) -> (j < length a)%nat.
Proof. intro H. apply where_from_bound in H. lia. Qed.

Lemma trim_index_bound (full_dist : list Q) (bin_stat : list (option Q))
  (i j : nat) :
  In j (trim_index full_dist bin_stat i) -> (j < length full_dist)%nat.
Proof.
  unfold trim_index.
  destruct (nth_error bin_stat i) as [[m|]|]; try contradiction.
  destruct (Qeq_bool m 0); [contradiction|].
  destruct (np.where_ _ full_dist) as [|j0 rest] eqn:E; [contradiction|].
  intros [<- | []]. apply (where_bound (fun d => Qeq_bool d m)).
  rewrite E. now left.
Qed.

Lemma trim_index_length (full_dist : list Q) (bin_stat : list (option Q))
  (i : nat) :
  (length (trim_index full_dist bin_stat i) <= 1)%nat.
Proof.
  unfold trim_index.
  destruct (nth_error bin_stat i) as [[m|]|]; cbn; try lia.
  destruct (Qeq_bool m 0); cbn; [lia|].
  destruct (np.where_ _ full_dist); cbn; lia.
Qed.

Lemma flat_map_length_le {A B : Type} (f : A -> list B) (l : list A) :
  (forall x, length (f x) <= 1)%nat ->
  (length (flat_map f l) <= length l)%nat.
Proof.
  intro H. induction l as [|x l IH]; [cbn; lia|].
  cbn. rewrite length_app. specialize (H x). lia.
Qed.

Lemma notrim_indices_ok (full_dist : list Q) (bin_stat : list (option Q))
  (bins : list nat) :
  (forall i, In i bins -> (i < length bin_stat)%nat) ->
  exists idxs, notrim_indices full_dist bin_stat bins = Ok idxs /\
               forall j, In j idxs -> (j < length full_dist)%nat.
Proof.
  induction bins as [|i bins IH]; intro H.
  - exists []. split; [reflexivity | contradiction].
  - destruct IH as (more & Em & Hm); [intros; apply H; now right|].
    destruct (nth_error bin_stat i) as [st|] eqn:Est.
    + eexists. cbn. rewrite Est, Em. cbn. split; [reflexivity|].
      intros j Hj. apply in_app_or in Hj. destruct Hj as [Hj | Hj]; [|now apply Hm].
      destruct st as [m|]; [|contradiction].
      now apply where_bound in Hj.
    + apply nth_error_None in Est. specialize (H i (or_introl eq_refl)). lia.
Qed.

Lemma NoDup_bounded_length (l : list nat) (N : nat) :
  NoDup l -> (forall i, In i l -> (i < N)%nat) -> (length l <= N)%nat.
Proof.
  intros Hnd Hb.
  pose proof (@NoDup_incl_length nat l (seq 0%nat N) Hnd) as H.
  rewrite length_seq in H. apply H.
  intros i Hi. apply in_seq. specialize (Hb i Hi). lia.
Qed.

(* ================================================================== *)
(** * Theorems: pruning *)

Lemma select_columns_ok (idxs : list nat) (s : IsoBased) (N : nat) :
  wide s N -> length (current_variant (per_variant s)) = N ->
  (forall i, In i idxs -> (i < N)%nat) ->
  exists s',
    select_columns idxs s = Ok s' /\ reindexed idxs s s' /\
    wide s' (length idxs) /\
    length (current_variant (per_variant s')) = length idxs /\
    count s' = count s /\ settings s' = settings s /\ ends s' = ends s.
Proof.
  intros (Wla & Wlo & Waz & Wdi & Wst & Wrpm & Wpow & Wspd & Wfu &
          Lfd & Lft & Lff & Ltm) Lcv Hi.
  destruct (take_cols_ok _ idxs N Wla Hi) as (la & Ela & _ & Cla).
  destruct (take_cols_ok _ idxs N Wlo Hi) as (lo & Elo & _ & Clo).
  destruct (take_cols_ok _ idxs N Waz Hi) as (az & Eaz & _ & Caz).
  destruct (take_cols_ok _ idxs N Wdi Hi) as (di & Edi & _ & Cdi).
  destruct (take_cols_ok _ idxs N Wst Hi) as (st & Est & _ & Cst).
  destruct (take_cols_ok _ idxs N Wrpm Hi) as (rpm & Erpm & _ & Crpm).
  destruct (take_cols_ok _ idxs N Wpow Hi) as (pow & Epow & _ & Cpow).
  destruct (take_cols_ok _ idxs N Wspd Hi) as (spd & Espd & _ & Cspd).
  destruct (take_cols_ok _ idxs N Wfu Hi) as (fu & Efu & _ & Cfu).
  destruct (take_ok (current_variant (per_variant s)) idxs) as (cv & Ecv & Lcv').
  { now rewrite Lcv. }
  destruct (take_ok (full_dist_traveled (per_variant s)) idxs) as (fd & Efd & Lfd').
  { now rewrite Lfd. }
  destruct (take_ok (full_time_traveled (per_variant s)) idxs) as (ft & Eft & Lft').
  { now rewrite Lft. }
  destruct (take_ok (full_fuel_consumed (per_variant s)) idxs) as (ff & Eff & Lff').
  { now rewrite Lff. }
  destruct (take_ok (time (per_variant s)) idxs) as (tm & Etm & Ltm').
  { now rewrite Ltm. }
  unfold select_columns, ShipParamsOps.select.
  rewrite Ela, Elo, Eaz, Edi, Erpm, Epow, Espd, Efu, Est, Ecv, Efd, Eft, Eff, Etm.
  cbn [bind]. eexists. split; [reflexivity|].
  split; [|split; [|split]].
  - unfold reindexed. cbn. repeat split; assumption.
  - unfold wide. cbn. repeat split; assumption.
  - exact Lcv'.
  - cbn. auto.
Qed.

(** What a call of [binned_statistic] that returns has checked and
    computed. *)
Lemma binned_statistic_inv (x values bins : list Q)
  (b : scipy_stats.BinnedStatisticResult) :
  scipy_stats.binned_statistic x values bins = Ok b ->
  length x = length values /\
  scipy_stats.bin_edges_of x bins = Ok (scipy_stats.bin_edges b) /\
  (2 <= length (scipy_stats.bin_edges b))%nat /\
  scipy_stats.strictly_increasing (scipy_stats.bin_edges b) = true /\
  scipy_stats.statistic b =
    map (fun i => np.nanmax (scipy_stats.bin_values x values
                               (scipy_stats.bin_edges b) i))
        (seq 0 (length (scipy_stats.bin_edges b) - 1)).
Proof.
  unfold scipy_stats.binned_statistic.
  destruct (Nat.eqb_spec (length x) (length values)) as [Hl|]; [|discriminate].
  cbn [negb].
  destruct (scipy_stats.bin_edges_of x bins) as [edges|e]; [|discriminate].
  cbn [bind]. destruct (Nat.leb_spec 2 (length edges)); [|discriminate].
  cbn [andb].
  destruct (scipy_stats.strictly_increasing edges) eqn:Es; [|discriminate].
  intro E. injection E as <-. cbn. auto.
Qed.

(** A [bins] of any length but one is the sequence of the edges. *)
Lemma bin_edges_explicit (x bins edges : list Q) :
  scipy_stats.bin_edges_of x bins = Ok edges -> length bins <> 1%nat ->
  edges = bins.
Proof.
  unfold scipy_stats.bin_edges_of. destruct x as [|x0 xs]; [discriminate|].
  destruct bins as [|v [|w rest]]; intros E H.
  - now injection E.
  - now contradiction H.
  - now injection E.
Qed.

(** With a sample at least and two or more strictly increasing edges the
    call returns, and the edges of the result are the given ones. *)
Lemma binned_statistic_ok (x values edges : list Q) :
  length x = length values -> x <> [] ->
  (2 <= length edges)%nat -> scipy_stats.strictly_increasing edges = true ->
  exists b, scipy_stats.binned_statistic x values edges = Ok b /\
            scipy_stats.bin_edges b = edges.
Proof.
  intros Hl Hx He Hs. unfold scipy_stats.binned_statistic.
  rewrite Hl, Nat.eqb_refl. cbn [negb].
  assert (Eb : scipy_stats.bin_edges_of x edges = Ok edges).
  { unfold scipy_stats.bin_edges_of. destruct x; [contradiction|].
    destruct edges as [|v [|w rest]]; [reflexivity | cbn in He; lia | reflexivity]. }
  rewrite Eb. cbn [bind].
  destruct (Nat.leb_spec 2 (length edges)); [|lia].
  rewrite Hs. cbn [andb]. eexists. split; reflexivity.
Qed.

Lemma insert_sorted_length (x : Q) (a : list Q) :
  length (np.insert_sorted x a) = S (length a).
Proof.
  induction a as [|y a IH]; [reflexivity|].
  cbn. destruct (Qle_bool x y); cbn; [reflexivity | now rewrite IH].
Qed.

Lemma sort_length (a : list Q) : length (np.sort a) = length a.
Proof.
  unfold np.sort. induction a as [|x a IH]; [reflexivity|].
  cbn [fold_right length]. now rewrite insert_sorted_length, IH.
Qed.

(** [pruning_gcr_centered] hands [prune_segments + 1] bin edges to
    [pruning]. *)
Lemma gcr_centered_bins_length {G : Geod} (s : IsoBased) :
  (0 <= prune_segments (settings s))%Z ->
  full_dist_traveled (per_variant s) <> [] ->
  exists bins,
    gcr_centered_bins s = Ok bins /\
    Z.of_nat (length bins) = (prune_segments (settings s) + 1)%Z.
Proof.
  intros Hps Hne. unfold gcr_centered_bins.
  destruct (full_dist_traveled (per_variant s)) as [|d0 ds] eqn:Efd; [contradiction|].
  cbn [np.mean bind]. unfold geod_direct, geod_inverse.
  cbn [direct_triples bind map lat2 lon2 inverse_pairs azi1].
  rewrite repeat_ok by lia. cbn [bind].
  rewrite linspace_ok by lia. cbn [bind].
  unfold np.sub. rewrite zip_with_ok.
  2:{ rewrite repeat_each_length, length_map, length_seq. cbn. lia. }
  cbn [bind]. eexists. split; [reflexivity|].
  rewrite sort_length, length_map, length_combine, repeat_each_length,
    length_map, length_seq.
  cbn [length]. lia.
Qed.

(** C7, as stated, fails.  Without [trim], three candidates of equal
    progress all survive a pass with two pruning segments. *)
Lemma pass_within_segments_counterexample :
  ~ pass_within_segments (G := example_geod) (P := example_set) false
      example_three.
Proof.
  intro H.
  destruct (pruning_gcr_centered (G := example_geod) (P := example_set) false
              example_three) as [[s' log]|e] eqn:E;
    [|vm_compute in E; discriminate].
  specialize (H s' log E).
  vm_compute in E. injection E as <- <-.
  vm_compute in H. apply H. reflexivity.
Qed.

Lemma example_three_wide : wide example_three 3.
Proof. unfold wide, cols. cbn. repeat split; repeat constructor. Qed.

Lemma list_of_set_singleton {P : PySet} (l : list nat) (x : nat) :
  l <> [] -> (forall y, In y l -> y = x) -> list_of_set l = [x].
Proof.
  intros Hne Hall.
  pose proof (list_of_set_NoDup l) as Hnd.
  pose proof (list_of_set_In l) as Hin.
  destruct l as [|y0 l0] eqn:El; [contradiction|].
  assert (Hy0 : In y0 (list_of_set (y0 :: l0))) by (apply Hin; now left).
  assert (Hx : forall y, In y (list_of_set (y0 :: l0)) -> y = x).
  { intros y Hy. apply Hall. now apply Hin. }
  destruct (list_of_set (y0 :: l0)) as [|a [|b r]]; [contradiction| |].
  - rewrite (Hx a); [reflexivity | now left].
  - exfalso. inversion Hnd as [|? ? Hnot _]. apply Hnot.
    rewrite (Hx a), (Hx b); [now left | right; now left | now left].
Qed.

(** C1 on a tie.  The edges 0, 10, 20 make two bins.  Candidate 1 (heading
    5) is the only candidate of the first bin and has the largest progress
    there; candidate 0 (heading 15) is in the second bin with the same
    progress 7.  The index looked up for the first bin is 0, the first
    column whose progress equals the largest of the bin, and after the pass
    only candidate 0 is left: the best candidate of the first bin is
    dropped, and what is kept for that bin does not head into it. *)
Theorem pruning_tie_keeps_other_bin {P : PySet} :
  scipy_stats.in_bin [0; 10; 20] 0 5 = true /\
  scipy_stats.in_bin [0; 10; 20] 0 15 = false /\
  scipy_stats.bin_values (current_variant (per_variant example_tie))
    (full_dist_traveled (per_variant example_tie)) [0; 10; 20] 0 = [7] /\
  scipy_stats.binned_statistic (current_variant (per_variant example_tie))
    (full_dist_traveled (per_variant example_tie)) [0; 10; 20] =
    Ok (scipy_stats.mkBinned [Some 7; Some 7] [0; 10; 20]) /\
  trim_index (full_dist_traveled (per_variant example_tie)) [Some 7; Some 7] 0
    = [0%nat] /\
  exists s' log,
    pruning true [0; 10; 20] example_tie = Ok (s', log) /\
    current_variant (per_variant s') = [15] /\
    full_dist_traveled (per_variant s') = [7] /\
    lats_per_step (per_step s') = [[1]; [0]].
Proof.
  split; [reflexivity|]. split; [reflexivity|]. split; [reflexivity|].
  split; [reflexivity|]. split; [reflexivity|].
  assert (Ei : pruning_idxs true [0; 10; 20] example_tie = Ok [0%nat]).
  { unfold pruning_idxs. cbn [bind]. cbv beta iota zeta.
    change (scipy_stats.binned_statistic _ _ _)
      with (Ok (scipy_stats.mkBinned [Some 7; Some 7] [0; 10; 20])).
    cbn [bind scipy_stats.statistic scipy_stats.bin_edges].
    change (flat_map _ _) with [0%nat; 0%nat].
    rewrite (list_of_set_singleton [0%nat; 0%nat] 0%nat); [reflexivity|discriminate|].
    intros y [<-|[<-|[]]]; reflexivity. }
  unfold pruning. rewrite Ei. cbn [bind].
  eexists _, _. split; [reflexivity|]. repeat split.
Qed.

(* ================================================================== *)
(** * Theorems: the shape of the state *)

(** Branching keeps the shape invariant, with the wider column count. *)
Lemma shape_ok_replicated (k N : nat) (s s' : IsoBased) :
  shape_ok s N -> replicated k s s' -> count s' = count s ->
  shape_ok s' (N * k).
Proof.
  intros (Sla & Slo & Saz & Sdi) (Ela & Elo & Eaz & Edi & _) Ec.
  unfold shape_ok, has_shape in *. rewrite Ela, Elo, Eaz, Edi, Ec.
  rewrite !length_map.
  repeat split; first [ tauto | apply cols_repeat_each; tauto ].
Qed.

(** Committing a step and counting it keeps the shape invariant. *)
Lemma shape_ok_update_position {G : Geod} (s s' : IsoBased) (move : Move)
  (is_constrained : list bool) (dist : list Q) (N : nat) :
  shape_ok s N ->
  length (lat2 move) = N -> length (lon2 move) = N -> length dist = N ->
  length (current_variant (per_variant s)) = N ->
  update_position move is_constrained dist s = Ok s' ->
  shape_ok (increment_count s') N.
Proof.
  intros (Sla & Slo & Saz & Sdi) Llat Llon Ldist Lcv.
  unfold update_position.
  rewrite (vstack_ok _ _ _ _ Sla Llat). cbn [bind].
  rewrite (vstack_ok _ _ _ _ Slo Llon). cbn [bind].
  rewrite (vstack_ok _ _ _ _ Sdi Ldist). cbn [bind].
  rewrite (vstack_ok _ _ _ _ Saz) by (rewrite length_map; exact Lcv).
  cbn [bind].
  destruct (geod_inverse _ _ _ _) as [gcrs|]; [|discriminate]. cbn [bind].
  destruct (np.mask_assign _ _ _) as [fd|]; [|discriminate]. cbn [bind].
  intro E. injection E as <-.
  unfold shape_ok, has_shape, cols in *. cbn.
  destruct Sla as [Rla Cla], Slo as [Rlo Clo], Saz as [Raz Caz], Sdi as [Rdi Cdi].
  rewrite Rla, Rlo, Raz, Rdi.
  repeat split; try lia; constructor; try assumption.
  now rewrite length_map.
Qed.

(** Pruning keeps the shape invariant, with the number of kept columns. *)
Lemma shape_ok_reindexed (idxs : list nat) (N : nat) (s s' : IsoBased) :
  shape_ok s N -> (forall i, In i idxs -> (i < N)%nat) ->
  reindexed idxs s s' -> count s' = count s ->
  shape_ok s' (length idxs).
Proof.
  intros (Sla & Slo & Saz & Sdi) Hi (Ela & Elo & Eaz & Edi & _) Ec.
  unfold shape_ok, has_shape. rewrite Ec.
  destruct Sla as [Rla Cla], Slo as [Rlo Clo], Saz as [Raz Caz], Sdi as [Rdi Cdi].
  destruct (take_cols_ok _ idxs N Cla Hi) as (m1 & E1 & L1 & C1).
  destruct (take_cols_ok _ idxs N Clo Hi) as (m2 & E2 & L2 & C2).
  destruct (take_cols_ok _ idxs N Caz Hi) as (m3 & E3 & L3 & C3).
  destruct (take_cols_ok _ idxs N Cdi Hi) as (m4 & E4 & L4 & C4).
  rewrite Ela in E1. rewrite Elo in E2. rewrite Eaz in E3. rewrite Edi in E4.
  injection E1 as <-. injection E2 as <-. injection E3 as <-. injection E4 as <-.
  repeat split; congruence.
Qed.

(** The shadowed check accepts exactly the states whose four position
    containers agree in rows and columns and have [count + 1] rows. *)
Lemma shadowed_check_variant_def_ok (s : IsoBased) (N : nat) :
  shape_ok s N -> Shadowed.check_variant_def s = Ok tt.
Proof.
  intros (Sla & Slo & Saz & Sdi). unfold Shadowed.check_variant_def.
  rewrite (shape1_has_shape _ _ _ Sla), (shape1_has_shape _ _ _ Slo),
    (shape1_has_shape _ _ _ Saz), (shape1_has_shape _ _ _ Sdi).
  unfold np.shape0.
  destruct Sla as [-> _], Slo as [-> _], Saz as [-> _], Sdi as [-> _].
  rewrite !Nat.eqb_refl. reflexivity.
Qed.

(** C6 on a mismatch.  In the state [example_mismatch] the distance
    container has two rows and the other three have one.  Branching goes
    through: the check that runs is the empty [check_variant_def] of lines
    623-624.  The expanded state still has the mismatch, the body of lines
    217-229 raises on it, and with that body in place branching raises. *)
Theorem define_variants_mismatch_unchecked :
  exists s',
    define_variants (G := example_geod) IsoBased_methods example_mismatch = Ok s' /\
    np.shape0 (lats_per_step (per_step s')) = 1%nat /\
    np.shape0 (dist_per_step (per_step s')) = 2%nat /\
    (forall N, ~ shape_ok s' N) /\
    Shadowed.check_variant_def s' =
      Raise (ValueError "define_variants: number of rows not matching!") /\
    define_variants (G := example_geod) example_subclass example_mismatch =
      Raise (ValueError "define_variants: number of rows not matching!").
Proof.
  destruct (define_variants (G := example_geod) IsoBased_methods example_mismatch)
    as [s'|e] eqn:E; [|vm_compute in E; discriminate].
  exists s'. split; [reflexivity|].
  vm_compute in E. injection E as <-.
  split; [reflexivity|]. split; [reflexivity|]. split; [|split; reflexivity].
  intros N ((Rla & _) & _ & _ & (Rdi & _)). cbn in Rla, Rdi. lia.
Qed.

(* ================================================================== *)
(** * Theorems: termination *)

Lemma flip0_involutive {A : Type} (m : matrix A) : np.flip0 (np.flip0 m) = m.
Proof. apply rev_involutive. Qed.

(** After the flip the row that was last (the departure) is row 0 and the
    row that was first (the arrival) is the last row. *)
Lemma flip0_ends {A : Type} (m : matrix A) (newest oldest : list A) (i : nat) :
  nth_error m 0 = Some newest -> nth_error m i = Some oldest ->
  S i = length m ->
  nth_error (np.flip0 m) 0 = Some oldest /\
  nth_error (np.flip0 m) i = Some newest.
Proof.
  intros Hn Ho Hi. unfold np.flip0. split.
  - rewrite nth_error_rev, <- Hi.
    replace (S i - 1)%nat with i by lia. exact Ho.
  - rewrite nth_error_rev, <- Hi.
    replace (S i - S i)%nat with 0%nat by lia.
    destruct (Nat.ltb_spec i (S i)); [exact Hn | lia].
Qed.

Lemma argmax_from_spec (a : list Q) (best : Q) (besti i : nat) :
  (besti < i)%nat ->
  exists v,
    (np.argmax_from best besti i a = besti /\ v = best \/
     (i <= np.argmax_from best besti i a)%nat /\
     nth_error a (np.argmax_from best besti i a - i) = Some v) /\
    best <= v /\ forall x, In x a -> x <= v.
Proof.
  revert best besti i. induction a as [|x a IH]; intros best besti i Hlt.
  - exists best. cbn. split; [now left|]. split; [apply Qle_refl | contradiction].
  - cbn [np.argmax_from]. destruct (Qlt_bool best x) eqn:E.
    + apply Qlt_bool_iff in E.
      destruct (IH x i (S i)) as (v & Hv & Hle & Hall); [lia|].
      exists v. split; [|split].
      * right. destruct Hv as [[-> ->] | [Hge Hnth]].
        -- split; [lia|]. now rewrite Nat.sub_diag.
        -- split; [lia|].
           replace (np.argmax_from x i (S i) a - i)%nat
             with (S (np.argmax_from x i (S i) a - S i)) by lia.
           exact Hnth.
      * apply Qlt_le_weak. eapply Qlt_le_trans; eassumption.
      * intros y [<- | Hy]; [exact Hle | now apply Hall].
    + apply Qlt_bool_false_iff in E.
      destruct (IH best besti (S i)) as (v & Hv & Hle & Hall); [lia|].
      exists v. split; [|split].
      * destruct Hv as [[-> ->] | [Hge Hnth]]; [now left|].
        right. split; [lia|].
        replace (np.argmax_from best besti (S i) a - i)%nat
          with (S (np.argmax_from best besti (S i) a - S i)) by lia.
        exact Hnth.
      * exact Hle.
      * intros y [<- | Hy]; [eapply Qle_trans; eassumption | now apply Hall].
Qed.

(** The body of lines 433-435 returns the column of a largest progress. *)
Lemma shadowed_get_final_index_max (s : IsoBased) :
  full_dist_traveled (per_variant s) <> [] ->
  exists idx v,
    Shadowed.get_final_index s = Ok (Some idx) /\
    nth_error (full_dist_traveled (per_variant s)) idx = Some v /\
    forall x, In x (full_dist_traveled (per_variant s)) -> x <= v.
Proof.
  intro Hne. unfold Shadowed.get_final_index.
  destruct (full_dist_traveled (per_variant s)) as [|x a]; [contradiction|].
  cbn [np.argmax bind].
  destruct (argmax_from_spec a x 0 1) as (v & Hv & Hle & Hall); [lia|].
  exists (np.argmax_from x 0 1 a), v. split; [reflexivity|]. split.
  - destruct Hv as [[-> ->] | [Hge Hnth]]; [reflexivity|].
    destruct (np.argmax_from x 0 1 a) as [|n]; [lia|].
    cbn. now replace (S n - 1)%nat with n in Hnth by lia.
  - intros y [<- | Hy]; [exact Hle | now apply Hall].
Qed.


(* ================================================================== *)
(** * Pruning without ties *)

Lemma qmax_cases (a b : Q) :
  (qmax a b = a /\ b <= a) \/ (qmax a b = b /\ a <= b).
Proof.
  unfold qmax. destruct (Qlt_bool a b) eqn:E.
  - right. split; [reflexivity|]. apply Qlt_le_weak. now apply Qlt_bool_iff.
  - left. split; [reflexivity|]. now apply Qlt_bool_false_iff.
Qed.

Lemma fold_qmax_spec (l : list Q) (x : Q) :
  In (fold_left qmax l x) (x :: l) /\
  forall y, In y (x :: l) -> y <= fold_left qmax l x.
Proof.
  revert x. induction l as [|z l IH]; intro x.
  - cbn. split; [now left|]. intros y [<- | []]. apply Qle_refl.
  - cbn [fold_left]. destruct (IH (qmax x z)) as [Hin Hmax].
    split.
    + destruct Hin as [Hin | Hin]; [|right; now right].
      destruct (qmax_cases x z) as [[E _] | [E _]]; rewrite E in Hin |- *.
      * now left.
      * right. now left.
    + intros y Hy.
      assert (Hq : qmax x z <= fold_left qmax l (qmax x z)) by (apply Hmax; now left).
      destruct Hy as [<- | [<- | Hy]].
      * destruct (qmax_cases x z) as [[E _] | [E H]]; rewrite E in Hq |- *; [exact Hq|].
        rewrite E in Hmax. eapply Qle_trans; eassumption.
      * destruct (qmax_cases x z) as [[E H] | [E _]]; rewrite E in Hq |- *; [|exact Hq].
        eapply Qle_trans; eassumption.
      * apply Hmax. now right.
Qed.

Lemma nanmax_spec (l : list Q) (m : Q) :
  np.nanmax l = Some m -> In m l /\ forall y, In y l -> y <= m.
Proof.
  destruct l as [|x l]; [discriminate|]. cbn. intro E. injection E as <-.
  apply fold_qmax_spec.
Qed.

Lemma in_bin_values (x values edges : list Q) (i : nat) (v : Q) :
  In v (scipy_stats.bin_values x values edges i) <->
  exists k h, nth_error x k = Some h /\ nth_error values k = Some v /\
              scipy_stats.in_bin edges i h = true.
Proof.
  unfold scipy_stats.bin_values. rewrite in_map_iff. split.
  - intros ([h v'] & Ev & Hin). cbn in Ev. subst v'.
    apply filter_In in Hin. destruct Hin as [Hin Hb]. cbn in Hb.
    apply In_nth_error in Hin. destruct Hin as [k Hk].
    exists k, h. revert values k Hk. induction x as [|x0 x IH]; intros values k Hk.
    + now destruct k.
    + destruct values as [|v0 values]; [now destruct k|].
      destruct k as [|k]; cbn in Hk.
      * injection Hk as -> ->. auto.
      * destruct (IH values k Hk) as (H1 & H2 & H3). auto.
  - intros (k & h & Hx & Hv & Hb). exists (h, v). split; [reflexivity|].
    apply filter_In. split; [|exact Hb].
    eapply nth_error_In. apply (nth_error_combine _ _ _ _ _ Hx Hv).
Qed.

Lemma where_from_head {A : Type} (p : A -> bool) (a : list A) (i j : nat)
  (rest : list nat) :
  np.where_from p i a = j :: rest ->
  (i <= j)%nat /\ exists d, nth_error a (j - i) = Some d /\ p d = true.
Proof.
  revert i. induction a as [|x a IH]; intros i E; [discriminate|].
  cbn in E. destruct (p x) eqn:Ep.
  - injection E as <- _. split; [lia|]. exists x. now rewrite Nat.sub_diag.
  - destruct (IH (S i) E) as (Hle & d & Hd & Hp). split; [lia|].
    exists d. split; [|exact Hp].
    now replace (j - i)%nat with (S (j - S i)) by lia.
Qed.

(** Where no two columns have the same progress, the column kept for a
    bin heads into that bin, has a progress other than 0, and no candidate
    of the bin has a larger progress. *)
Lemma trim_index_in_bin_when_distinct (x full_dist bins : list Q) (i j : nat)
  (b : scipy_stats.BinnedStatisticResult) :
  (forall k l dk dl, nth_error full_dist k = Some dk ->
                     nth_error full_dist l = Some dl -> dk == dl -> k = l) ->
  scipy_stats.binned_statistic x full_dist bins = Ok b ->
  trim_index full_dist (scipy_stats.statistic b) i = [j] ->
  exists h d,
    nth_error x j = Some h /\ nth_error full_dist j = Some d /\
    scipy_stats.in_bin (scipy_stats.bin_edges b) i h = true /\ ~ d == 0 /\
    forall k hk dk, nth_error x k = Some hk -> nth_error full_dist k = Some dk ->
                    scipy_stats.in_bin (scipy_stats.bin_edges b) i hk = true ->
                    dk <= d.
Proof.
  intros Hdistinct Eb Ht.
  apply binned_statistic_inv in Eb. destruct Eb as (_ & _ & _ & _ & Est).
  set (edges := scipy_stats.bin_edges b) in *.
  unfold trim_index in Ht. rewrite Est in Ht.
  rewrite nth_error_map in Ht.
  destruct (nth_error (seq 0 (length edges - 1)) i) as [i'|] eqn:Ei; [|discriminate].
  assert (i' = i).
  { rewrite nth_error_seq in Ei. destruct (Nat.ltb_spec i (length edges - 1)); [|discriminate].
    cbn in Ei. congruence. }
  subst i'. cbn [option_map] in Ht.
  destruct (np.nanmax (scipy_stats.bin_values x full_dist edges i)) as [m|] eqn:Em;
    [|discriminate].
  destruct (Qeq_bool m 0) eqn:E0; [discriminate|].
  destruct (np.where_ (fun d => Qeq_bool d m) full_dist) as [|j0 rest] eqn:Ew;
    [discriminate|].
  injection Ht as ->.
  apply nanmax_spec in Em. destruct Em as [Hin Hmax].
  apply in_bin_values in Hin. destruct Hin as (k & h & Hxk & Hvk & Hbk).
  apply where_from_head in Ew. destruct Ew as (_ & d & Hd & Hp).
  rewrite Nat.sub_0_r in Hd. apply Qeq_bool_iff in Hp.
  assert (j = k) by (eapply Hdistinct; eassumption). subst k.
  exists h, d. repeat split; auto.
  - intro Hz. rewrite Hp in Hz. apply Qeq_bool_iff in Hz. congruence.
  - intros k hk dk Hx' Hf' Hb'. rewrite Hp. apply Hmax.
    apply in_bin_values. exists k, hk. auto.
Qed.

Lemma update_position_progress_witness :
  shape_ok example_two 2 /\
  exists s',
    update_position (G := example_geod) (mkMove [90; 90] [0; 0] [5; 14])
                    [false; true] [5; 5] example_two = Ok s' /\
    Forall2 Qeq (full_dist_traveled (per_variant s')) [5; 0] /\
    np.shape1 (lats_per_step (per_step s')) = 2%nat.
Proof.
  split; [exact example_two_shape|].
  destruct (@update_position_progress example_geod example_two
              (mkMove [90; 90] [0; 0] [5; 14]) [false; true] [5; 5] 2
              example_two_shape eq_refl eq_refl eq_refl eq_refl eq_refl)
    as (s' & E & _).
  exists s'. split; [exact E|].
  vm_compute in E. injection E as <-. split; [|reflexivity].
  repeat constructor.
Defined.

(* ================================================================== *)
(** * The whole step *)

(** With the bindings of class [IsoBased] itself a step does not get past
    line 174. *)
Lemma move_boat_direct_IsoBased {G : Geod} {W : WeatherCond} {B : Boat}
  {C : ConstraintsList} (s : IsoBased) (winds : Wind) :
  get_wind_functions s = Ok winds ->
  exists msg, move_boat_direct IsoBased_methods s = Raise (TypeError msg).
Proof.
  intro E. unfold move_boat_direct.
  destruct (relative_wind_IsoBased s winds E) as [msg ->].
  exists msg. reflexivity.
Qed.

(** With working bindings the step of [example_two] runs through: the
    second candidate reaches longitude 10, both are put there, the step is
    the last one, and the state has three rows and two columns. *)
Lemma move_boat_direct_example :
  exists s',
    move_boat_direct (G := example_geod) (W := example_weather)
                     (B := example_boat) (C := example_constraints)
                     example_subclass example_two = Ok s' /\
    count s' = 2%nat /\ is_last_step s' = true /\
    lons_per_step (per_step s') = [[10; 10]; [0; 9]; [0; 0]] /\
    Forall2 Qeq (full_dist_traveled (per_variant s')) [10; 10] /\
    shape_ok s' 2.
Proof.
  destruct (move_boat_direct (G := example_geod) (W := example_weather)
              (B := example_boat) (C := example_constraints)
              example_subclass example_two) as [s'|e] eqn:E;
    [|vm_compute in E; discriminate].
  exists s'. split; [reflexivity|].
  vm_compute in E. injection E as <-.
  split; [reflexivity|]. split; [reflexivity|]. split; [reflexivity|].
  split; [repeat constructor|].
  unfold shape_ok, has_shape, cols. cbn. repeat split; repeat constructor.
Qed.

(* ================================================================== *)
(** * Branching with the check in place *)

(** On a state that satisfies the shape invariant, branching with the
    checking body of lines 217-229 bound to [check_variant_def] gives the
    same result as branching with the empty one: from such a state the check
    never raises. *)
Lemma define_variants_check_passes {G : Geod} (cls : Methods) (s : IsoBased)
  (N : nat) :
  self_check_variant_def cls = Shadowed.check_variant_def ->
  (0 <= variant_segments (settings s))%Z ->
  shape_ok s N ->
  define_variants cls s = define_variants IsoBased_methods s.
Proof.
  intros Hcls Hvs Hs.
  assert (Hk : (0 <= variant_segments (settings s) + 1)%Z) by lia.
  unfold define_variants, ShipParamsOps.define_variants.
  destruct (np.row0 (lats_per_step (per_step s))) as [lats0|]; [|reflexivity].
  cbn [bind].
  destruct (np.row0 (lons_per_step (per_step s))) as [lons0|]; [|reflexivity].
  cbn [bind].
  destruct (geod_inverse _ _ _ _) as [new_azi|]; [|reflexivity]. cbn [bind].
  rewrite !repeat_axis1_ok by exact Hk. cbn [bind].
  rewrite !repeat_ok by exact Hk. cbn [bind].
  set (s1 := with_per_variant _ _).
  assert (Hs1 : shape_ok s1 (N * Z.to_nat (variant_segments (settings s) + 1))).
  { apply (shape_ok_replicated _ _ s); [exact Hs | | reflexivity].
    unfold replicated, s1. cbn. repeat split. }
  rewrite Hcls, (shadowed_check_variant_def_ok s1 _ Hs1).
  reflexivity.
Qed.

(* ================================================================== *)
(** * Rounding times *)

Lemma Qfloor_quotient (a b : Z) :
  (0 < b)%Z -> Qfloor (inject_Z a / inject_Z b) = (a / b)%Z.
Proof.
  intro Hb. destruct b as [|p|p]; try lia.
  unfold Qdiv, Qinv, inject_Z, Qmult, Qfloor. cbn.
  now rewrite Z.mul_1_r.
Qed.

Lemma Qfloor_half_up (s r : Z) :
  (0 < r)%Z ->
  Qfloor ((inject_Z s + inject_Z r / 2) / inject_Z r) = ((2 * s + r) / (2 * r))%Z.
Proof.
  intro Hr. rewrite <- (Qfloor_quotient (2 * s + r) (2 * r)) by lia.
  apply Qfloor_comp. rewrite !inject_Z_plus, !inject_Z_mult.
  assert (Hne : ~ inject_Z r == 0).
  { intro H. unfold Qeq in H. cbn in H. lia. }
  change (inject_Z 2) with 2. field. exact Hne.
Qed.

Lemma day_decomposition (d : Z) :
  d = (midnight d + pytime.seconds (d - 0) * pytime.us_per_second
       + pytime.microsecond d)%Z /\
  (0 <= pytime.seconds (d - 0) < pytime.seconds_per_day)%Z /\
  (0 <= pytime.microsecond d < pytime.us_per_second)%Z.
Proof.
  unfold midnight, pytime.seconds, pytime.microsecond, pytime.seconds_per_day,
    pytime.us_per_second.
  rewrite Z.sub_0_r.
  pose proof (Z.div_mod d 1000000 ltac:(lia)) as H1.
  pose proof (Z.mod_pos_bound d 1000000 ltac:(lia)) as H2.
  pose proof (Z.div_mod (d / 1000000) 86400 ltac:(lia)) as H3.
  pose proof (Z.mod_pos_bound (d / 1000000) 86400 ltac:(lia)) as H4.
  assert (H5 : (d / (86400 * 1000000) = d / 1000000 / 86400)%Z).
  { rewrite (Z.mul_comm 86400 1000000). now rewrite Z.div_div by lia. }
  rewrite H5. lia.
Qed.

(** The shape of every result of [round_time]: the microseconds are
    dropped and the seconds of the day [s] are replaced by a multiple
    [q * round_to] with [2 q round_to <= 2 s + round_to < 2 (q+1) round_to]. *)
Lemma round_time_value (now d r : Z) :
  (0 < r)%Z ->
  exists q,
    round_time now (Some d) r =
      inr (whole_seconds d + (q * r - pytime.seconds (d - 0)) * pytime.us_per_second)%Z /\
    (2 * (q * r) <= 2 * pytime.seconds (d - 0) + r < 2 * (q * r) + 2 * r)%Z.
Proof.
  intro Hr. unfold round_time.
  destruct (Z.eqb_spec r 0) as [E | _]; [lia|].
  rewrite Qfloor_half_up by exact Hr.
  set (s := pytime.seconds (d - 0)).
  exists ((2 * s + r) / (2 * r))%Z. split.
  - f_equal. unfold whole_seconds, pytime.timedelta, pytime.seconds_per_day. lia.
  - pose proof (Z.div_mod (2 * s + r) (2 * r) ltac:(lia)) as H1.
    pose proof (Z.mod_pos_bound (2 * s + r) (2 * r) ltac:(lia)) as H2.
    nia.
Qed.

(** X1.  Rounding a time to a positive number of seconds gives a time without
    microseconds that lies a whole multiple of [round_to] seconds after the
    midnight of the day of [dt] and differs from [dt] without its
    microseconds by at most half of [round_to]. *)
Theorem round_time_nearest_multiple (now d r : Z) :
  (0 < r)%Z ->
  exists rounded k,
    round_time now (Some d) r = inr rounded /\
    rounded = (midnight d + k * r * pytime.us_per_second)%Z /\
    (0 <= k)%Z /\
    (- (r * pytime.us_per_second) < 2 * (rounded - whole_seconds d)
     <= r * pytime.us_per_second)%Z.
Proof.
  intros Hr.
  destruct (round_time_value now d r Hr) as (q & E & Hq).
  destruct (day_decomposition d) as (Hdec & Hs & Hm).
  eexists _, q. split; [exact E|].
  unfold whole_seconds, pytime.us_per_second, pytime.seconds_per_day in *.
  set (s := pytime.seconds (d - 0)) in *.
  set (m := pytime.microsecond d) in *.
  split; [lia|]. split; [nia|]. lia.
Qed.

Lemma round_time_nearest_multiple_witness :
  (0 < 60)%Z /\
  exists rounded,
    round_time 0%Z (Some 90000000%Z) 60%Z = inr rounded /\
    rounded = 120000000%Z.
Proof.
  split; [lia|].
  destruct (round_time_nearest_multiple 0%Z 90000000%Z 60%Z) as (rounded & k & E & _);
    [lia |].
  exists rounded. split; [exact E|].
  vm_compute in E. injection E as <-. reflexivity.
Defined.

Lemma on_grid_parts (D n : Z) :
  (0 <= n)%Z ->
  let R := (D * (pytime.seconds_per_day * pytime.us_per_second)
            + n * pytime.us_per_second)%Z in
  pytime.microsecond R = 0%Z /\
  pytime.seconds (R - 0) = (n mod pytime.seconds_per_day)%Z.
Proof.
  intros Hn R. unfold R, pytime.microsecond, pytime.seconds,
    pytime.seconds_per_day, pytime.us_per_second.
  rewrite Z.sub_0_r.
  replace (D * (86400 * 1000000) + n * 1000000)%Z
    with ((D * 86400 + n) * 1000000)%Z by lia.
  rewrite Z.mod_mul by lia. rewrite Z.div_mul by lia.
  split; [reflexivity|].
  rewrite Z.add_comm. apply Z.mod_add. lia.
Qed.

(** X2.  Where [round_to] divides the seconds of a day, a rounded time is left
    as it is by rounding it again. *)
Theorem round_time_idempotent (now d r rounded : Z) :
  (0 < r)%Z -> (r | pytime.seconds_per_day)%Z ->
  round_time now (Some d) r = inr rounded ->
  round_time now (Some rounded) r = inr rounded.
Proof.
  intros Hr [c Hc] E.
  destruct (round_time_value now d r Hr) as (q & E' & Hq).
  rewrite E in E'. injection E' as ->.
  destruct (day_decomposition d) as (Hdec & Hs & Hm).
  set (R := (whole_seconds d + (q * r - pytime.seconds (d - 0)) * pytime.us_per_second)%Z).
  assert (Hq0 : (0 <= q)%Z) by nia.
  assert (HR : R = (d / (pytime.seconds_per_day * pytime.us_per_second)
                    * (pytime.seconds_per_day * pytime.us_per_second)
                    + q * r * pytime.us_per_second)%Z).
  { unfold R, whole_seconds. unfold midnight in Hdec. lia. }
  destruct (on_grid_parts (d / (pytime.seconds_per_day * pytime.us_per_second))
              (q * r) ltac:(nia)) as [Hmic Hsec].
  cbv zeta in Hmic, Hsec. rewrite <- HR in Hmic, Hsec.
  destruct (round_time_value now R r Hr) as (q' & E2 & Hq').
  rewrite E2. f_equal. unfold whole_seconds. rewrite Hmic.
  rewrite Hsec in Hq' |- *.
  assert (Hdiv : ((q * r) mod pytime.seconds_per_day = (q mod c) * r)%Z).
  { rewrite Hc. apply Z.mul_mod_distr_r; lia. }
  rewrite Hdiv in Hq' |- *.
  assert (q' = q mod c)%Z by nia.
  subst q'. lia.
Qed.

Lemma round_time_idempotent_witness :
  (0 < 60)%Z /\
  round_time 0%Z (Some 120000000%Z) 60%Z = inr 120000000%Z.
Proof.
  split; [lia|].
  apply (round_time_idempotent 0%Z 90000000%Z 60%Z 120000000%Z).
  - lia.
  - exists 1440%Z. reflexivity.
  - reflexivity.
Defined.

(* ================================================================== *)
(** * The forecast window *)

Lemma int_Qeq (x y : Q) : x == y -> pytime.int x = pytime.int y.
Proof.
  unfold Qeq, pytime.int. destruct x as [n1 d1], y as [n2 d2]. cbn. intro H.
  rewrite <- (Z.quot_mul_cancel_r n1 (Zpos d1) (Zpos d2)) by lia.
  rewrite H, (Z.mul_comm (Zpos d1) (Zpos d2)).
  apply Z.quot_mul_cancel_r; lia.
Qed.

Lemma int_quotient (a b : Z) :
  (0 < b)%Z -> pytime.int (inject_Z a / inject_Z b) = Z.quot a b.
Proof.
  intro Hb. destruct b as [|p|p]; try lia.
  unfold Qdiv, Qinv, inject_Z, Qmult, pytime.int. cbn.
  now rewrite Z.mul_1_r.
Qed.

Lemma int_total_seconds (n : Z) :
  pytime.int (pytime.total_seconds (n * pytime.us_per_second)) = n.
Proof.
  unfold pytime.total_seconds. rewrite int_quotient by reflexivity.
  apply Z.quot_mul. discriminate.
Qed.

Lemma int_ratio (a b : Z) :
  (0 < b)%Z ->
  pytime.int (pytime.total_seconds a / pytime.total_seconds b) = Z.quot a b.
Proof.
  intro Hb. rewrite <- (int_quotient a b Hb). apply int_Qeq.
  unfold pytime.total_seconds, pytime.us_per_second.
  assert (Hne : ~ inject_Z b == 0).
  { intro H. unfold Qeq in H. cbn in H. lia. }
  field. exact Hne.
Qed.

Lemma hours_seconds (h : Z) :
  pytime.hours h = (3600 * h * pytime.us_per_second)%Z /\
  (pytime.hours h / 2 = 1800 * h * pytime.us_per_second)%Z.
Proof.
  unfold pytime.hours, pytime.us_per_second. split; [lia|].
  replace (h * 3600 * 1000000)%Z with (1800 * h * 1000000 * 2)%Z by lia.
  apply Z.div_mul. lia.
Qed.

Lemma total_seconds_zero (a : Z) :
  (0 < a)%Z -> Qeq_bool (pytime.total_seconds a) 0 = false.
Proof.
  intro Ha. destruct (Qeq_bool _ 0) eqn:E; [|reflexivity].
  apply Qeq_bool_iff in E. unfold pytime.total_seconds, pytime.us_per_second in E.
  unfold Qeq, Qdiv, Qmult, Qinv, inject_Z in E. cbn in E. lia.
Qed.

(** The start of the window: the request rounded down.  For a resolution
    of [h] hours, [h >= 1], the setter of [time_start] stores a time without
    microseconds with [time_start <= value < time_start + time_res]. *)
Lemma set_time_start_floor (now h value : Z) :
  (1 <= h)%Z ->
  exists S,
    Weather.set_time_start now (pytime.hours h) value = inr S /\
    (S <= value < S + pytime.hours h)%Z /\
    exists k, S = (midnight (value - pytime.hours h / 2)
                   + k * (3600 * h) * pytime.us_per_second)%Z.
Proof.
  intro Hh. unfold Weather.set_time_start.
  destruct (hours_seconds h) as [E1 E2]. rewrite E2, !E1.
  rewrite int_total_seconds.
  set (x := (value - 1800 * h * pytime.us_per_second)%Z).
  destruct (round_time_value now x (3600 * h)) as (q & E & Hq); [lia|].
  destruct (day_decomposition x) as (Hdec & Hs & Hm).
  rewrite E. eexists. split; [reflexivity|].
  unfold whole_seconds, pytime.us_per_second in *.
  set (qr := (q * (3600 * h))%Z) in *.
  set (s := pytime.seconds (x - 0)) in *.
  set (m := pytime.microsecond x) in *.
  split; [unfold x; lia|].
  exists q. fold qr. lia.
Qed.

(** The end of the window: the request rounded up, strictly. *)
Lemma set_time_end_ceiling (now h value : Z) :
  (1 <= h)%Z ->
  exists E,
    Weather.set_time_end now (pytime.hours h) value = inr E /\
    (value < E <= value + pytime.hours h)%Z /\
    exists k, E = (midnight (value + pytime.hours h / 2)
                   + k * (3600 * h) * pytime.us_per_second)%Z.
Proof.
  intro Hh. unfold Weather.set_time_end.
  destruct (hours_seconds h) as [E1 E2]. rewrite E2, !E1.
  rewrite int_total_seconds.
  set (x := (value + 1800 * h * pytime.us_per_second)%Z).
  destruct (round_time_value now x (3600 * h)) as (q & E & Hq); [lia|].
  destruct (day_decomposition x) as (Hdec & Hs & Hm).
  rewrite E. eexists. split; [reflexivity|].
  unfold whole_seconds, pytime.us_per_second in *.
  set (qr := (q * (3600 * h))%Z) in *.
  set (s := pytime.seconds (x - 0)) in *.
  set (m := pytime.microsecond x) in *.
  split; [unfold x; lia|].
  exists q. fold qr. lia.
Qed.


(* ================================================================== *)
(** * The dictionary of wind vectors *)

Section WindVectors.
Context {Field : Type}.

Lemma lookup_In (d : list (Z * WindVector Field)) (idx : Q) (v : WindVector Field) :
  Weather.lookup d idx = inr v ->
  exists k, In (k, v) d /\ inject_Z k == idx.
Proof.
  induction d as [|[k0 v0] d IH]; [discriminate|].
  cbn. destruct (Qeq_bool (inject_Z k0) idx) eqn:E.
  - intro H. injection H as <-. exists k0. split; [now left|].
    now apply Qeq_bool_iff.
  - intro H. destruct (IH H) as (k & Hin & Hk). exists k. split; [now right | exact Hk].
Qed.

Lemma lookup_error (d : list (Z * WindVector Field)) (idx : Q) (e : weather_exn) :
  Weather.lookup d idx = inl e -> e = KeyError.
Proof.
  induction d as [|[k0 v0] d IH]; cbn.
  - intro H. now injection H as <-.
  - destruct (Qeq_bool (inject_Z k0) idx); [discriminate | exact IH].
Qed.

Lemma store_Forall (P : Z * WindVector Field -> Prop)
  (d : list (Z * WindVector Field)) (k : Z) (v : WindVector Field) :
  Forall P d -> P (k, v) -> Forall P (Weather.store d k v).
Proof.
  intros Hd Hkv. induction Hd as [|[k0 v0] d H0 Hd IH]; cbn.
  - now constructor.
  - destruct (Z.eqb_spec k0 k) as [-> | _]; constructor; assumption.
Qed.

Lemma store_has_key (d : list (Z * WindVector Field)) (k : Z) (v : WindVector Field) :
  exists v', Weather.lookup (Weather.store d k v) (inject_Z k) = inr v'.
Proof.
  induction d as [|[k0 v0] d IH]; cbn.
  - rewrite Qeq_bool_refl. eauto.
  - destruct (Z.eqb_spec k0 k) as [-> | Hne]; cbn.
    + rewrite Qeq_bool_refl. eauto.
    + destruct (Qeq_bool (inject_Z k0) (inject_Z k)); eauto.
Qed.

Lemma store_keeps_key (d : list (Z * WindVector Field)) (k k' : Z)
  (v : WindVector Field) :
  (exists v', Weather.lookup d (inject_Z k') = inr v') ->
  exists v', Weather.lookup (Weather.store d k v) (inject_Z k') = inr v'.
Proof.
  induction d as [|[k0 v0] d IH]; cbn; intros [v' H]; [discriminate|].
  destruct (Z.eqb_spec k0 k) as [-> | Hne]; cbn.
  - destruct (Qeq_bool (inject_Z k) (inject_Z k')); eauto.
  - destruct (Qeq_bool (inject_Z k0) (inject_Z k')); eauto.
Qed.

Lemma fill_stamped (ds_sel : Z -> outcome Field) (w : WeatherState Field) (n : Z)
  (len i0 : nat) (d d' : list (Z * WindVector Field)) :
  (Z.of_nat (i0 + len) <= n)%Z ->
  Forall (stamped w n) d ->
  Weather.fill_wind_vectors ds_sel w d (seq i0 len) = inr d' ->
  Forall (stamped w n) d'.
Proof.
  revert i0 d. induction len as [|len IH]; intros i0 d Hn Hd E.
  - cbn in E. now injection E as <-.
  - cbn in E. unfold Weather.read_wind_vectors in E.
    destruct (ds_sel _) as [e|f]; [discriminate|]. cbn in E.
    apply (IH (S i0) _ ltac:(lia)) in E; [exact E|].
    apply store_Forall; [exact Hd|].
    unfold stamped. cbn. split; [lia | reflexivity].
Qed.

Lemma fill_has_keys (ds_sel : Z -> outcome Field) (w : WeatherState Field)
  (len i0 : nat) (d d' : list (Z * WindVector Field)) (k : nat) :
  Weather.fill_wind_vectors ds_sel w d (seq i0 len) = inr d' ->
  ((exists v, Weather.lookup d (inject_Z (Z.of_nat k)) = inr v) \/
   (i0 <= k < i0 + len)%nat) ->
  exists v, Weather.lookup d' (inject_Z (Z.of_nat k)) = inr v.
Proof.
  revert i0 d. induction len as [|len IH]; intros i0 d E Hk.
  - cbn in E. injection E as <-. destruct Hk as [Hk | Hk]; [exact Hk | lia].
  - cbn in E. unfold Weather.read_wind_vectors in E.
    destruct (ds_sel _) as [e|f]; [discriminate|]. cbn in E.
    apply (IH (S i0) _ E).
    destruct Hk as [Hk | Hk].
    + left. now apply store_keeps_key.
    + destruct (Nat.eq_dec k i0) as [-> | Hne].
      * left. apply store_has_key.
      * right. lia.
Qed.

End WindVectors.

Lemma ratio_is_integer (a b k : Z) :
  b <> 0%Z ->
  (pytime.total_seconds a / pytime.total_seconds b == inject_Z k <-> a = (k * b)%Z).
Proof.
  intro Hb.
  assert (Hne : ~ inject_Z b == 0).
  { intro H. unfold Qeq in H. cbn in H. lia. }
  unfold pytime.total_seconds, pytime.us_per_second. split.
  - intro H. apply inject_Z_injective. rewrite inject_Z_mult.
    rewrite <- H. field. exact Hne.
  - intros ->. rewrite inject_Z_mult. field. exact Hne.
Qed.

Lemma total_seconds_nonzero (a : Z) :
  Qeq_bool (pytime.total_seconds a) 0 = false -> a <> 0%Z.
Proof.
  intros H ->. unfold pytime.total_seconds in H. cbn in H. discriminate.
Qed.

(** X5.  Once [init_wind_vectors] has filled the dictionary, [get_wind_vector]
    never reports a wrong forecast: whatever it returns is one of the
    [time_steps] entries, the one stamped with the rounded request. *)
Theorem get_wind_vector_stamp {Field : Type} (ds_sel : Z -> outcome Field)
  (now : Z) (w w' : WeatherState Field) (time : Z) :
  Weather.init_wind_vectors ds_sel w = inr w' ->
  Weather.get_wind_vector now w' time <> inl WrongForecast /\
  forall v, Weather.get_wind_vector now w' time = inr v ->
    exists k, (0 <= k < time_steps w)%Z /\
      timestamp v = (_time_start w + _time_res w * k)%Z /\
      round_time now (Some time) (pytime.int (pytime.total_seconds (_time_res w)))
        = inr (timestamp v).
Proof.
  unfold Weather.init_wind_vectors. intro E.
  destruct (Weather.fill_wind_vectors ds_sel w [] _) as [e|d] eqn:Ed; [discriminate|].
  cbn in E. injection E as <-.
  assert (Hst : Forall (stamped w (Z.of_nat (Z.to_nat (time_steps w)))) d).
  { apply (fill_stamped ds_sel w (Z.of_nat (Z.to_nat (time_steps w)))
             (Z.to_nat (time_steps w)) 0%nat [] d);
      [cbn; lia | constructor | exact Ed]. }
  unfold Weather.get_wind_vector, Weather.get_time_step_index.
  cbn [_time_res _time_start wind_vectors].
  destruct (round_time now (Some time) _) as [e|R] eqn:ER; cbn [and_then].
  { split; [|discriminate]. intro H. injection H as ->.
    unfold round_time in ER. destruct (Z.eqb _ 0); discriminate. }
  destruct (Qeq_bool (pytime.total_seconds (_time_res w)) 0) eqn:Ez; cbn [and_then].
  { split; discriminate. }
  apply total_seconds_nonzero in Ez. cbn [fst snd].
  destruct (Weather.lookup d _) as [e|v] eqn:El; cbn [and_then].
  { apply lookup_error in El. subst e. split; discriminate. }
  destruct (lookup_In _ _ _ El) as (k & Hin & Hk).
  rewrite Forall_forall in Hst. destruct (Hst _ Hin) as [Hrange Hstamp].
  cbn [fst snd] in Hrange, Hstamp.
  symmetry in Hk. apply (ratio_is_integer _ _ _ Ez) in Hk.
  assert (HR : R = timestamp v) by (rewrite Hstamp; lia).
  replace (Z.eqb R (timestamp v)) with true
    by (symmetry; apply Z.eqb_eq; exact HR).
  cbn [negb].
  split; [discriminate|].
  intros v' Hv'. injection Hv' as <-.
  exists k. split; [lia|]. split; [exact Hstamp | now rewrite <- HR].
Qed.

Lemma init_inversion {Field : Type} (now time hours h : Z) (w : WeatherState Field) :
  (3 <= h)%Z ->
  Weather.init now time hours h = inr w ->
  _time_res w = pytime.hours h /\
  Weather.set_time_start now (pytime.hours h) time = inr (_time_start w) /\
  Weather.set_time_end now (pytime.hours h) (time + pytime.hours hours)
    = inr (_time_end w) /\
  time_steps w = Z.quot (_time_end w - _time_start w) (pytime.hours h).
Proof.
  intros Hh. unfold Weather.init, Weather.set_time_res.
  destruct (Z.ltb_spec h 3); [lia|]. cbn [and_then].
  destruct (Weather.set_time_start _ _ _) as [e|S]; [discriminate|]. cbn [and_then].
  destruct (Weather.set_time_end _ _ _) as [e|E]; [discriminate|]. cbn [and_then].
  assert (Hres : (0 < pytime.hours h)%Z).
  { unfold pytime.hours, pytime.us_per_second. lia. }
  rewrite (total_seconds_zero _ Hres). intro Hw. injection Hw as <-. cbn.
  rewrite (int_ratio _ _ Hres). auto.
Qed.

Lemma lookup_Qeq {Field : Type} (d : list (Z * WindVector Field)) (i j : Q) :
  i == j -> Weather.lookup d i = Weather.lookup d j.
Proof.
  intro H. induction d as [|[k v] d IH]; [reflexivity|]. cbn.
  destruct (Qeq_bool (inject_Z k) i) eqn:Ei, (Qeq_bool (inject_Z k) j) eqn:Ej;
    try reflexivity; try exact IH.
  - apply Qeq_bool_iff in Ei. rewrite H in Ei. apply Qeq_bool_iff in Ei. congruence.
  - apply Qeq_bool_iff in Ej. rewrite <- H in Ej. apply Qeq_bool_iff in Ej. congruence.
Qed.

Lemma day_divides (h : Z) :
  (1 <= h)%Z -> (h | 24)%Z -> (3600 * h | pytime.seconds_per_day)%Z.
Proof.
  intros Hh [c Hc]. exists c. unfold pytime.seconds_per_day. lia.
Qed.

Lemma midnight_aligned (d k r : Z) :
  (r | pytime.seconds_per_day)%Z ->
  exists a, (midnight d + k * r * pytime.us_per_second
             = a * (r * pytime.us_per_second))%Z.
Proof.
  intros [c Hc]. unfold midnight. rewrite Hc.
  exists (d / (c * r * pytime.us_per_second) * c + k)%Z. lia.
Qed.

(** X7.  The forecast of the end of the window is missing.  For a resolution
    that divides the day, asking [get_wind_vector] for the wind at
    [time_end] itself ends in a [KeyError]: the dictionary holds the steps
    [0 .. time_steps - 1], and [time_end] is step [time_steps]. *)
Theorem forecast_misses_window_end {Field : Type} (ds_sel : Z -> outcome Field)
  (now time hours h : Z) (w w' : WeatherState Field) :
  (3 <= h)%Z -> (h | 24)%Z ->
  Weather.init now time hours h = inr w ->
  Weather.init_wind_vectors ds_sel w = inr w' ->
  Weather.get_wind_vector now w' (_time_end w) = inl KeyError.
Proof.
  intros Hh Hdiv Ew Ew'.
  destruct (init_inversion now time hours h w Hh Ew) as (Hres & _ & HE & Hsteps).
  assert (Hpos : (0 < pytime.hours h)%Z).
  { unfold pytime.hours, pytime.us_per_second. lia. }
  assert (Hround : round_time now (Some (_time_end w)) (3600 * h) = inr (_time_end w)).
  { unfold Weather.set_time_end in HE.
    destruct (hours_seconds h) as [E1 _].
    rewrite E1, int_total_seconds in HE. rewrite <- E1 in HE.
    eapply round_time_idempotent; [| | exact HE];
      [lia | apply day_divides; [lia | exact Hdiv]]. }
  destruct (Weather.get_wind_vector now w' (_time_end w)) as [e|v] eqn:Eg.
  - destruct e; try reflexivity; exfalso.
    + unfold Weather.init_wind_vectors in Ew'.
      destruct (Weather.fill_wind_vectors _ _ _ _); [discriminate|].
      cbn in Ew'. injection Ew' as <-.
      unfold Weather.get_wind_vector, Weather.get_time_step_index in Eg.
      cbn [_time_res _time_start wind_vectors] in Eg.
      rewrite Hres in Eg. destruct (hours_seconds h) as [E1 _].
      rewrite E1 in Eg at 1. rewrite int_total_seconds, Hround in Eg.
      cbn [and_then] in Eg. rewrite (total_seconds_zero _ Hpos) in Eg.
      cbn [and_then fst snd] in Eg.
      destruct (Weather.lookup _ _) as [e|v] eqn:El; cbn [and_then] in Eg.
      * apply lookup_error in El. congruence.
      * destruct (negb _); discriminate.
    + unfold Weather.init_wind_vectors in Ew'.
      destruct (Weather.fill_wind_vectors _ _ _ _); [discriminate|].
      cbn in Ew'. injection Ew' as <-.
      unfold Weather.get_wind_vector, Weather.get_time_step_index in Eg.
      cbn [_time_res _time_start wind_vectors] in Eg.
      rewrite Hres in Eg. destruct (hours_seconds h) as [E1 _].
      rewrite E1 in Eg at 1. rewrite int_total_seconds, Hround in Eg.
      cbn [and_then] in Eg. rewrite (total_seconds_zero _ Hpos) in Eg.
      cbn [and_then fst snd] in Eg.
      destruct (Weather.lookup _ _) as [e|v] eqn:El; cbn [and_then] in Eg.
      * apply lookup_error in El. congruence.
      * destruct (negb _); discriminate.
    + exact (proj1 (get_wind_vector_stamp ds_sel now w w' _ Ew') Eg).
  - exfalso.
    destruct (proj2 (get_wind_vector_stamp ds_sel now w w' _ Ew') v Eg)
      as (k & Hk & Hstamp & ER).
    rewrite Hres in ER, Hstamp. destruct (hours_seconds h) as [E1 _].
    rewrite E1 in ER at 1. rewrite int_total_seconds, Hround in ER.
    injection ER as ER. rewrite <- ER in Hstamp.
    assert (Hq : Z.quot (_time_end w - _time_start w) (pytime.hours h) = k).
    { replace (_time_end w - _time_start w)%Z with (k * pytime.hours h)%Z by lia.
      apply Z.quot_mul. lia. }
    lia.
Qed.

(** X6.  The forecast covers the request up to half a resolution before its
    end.  For a resolution of [h] hours that divides the day and a window
    built by [__init__] for [time] and [hours >= 0], every [t] with
    [time <= t] and [t + time_res/2 <= time + hours] gets a wind vector, and
    it is the one stamped with [t] rounded to the resolution. *)
Theorem forecast_covers_request {Field : Type} (ds_sel : Z -> outcome Field)
  (now time hours h t : Z) (w w' : WeatherState Field) :
  (3 <= h)%Z -> (h | 24)%Z -> (0 <= hours)%Z ->
  Weather.init now time hours h = inr w ->
  Weather.init_wind_vectors ds_sel w = inr w' ->
  (time <= t)%Z -> (t + pytime.hours h / 2 <= time + pytime.hours hours)%Z ->
  exists v,
    Weather.get_wind_vector now w' t = inr v /\
    round_time now (Some t) (3600 * h) = inr (timestamp v).
Proof.
  intros Hh Hdiv Hhours Ew Ew' Ht1 Ht2.
  destruct (init_inversion now time hours h w Hh Ew) as (Hres & HS & HE & Hsteps).
  destruct (set_time_start_floor now h time ltac:(lia)) as (S & ES & HSb & kS & HSg).
  destruct (set_time_end_ceiling now h (time + pytime.hours hours) ltac:(lia))
    as (E & EE & HEb & kE & HEg).
  rewrite HS in ES. injection ES as ES. rewrite HE in EE. injection EE as EE.
  subst S E.
  destruct (round_time_nearest_multiple now t (3600 * h) ltac:(lia))
    as (R & kR & ER & HRg & _ & HRb).
  pose proof (day_divides h ltac:(lia) Hdiv) as Hday.
  destruct (midnight_aligned (time - pytime.hours h / 2) kS _ Hday) as (a & Ha).
  destruct (midnight_aligned (time + pytime.hours hours + pytime.hours h / 2) kE _ Hday)
    as (b & Hb).
  destruct (midnight_aligned t kR _ Hday) as (m & Hm).
  rewrite Ha in HSg. rewrite Hb in HEg. rewrite Hm in HRg.
  destruct (hours_seconds h) as [E1 E2].
  assert (Hpos : (0 < pytime.hours h)%Z).
  { unfold pytime.hours, pytime.us_per_second. lia. }
  rewrite <- E1 in HSg, HEg, HRg, HRb.
  assert (Hmic : (0 <= pytime.microsecond t < pytime.us_per_second)%Z).
  { apply (day_decomposition t). }
  unfold whole_seconds in HRb.
  assert (Hhalf : (2 * (pytime.hours h / 2) = pytime.hours h)%Z).
  { rewrite E2, E1. lia. }
  assert (Hus : (2 * pytime.us_per_second <= pytime.hours h)%Z).
  { rewrite E1. unfold pytime.us_per_second. lia. }
  assert (HRE : (R < _time_end w)%Z) by lia.
  assert (HSR : (_time_start w - pytime.hours h < R)%Z) by lia.
  assert (Hka : (a <= m < b)%Z).
  { rewrite HRg, HEg in HRE. rewrite HRg, HSg in HSR.
    apply Z.mul_lt_mono_pos_r in HRE; [|exact Hpos].
    replace (a * pytime.hours h - pytime.hours h)%Z
      with ((a - 1) * pytime.hours h)%Z in HSR by lia.
    apply Z.mul_lt_mono_pos_r in HSR; [|exact Hpos]. lia. }
  assert (Hq : time_steps w = (b - a)%Z).
  { rewrite Hsteps, HSg, HEg.
    replace (b * pytime.hours h - a * pytime.hours h)%Z
      with ((b - a) * pytime.hours h)%Z by lia.
    apply Z.quot_mul. lia. }
  unfold Weather.init_wind_vectors in Ew'.
  destruct (Weather.fill_wind_vectors ds_sel w [] _) as [e|d] eqn:Ed; [discriminate|].
  cbn in Ew'.
  destruct (fill_has_keys ds_sel w _ 0%nat [] d (Z.to_nat (m - a)) Ed) as (v & Hv).
  { right. lia. }
  rewrite Z2Nat.id in Hv by lia.
  assert (Hidx : pytime.total_seconds (R - _time_start w) /
                 pytime.total_seconds (_time_res w) == inject_Z (m - a)).
  { rewrite Hres. apply ratio_is_integer; [lia|]. rewrite HRg, HSg. lia. }
  rewrite <- (lookup_Qeq d _ _ Hidx) in Hv.
  pose proof (get_wind_vector_stamp ds_sel now w w' t) as Hstamp.
  unfold Weather.init_wind_vectors in Hstamp. rewrite Ed in Hstamp.
  specialize (Hstamp Ew'). injection Ew' as <-.
  destruct Hstamp as [Hnot Hok].
  assert (Eg : Weather.get_wind_vector now
                 (mkWeatherState (time_steps w) (_time_res w) (_time_start w)
                                 (_time_end w) d) t =
               if negb (Z.eqb R (timestamp v)) then inl WrongForecast else inr v).
  { unfold Weather.get_wind_vector, Weather.get_time_step_index.
    cbn [_time_res _time_start wind_vectors].
    rewrite Hres. rewrite E1 at 1. rewrite int_total_seconds, ER.
    cbn [and_then]. rewrite (total_seconds_zero _ Hpos). cbn [and_then fst snd].
    rewrite Hres in Hv. rewrite Hv. cbn [and_then].
    destruct (negb _); reflexivity. }
  exists v. destruct (negb (Z.eqb R (timestamp v))).
  - contradiction.
  - split; [exact Eg|].
    destruct (Hok v Eg) as (k & _ & _ & Hround).
    rewrite Hres in Hround. rewrite E1 in Hround at 1.
    now rewrite int_total_seconds in Hround.
Qed.

Lemma forecast_covers_request_witness :
  exists w w' v,
    Weather.init 0%Z example_ten_oclock 12%Z 3%Z = inr w /\
    Weather.init_wind_vectors example_ds_sel w = inr w' /\
    Weather.get_wind_vector 0%Z w' example_ten_oclock = inr v /\
    timestamp v = 32400000000%Z.
Proof.
  destruct (Weather.init (Field := unit) 0%Z example_ten_oclock 12%Z 3%Z)
    as [e|w] eqn:Ew; [vm_compute in Ew; discriminate|].
  destruct (Weather.init_wind_vectors example_ds_sel w) as [e|w'] eqn:Ew'.
  { vm_compute in Ew. injection Ew as <-. vm_compute in Ew'. discriminate. }
  destruct (forecast_covers_request example_ds_sel 0%Z example_ten_oclock 12%Z 3%Z
              example_ten_oclock w w') as (v & Ev & Hv).
  - lia.
  - exists 8%Z. reflexivity.
  - lia.
  - exact Ew.
  - exact Ew'.
  - lia.
  - vm_compute. discriminate.
  - exists w, w', v. split; [reflexivity|]. split; [exact Ew'|].
    split; [exact Ev|].
    vm_compute in Hv. injection Hv as Hv. symmetry. exact Hv.
Defined.

Lemma forecast_misses_window_end_witness :
  exists w w',
    Weather.init 0%Z example_ten_oclock 12%Z 3%Z = inr w /\
    Weather.init_wind_vectors example_ds_sel w = inr w' /\
    _time_end w = 86400000000%Z /\
    Weather.get_wind_vector 0%Z w' (_time_end w) = inl KeyError.
Proof.
  destruct (Weather.init (Field := unit) 0%Z example_ten_oclock 12%Z 3%Z)
    as [e|w] eqn:Ew; [vm_compute in Ew; discriminate|].
  destruct (Weather.init_wind_vectors example_ds_sel w) as [e|w'] eqn:Ew'.
  { vm_compute in Ew. injection Ew as <-. vm_compute in Ew'. discriminate. }
  exists w, w'. split; [reflexivity|]. split; [exact Ew'|]. split.
  - vm_compute in Ew. now injection Ew as <-.
  - apply (forecast_misses_window_end example_ds_sel 0%Z example_ten_oclock 12%Z 3%Z).
    + lia.
    + exists 8%Z. reflexivity.
    + exact Ew.
    + exact Ew'.
Defined.

Lemma get_wind_vector_stamp_witness :
  exists w w',
    Weather.init 0%Z example_ten_oclock 12%Z 3%Z = inr w /\
    Weather.init_wind_vectors example_ds_sel w = inr w' /\
    Weather.get_wind_vector 0%Z w' example_ten_oclock <> inl WrongForecast.
Proof.
  destruct (Weather.init (Field := unit) 0%Z example_ten_oclock 12%Z 3%Z)
    as [e|w] eqn:Ew; [vm_compute in Ew; discriminate|].
  destruct (Weather.init_wind_vectors example_ds_sel w) as [e|w'] eqn:Ew'.
  { vm_compute in Ew. injection Ew as <-. vm_compute in Ew'. discriminate. }
  exists w, w'. split; [reflexivity|]. split; [exact Ew'|].
  exact (proj1 (get_wind_vector_stamp example_ds_sel 0%Z w w' example_ten_oclock Ew')).
Defined.

(* ================================================================== *)
(** * Angles *)

Lemma Qle_bool_false_lt (x y : Q) : Qle_bool x y = false -> y < x.
Proof.
  intro H. apply Qnot_le_lt. intro Hle. apply Qle_bool_iff in Hle. congruence.
Qed.

(** X3.  For an angle between -900 and 900 degrees, [degree_to_pmpi] converts to
    radians an angle between -180 and 180 degrees that differs from the
    given one by a whole number of turns. *)
Theorem degree_to_pmpi_range {R : Radians} (degrees : Q) :
  -(900) <= degrees -> degrees <= 900 ->
  exists n k,
    degree_to_pmpi degrees = radians n /\
    -(180) <= n /\ n <= 180 /\ n == degrees + 360 * inject_Z k.
Proof.
  intros Hlo Hhi. unfold degree_to_pmpi, degree_to_pmpi_degrees. cbv zeta.
  destruct (Qle_bool 360 degrees) eqn:E1;
    [apply Qle_bool_iff in E1 | apply Qle_bool_false_lt in E1];
    (match goal with |- context [Qle_bool ?x (-(360))] =>
       destruct (Qle_bool x (-(360))) eqn:E2;
       [apply Qle_bool_iff in E2 | apply Qle_bool_false_lt in E2] end);
    (match goal with |- context [Qlt_bool 180 ?x] =>
       destruct (Qlt_bool 180 x) eqn:E3;
       [apply Qlt_bool_iff in E3 | apply Qlt_bool_false_iff in E3] end);
    (match goal with |- context [Qlt_bool ?x (-(180))] =>
       destruct (Qlt_bool x (-(180))) eqn:E4;
       [apply Qlt_bool_iff in E4 | apply Qlt_bool_false_iff in E4] end);
    first
      [ exfalso; lra
      | eexists _; exists 0%Z; split; [reflexivity|]; unfold inject_Z; repeat split; lra
      | eexists _; exists 1%Z; split; [reflexivity|]; unfold inject_Z; repeat split; lra
      | eexists _; exists (-1)%Z; split; [reflexivity|]; unfold inject_Z; repeat split; lra
      | eexists _; exists 2%Z; split; [reflexivity|]; unfold inject_Z; repeat split; lra
      | eexists _; exists (-2)%Z; split; [reflexivity|]; unfold inject_Z; repeat split; lra ].
Qed.

Lemma degree_to_pmpi_range_witness :
  -(900) <= 700 /\ 700 <= 900 /\
  exists n k,
    degree_to_pmpi (R := example_radians) 700 = radians (Radians := example_radians) n /\
    -(180) <= n /\ n <= 180 /\ n == 700 + 360 * inject_Z k.
Proof.
  split; [lra|]. split; [lra|].
  apply (degree_to_pmpi_range (R := example_radians) 700); lra.
Defined.

(* ================================================================== *)
(** * Pruning: which candidates survive *)

Ltac bind_ok H :=
  repeat match type of H with
  | bind ?r _ = Ok _ =>
      let E := fresh "E" in
      destruct r eqn:E; cbn [bind] in H; [|discriminate H]
  end.

Lemma take_In {A : Type} (a : list A) (idxs : list nat) (r : list A) :
  np.take a idxs = Ok r ->
  forall x, In x r -> exists i, In i idxs /\ nth_error a i = Some x.
Proof.
  revert r. induction idxs as [|i0 idxs IH]; intros r E x Hx.
  - cbn in E. injection E as <-. contradiction.
  - cbn in E. destruct (nth_error a i0) as [y|] eqn:Ey; [|discriminate].
    destruct (np.take a idxs) as [r0|e] eqn:Er; [|discriminate].
    cbn in E. injection E as <-.
    destruct Hx as [<- | Hx].
    + exists i0. split; [now left | exact Ey].
    + destruct (IH r0 eq_refl x Hx) as (i & Hi & Hn).
      exists i. split; [now right | exact Hn].
Qed.

Lemma pruning_inversion {P : PySet} (trim : bool) (bins : list Q)
  (s s' : IsoBased) (log : list LogRecord) :
  pruning trim bins s = Ok (s', log) ->
  exists idxs,
    pruning_idxs trim bins s = Ok idxs /\ select_columns idxs s = Ok s' /\
    log = pruning_log (length idxs) s.
Proof.
  unfold pruning. destruct (pruning_idxs trim bins s) as [idxs|e]; [|discriminate].
  cbn [bind]. destruct (select_columns idxs s) as [s0|e] eqn:Es.
  - intro E. injection E as <- <-. exists idxs. auto.
  - destruct e; discriminate.
Qed.

Lemma select_columns_inversion (idxs : list nat) (s s' : IsoBased) :
  select_columns idxs s = Ok s' ->
  reindexed idxs s s' /\ count s' = count s /\ settings s' = settings s /\
  ends s' = ends s.
Proof.
  unfold select_columns, ShipParamsOps.select. intro H. bind_ok H.
  injection H as <-. split; [|cbn; auto].
  match goal with E : bind _ _ = Ok _ |- _ => bind_ok E; injection E as <- end.
  unfold reindexed. cbn. repeat split; assumption.
Qed.

Lemma where_from_In {A : Type} (p : A -> bool) (a : list A) (i k : nat) (x : A) :
  nth_error a k = Some x -> p x = true -> In (i + k)%nat (np.where_from p i a).
Proof.
  revert i k. induction a as [|y a IH]; intros i k Hk Hp; [now destruct k|].
  destruct k as [|k]; cbn in Hk.
  - injection Hk as ->. cbn. rewrite Hp, Nat.add_0_r. now left.
  - cbn. replace (i + S k)%nat with (S i + k)%nat by lia.
    destruct (p y); [right|]; now apply IH.
Qed.

Lemma where_from_In_inv {A : Type} (p : A -> bool) (a : list A) (i j : nat) :
  In j (np.where_from p i a) ->
  exists x, nth_error a (j - i) = Some x /\ p x = true.
Proof.
  revert i. induction a as [|y a IH]; intros i H; [contradiction|].
  cbn in H. destruct (p y) eqn:Ep.
  - destruct H as [<- | H].
    + exists y. now rewrite Nat.sub_diag.
    + pose proof (where_from_bound _ _ _ _ H) as Hb.
      destruct (IH (S i) H) as (x & Hx & Hpx). exists x. split; [|exact Hpx].
      now replace (j - i)%nat with (S (j - S i)) by lia.
  - pose proof (where_from_bound _ _ _ _ H) as Hb.
    destruct (IH (S i) H) as (x & Hx & Hpx). exists x. split; [|exact Hpx].
    now replace (j - i)%nat with (S (j - S i)) by lia.
Qed.

(** The index [trim] keeps for a bin is an index that the pass without
    [trim] keeps for it, and its progress is not 0. *)
Lemma trim_index_spec (full_dist : list Q) (bin_stat : list (option Q))
  (i j : nat) :
  In j (trim_index full_dist bin_stat i) ->
  exists m d,
    nth_error bin_stat i = Some (Some m) /\
    In j (np.where_ (fun x => Qeq_bool x m) full_dist) /\
    nth_error full_dist j = Some d /\ d == m /\ ~ d == 0.
Proof.
  unfold trim_index.
  destruct (nth_error bin_stat i) as [[m|]|]; try contradiction.
  destruct (Qeq_bool m 0) eqn:E0; [contradiction|].
  destruct (np.where_ (fun x => Qeq_bool x m) full_dist) as [|j0 rest] eqn:Ew;
    [contradiction|].
  intros [<- | []].
  destruct (where_from_In_inv (fun x => Qeq_bool x m) full_dist 0 j0)
    as (d & Hd & Hp).
  { fold (np.where_ (fun x => Qeq_bool x m) full_dist). rewrite Ew. now left. }
  rewrite Nat.sub_0_r in Hd. apply Qeq_bool_iff in Hp.
  exists m, d. split; [reflexivity|]. split; [rewrite Ew; now left|].
  split; [exact Hd|]. split; [exact Hp|].
  intro Hz. rewrite Hp in Hz. apply Qeq_bool_iff in Hz. congruence.
Qed.

Lemma pruning_idxs_trim_In {P : PySet} (bins : list Q) (s : IsoBased)
  (idxs : list nat) (j : nat) :
  pruning_idxs true bins s = Ok idxs -> In j idxs ->
  exists b i,
    scipy_stats.binned_statistic (current_variant (per_variant s))
      (full_dist_traveled (per_variant s)) bins = Ok b /\
    (i < length (scipy_stats.bin_edges b) - 1)%nat /\
    In j (trim_index (full_dist_traveled (per_variant s)) (scipy_stats.statistic b) i).
Proof.
  unfold pruning_idxs. intros H Hin.
  destruct (scipy_stats.binned_statistic _ _ bins) as [b|e] eqn:Eb; [|discriminate].
  cbn [bind] in H. injection H as <-.
  apply (proj1 (list_of_set_In _ _)) in Hin. apply in_flat_map in Hin.
  destruct Hin as (i & Hi & Hin). exists b, i. split; [reflexivity|].
  split; [|exact Hin].
  apply in_seq in Hi. lia.
Qed.

(** X8.  With [trim], no column with progress 0 survives a pruning pass: a
    candidate that the constraints blocked in the step is never kept. *)
Theorem pruning_trim_drops_blocked {P : PySet} (bins : list Q)
  (s s' : IsoBased) (log : list LogRecord) :
  pruning true bins s = Ok (s', log) ->
  Forall (fun d => ~ d == 0) (full_dist_traveled (per_variant s')).
Proof.
  intro H. apply pruning_inversion in H.
  destruct H as (idxs & Ei & Es & _).
  apply select_columns_inversion in Es. destruct Es as [Hr _].
  destruct Hr as (_ & _ & _ & _ & _ & _ & _ & _ & _ & _ & _ & Hfd & _).
  apply Forall_forall. intros x Hx.
  destruct (take_In _ _ _ Hfd x Hx) as (j & Hj & Hn).
  destruct (pruning_idxs_trim_In bins s idxs j Ei Hj) as (b & i & _ & _ & Ht).
  apply trim_index_spec in Ht. destruct Ht as (m & d & _ & _ & Hd & _ & Hnz).
  rewrite Hn in Hd. injection Hd as ->. exact Hnz.
Qed.

Lemma pruning_trim_drops_blocked_witness :
  exists s' log,
    pruning (P := example_set) true [0; 90; 180] example_front = Ok (s', log) /\
    current_variant (per_variant s') = [45; 100] /\
    Forall (fun d => ~ d == 0) (full_dist_traveled (per_variant s')).
Proof.
  destruct (pruning (P := example_set) true [0; 90; 180] example_front)
    as [[s' log]|e] eqn:E; [|vm_compute in E; discriminate].
  exists s', log. split; [reflexivity|]. split.
  - vm_compute in E. injection E as <- _. reflexivity.
  - exact (pruning_trim_drops_blocked [0; 90; 180] example_front s' log E).
Defined.

Lemma statistic_length (x values bins : list Q)
  (b : scipy_stats.BinnedStatisticResult) :
  scipy_stats.binned_statistic x values bins = Ok b ->
  length (scipy_stats.statistic b) = (length (scipy_stats.bin_edges b) - 1)%nat.
Proof.
  intro E. apply binned_statistic_inv in E. destruct E as (_ & _ & _ & _ & ->).
  now rewrite length_map, length_seq.
Qed.

Lemma bin_stat_nth (x values bins : list Q) (b : scipy_stats.BinnedStatisticResult)
  (i : nat) :
  scipy_stats.binned_statistic x values bins = Ok b ->
  (i < length (scipy_stats.bin_edges b) - 1)%nat ->
  nth_error (scipy_stats.statistic b) i =
    Some (np.nanmax (scipy_stats.bin_values x values (scipy_stats.bin_edges b) i)).
Proof.
  intros E Hi. apply binned_statistic_inv in E.
  destruct E as (_ & _ & _ & _ & ->).
  rewrite nth_error_map, nth_error_seq.
  destruct (Nat.ltb_spec i (length (scipy_stats.bin_edges b) - 1));
    [reflexivity | lia].
Qed.

Lemma bin_stat_nth_inv (x values bins : list Q)
  (b : scipy_stats.BinnedStatisticResult) (i : nat) (st : option Q) :
  scipy_stats.binned_statistic x values bins = Ok b ->
  nth_error (scipy_stats.statistic b) i = Some st ->
  st = np.nanmax (scipy_stats.bin_values x values (scipy_stats.bin_edges b) i).
Proof.
  intros E Hst.
  assert (Hi : (i < length (scipy_stats.bin_edges b) - 1)%nat).
  { rewrite <- (statistic_length x values bins b E).
    apply nth_error_Some. congruence. }
  rewrite (bin_stat_nth x values bins b i E Hi) in Hst. congruence.
Qed.

Lemma flat_map_nil {A B : Type} (f : A -> list B) (l : list A) :
  (forall x, In x l -> f x = []) -> flat_map f l = [].
Proof.
  induction l as [|x l IH]; intro H; [reflexivity|].
  cbn. rewrite (H x (or_introl eq_refl)), IH; [reflexivity|].
  intros y Hy. apply H. now right.
Qed.

Lemma list_of_set_nil {P : PySet} : list_of_set [] = [].
Proof.
  destruct (list_of_set []) as [|x l] eqn:E; [reflexivity|].
  exfalso. apply (proj1 (list_of_set_In [] x)). rewrite E. now left.
Qed.

(** X9.  When every candidate has progress 0 (all of them blocked), a pass
    with [trim] whose edges [binned_statistic] accepts keeps no column at
    all: it returns normally, with the error logged, and leaves every
    container and vector empty. *)
Theorem pruning_all_blocked {P : PySet} (bins : list Q) (s : IsoBased) (N : nat)
  (b : scipy_stats.BinnedStatisticResult) :
  wide s N -> length (current_variant (per_variant s)) = N ->
  Forall (fun d => d == 0) (full_dist_traveled (per_variant s)) ->
  scipy_stats.binned_statistic (current_variant (per_variant s))
    (full_dist_traveled (per_variant s)) bins = Ok b ->
  exists s',
    pruning true bins s =
      Ok (s', [LogError "All pruning segments fully constrained"]) /\
    wide s' 0 /\ current_variant (per_variant s') = [] /\ count s' = count s.
Proof.
  intros Hw Lcv Hz Eb.
  assert (Ei : pruning_idxs true bins s = Ok []).
  { unfold pruning_idxs. rewrite Eb. cbn [bind].
    rewrite flat_map_nil; [now rewrite list_of_set_nil|].
    intros i _. unfold trim_index.
    destruct (nth_error (scipy_stats.statistic b) i) as [[m|]|] eqn:Est;
      try reflexivity.
    apply (bin_stat_nth_inv _ _ _ _ _ _ Eb) in Est. symmetry in Est.
    apply nanmax_spec in Est. destruct Est as [Hin _].
    apply in_bin_values in Hin. destruct Hin as (k & h & _ & Hk & _).
    apply nth_error_In in Hk.
    rewrite Forall_forall in Hz. specialize (Hz m Hk).
    apply Qeq_bool_iff in Hz. now rewrite Hz. }
  destruct (select_columns_ok [] s N Hw Lcv) as (s' & Es & _ & Hw' & Lcv' & Hc & _).
  { intros i []. }
  exists s'. unfold pruning. rewrite Ei. cbn [bind]. rewrite Es.
  split; [reflexivity|]. split; [exact Hw'|]. split; [|exact Hc].
  destruct (current_variant (per_variant s')); [reflexivity | discriminate].
Qed.

Lemma pruning_all_blocked_witness :
  wide example_all_blocked 3 /\
  exists b s',
    scipy_stats.binned_statistic
      (current_variant (per_variant example_all_blocked))
      (full_dist_traveled (per_variant example_all_blocked)) [0; 90; 180]
      = Ok b /\
    pruning (P := example_set) true [0; 90; 180] example_all_blocked =
      Ok (s', [LogError "All pruning segments fully constrained"]) /\
    lats_per_step (per_step s') = [[]; []].
Proof.
  assert (Hw : wide example_all_blocked 3).
  { unfold wide, cols. cbn. repeat split; repeat constructor. }
  split; [exact Hw|].
  destruct (scipy_stats.binned_statistic
              (current_variant (per_variant example_all_blocked))
              (full_dist_traveled (per_variant example_all_blocked))
              [0; 90; 180]) as [b|e] eqn:Eb; [|vm_compute in Eb; discriminate].
  destruct (@pruning_all_blocked example_set [0; 90; 180] example_all_blocked 3
              b Hw eq_refl) as (s' & E & _).
  { repeat constructor. }
  { exact Eb. }
  exists b, s'. split; [reflexivity|]. split; [exact E|].
  vm_compute in E. injection E as <-. reflexivity.
Defined.

Lemma notrim_indices_In (full_dist : list Q) (bin_stat : list (option Q))
  (rounds idxs : list nat) (i j : nat) (m : Q) :
  notrim_indices full_dist bin_stat rounds = Ok idxs ->
  In i rounds -> nth_error bin_stat i = Some (Some m) ->
  In j (np.where_ (fun x => Qeq_bool x m) full_dist) -> In j idxs.
Proof.
  revert idxs. induction rounds as [|i0 rounds IH]; intros idxs E Hi Hst Hj;
    [contradiction|].
  cbn in E. destruct (nth_error bin_stat i0) as [st|] eqn:Est; [|discriminate].
  destruct (notrim_indices full_dist bin_stat rounds) as [more|e]; [|discriminate].
  cbn in E. injection E as <-. apply in_or_app.
  destruct Hi as [-> | Hi].
  - left. rewrite Hst in Est. injection Est as <-. exact Hj.
  - right. now apply (IH more eq_refl).
Qed.

(** X10.  Whatever [trim] keeps, the pass without [trim] keeps as well. *)
Theorem pruning_trim_within_notrim {P : PySet} (bins : list Q) (s : IsoBased)
  (kept : list nat) :
  pruning_idxs true bins s = Ok kept ->
  exists every,
    pruning_idxs false bins s = Ok every /\ incl kept every.
Proof.
  intro Ht.
  assert (Hall : forall j, In j kept ->
            exists b i, scipy_stats.binned_statistic (current_variant (per_variant s))
                          (full_dist_traveled (per_variant s)) bins = Ok b /\
                        (i < length (scipy_stats.bin_edges b) - 1)%nat /\
                        In j (trim_index (full_dist_traveled (per_variant s))
                                (scipy_stats.statistic b) i)).
  { intros j Hj. exact (pruning_idxs_trim_In bins s kept j Ht Hj). }
  unfold pruning_idxs in *.
  destruct (scipy_stats.binned_statistic _ _ bins) as [b|e] eqn:Eb; [|discriminate].
  cbn [bind] in *.
  pose proof (statistic_length _ _ _ _ Eb) as Lb.
  destruct (notrim_indices_ok (full_dist_traveled (per_variant s))
              (scipy_stats.statistic b)
              (seq 0 (length (scipy_stats.bin_edges b) - 1))) as (idxs & En & _).
  { intros i Hi. apply in_seq in Hi. lia. }
  rewrite En. cbn [bind]. eexists. split; [reflexivity|].
  intros j Hj. apply (proj2 (list_of_set_In _ _)).
  destruct (Hall j Hj) as (b0 & i & Eb0 & Hi & Hin).
  injection Eb0 as <-.
  apply trim_index_spec in Hin. destruct Hin as (m & d & Hst & Hw & _).
  apply (notrim_indices_In _ _ _ _ i j m En); [|exact Hst|exact Hw].
  apply in_seq. lia.
Qed.

Lemma pruning_trim_within_notrim_witness :
  exists kept every,
    pruning_idxs (P := example_set) true [0; 90; 180] example_three = Ok kept /\
    pruning_idxs (P := example_set) false [0; 90; 180] example_three = Ok every /\
    incl kept every /\ length kept = 1%nat /\ length every = 3%nat.
Proof.
  destruct (pruning_idxs (P := example_set) true [0; 90; 180] example_three)
    as [kept|e] eqn:Et; [|vm_compute in Et; discriminate].
  destruct (pruning_trim_within_notrim (P := example_set) [0; 90; 180]
              example_three kept Et) as (every & Ef & Hincl).
  exists kept, every. split; [reflexivity|]. split; [exact Ef|].
  split; [exact Hincl|].
  vm_compute in Et. injection Et as <-.
  vm_compute in Ef. injection Ef as <-. split; reflexivity.
Defined.

Lemma in_bin_round (edges : list Q) (i : nat) (h : Q) :
  scipy_stats.in_bin edges i h = true -> (i < length edges - 1)%nat.
Proof.
  unfold scipy_stats.in_bin.
  destruct (nth_error edges i); [|discriminate].
  destruct (nth_error edges (S i)) eqn:E; [|discriminate].
  intros _. assert (S i < length edges)%nat; [|lia].
  apply nth_error_Some. congruence.
Qed.

Lemma nanmax_bounds (l : list Q) (d : Q) :
  In d l -> exists m, np.nanmax l = Some m /\ In m l /\ forall y, In y l -> y <= m.
Proof.
  intro Hd. destruct (np.nanmax l) as [m|] eqn:E.
  - exists m. split; [reflexivity|]. now apply nanmax_spec.
  - destruct l; [contradiction | discriminate].
Qed.

(** X11.  A pruning pass does not lose the front of a sector.  For a bin that
    holds a candidate (with [trim]: one of progress above 0), a column
    survives whose progress is at least that of every candidate heading into
    the bin. *)
Theorem pruning_keeps_front {P : PySet} (trim : bool) (bins : list Q)
  (s s' : IsoBased) (log : list LogRecord) (i j : nat) (h d : Q) :
  pruning trim bins s = Ok (s', log) ->
  nth_error (current_variant (per_variant s)) j = Some h ->
  nth_error (full_dist_traveled (per_variant s)) j = Some d ->
  scipy_stats.in_bin bins i h = true ->
  (trim = true -> 0 < d) ->
  exists k d',
    nth_error (full_dist_traveled (per_variant s')) k = Some d' /\
    forall j2 h2 d2,
      nth_error (current_variant (per_variant s)) j2 = Some h2 ->
      nth_error (full_dist_traveled (per_variant s)) j2 = Some d2 ->
      scipy_stats.in_bin bins i h2 = true -> d2 <= d'.
Proof.
  intros H Hh Hd Hb Hpos. apply pruning_inversion in H.
  destruct H as (idxs & Ei & Es & _).
  apply select_columns_inversion in Es. destruct Es as [Hr _].
  destruct Hr as (_ & _ & _ & _ & _ & _ & _ & _ & _ & _ & _ & Hfd & _).
  set (cv := current_variant (per_variant s)) in *.
  set (fd := full_dist_traveled (per_variant s)) in *.
  pose proof (in_bin_round bins i h Hb) as Hi.
  assert (Hin : In d (scipy_stats.bin_values cv fd bins i)).
  { apply in_bin_values. exists j, h. auto. }
  destruct (nanmax_bounds _ d Hin) as (m & Em & Hm & Hmax).
  apply in_bin_values in Hm. destruct Hm as (km & hm & _ & Hkm & _).
  assert (Hw : In km (np.where_ (fun x => Qeq_bool x m) fd)).
  { apply (where_from_In (fun x => Qeq_bool x m) fd 0 km m Hkm).
    apply Qeq_bool_refl. }
  assert (Hkeep : exists j0 d0, In j0 idxs /\ nth_error fd j0 = Some d0 /\ d0 == m).
  { unfold pruning_idxs in Ei. fold cv fd in Ei.
    destruct (scipy_stats.binned_statistic cv fd bins) as [b|e] eqn:Eb; [|discriminate].
    cbn [bind] in Ei.
    assert (Ee : scipy_stats.bin_edges b = bins).
    { pose proof (binned_statistic_inv _ _ _ _ Eb) as (_ & Hedges & _).
      apply (bin_edges_explicit cv bins _ Hedges). lia. }
    pose proof (bin_stat_nth cv fd bins b i Eb) as Hst.
    rewrite Ee in Hst, Ei. specialize (Hst Hi). rewrite Em in Hst.
    assert (Hround : In i (seq 0 (length bins - 1))) by (apply in_seq; lia).
    destruct trim.
    - injection Ei as <-.
      assert (Hnz : Qeq_bool m 0 = false).
      { destruct (Qeq_bool m 0) eqn:E0; [|reflexivity].
        apply Qeq_bool_iff in E0. specialize (Hpos eq_refl).
        specialize (Hmax d Hin). rewrite E0 in Hmax.
        exfalso. exact (Qlt_not_le _ _ Hpos Hmax). }
      destruct (np.where_ (fun x => Qeq_bool x m) fd) as [|j0 rest] eqn:Ew;
        [contradiction|].
      destruct (where_from_In_inv (fun x => Qeq_bool x m) fd 0 j0)
        as (d0 & Hd0 & Hp).
      { fold (np.where_ (fun x => Qeq_bool x m) fd). rewrite Ew. now left. }
      rewrite Nat.sub_0_r in Hd0. apply Qeq_bool_iff in Hp.
      exists j0, d0. split; [|split; assumption].
      apply (proj2 (list_of_set_In _ _)). apply in_flat_map.
      exists i. split; [exact Hround|].
      unfold trim_index. rewrite Hst, Hnz, Ew. now left.
    - destruct (notrim_indices fd (scipy_stats.statistic b)
                  (seq 0 (length bins - 1))) as [all|e] eqn:En; [|discriminate].
      cbn [bind] in Ei. injection Ei as <-.
      exists km, m. split; [|split; [exact Hkm | reflexivity]].
      apply (proj2 (list_of_set_In _ _)).
      exact (notrim_indices_In _ _ _ _ i km m En Hround Hst Hw). }
  destruct Hkeep as (j0 & d0 & Hj0 & Hd0 & Hq).
  apply In_nth_error in Hj0. destruct Hj0 as [k Hk].
  exists k, d0. split.
  - rewrite (take_nth _ _ _ Hfd k j0 Hk). exact Hd0.
  - intros j2 h2 d2 Hh2 Hd2 Hb2. rewrite Hq. apply Hmax.
    apply in_bin_values. exists j2, h2. auto.
Qed.

Lemma pruning_keeps_front_witness :
  exists s' log k d',
    pruning (P := example_set) true [0; 90; 180] example_front = Ok (s', log) /\
    nth_error (full_dist_traveled (per_variant s')) k = Some d' /\ 3 <= d'.
Proof.
  destruct (pruning (P := example_set) true [0; 90; 180] example_front)
    as [[s' log]|e] eqn:E; [|vm_compute in E; discriminate].
  destruct (pruning_keeps_front (P := example_set) true [0; 90; 180]
              example_front s' log 1 2 100 3 E eq_refl eq_refl eq_refl)
    as (k & d' & Hk & Hmax).
  { intros _. reflexivity. }
  exists s', log, k, d'. split; [reflexivity|]. split; [exact Hk|].
  apply (Hmax 2%nat 100 3); reflexivity.
Defined.

(* ================================================================== *)
(** * Theorems: the bounds of a pruning pass *)

Lemma where_In_iff (m : Q) (full_dist : list Q) (j : nat) :
  In j (np.where_ (fun x => Qeq_bool x m) full_dist) <->
  exists d, nth_error full_dist j = Some d /\ d == m.
Proof.
  split.
  - intro H.
    destruct (where_from_In_inv (fun x => Qeq_bool x m) full_dist 0 j H)
      as (d & Hd & Hp).
    rewrite Nat.sub_0_r in Hd. apply Qeq_bool_iff in Hp. eauto.
  - intros (d & Hd & Hq).
    apply (where_from_In (fun x => Qeq_bool x m) full_dist 0 j d Hd).
    now apply Qeq_bool_iff.
Qed.

Lemma notrim_indices_In_inv (full_dist : list Q) (bin_stat : list (option Q))
  (rounds idxs : list nat) (j : nat) :
  notrim_indices full_dist bin_stat rounds = Ok idxs -> In j idxs ->
  exists i m,
    In i rounds /\ nth_error bin_stat i = Some (Some m) /\
    In j (np.where_ (fun x => Qeq_bool x m) full_dist).
Proof.
  revert idxs. induction rounds as [|i0 rounds IH]; intros idxs E Hj.
  - cbn in E. injection E as <-. contradiction.
  - cbn in E. destruct (nth_error bin_stat i0) as [st|] eqn:Est; [|discriminate].
    destruct (notrim_indices full_dist bin_stat rounds) as [more|e]; [|discriminate].
    cbn in E. injection E as <-. apply in_app_or in Hj.
    destruct Hj as [Hj | Hj].
    + destruct st as [m|]; [|contradiction].
      exists i0, m. split; [now left|]. split; assumption.
    + destruct (IH more eq_refl Hj) as (i & m & Hi & Hst & Hw).
      exists i, m. split; [now right|]. split; assumption.
Qed.

Lemma pruning_idxs_ok {P : PySet} (trim : bool) (bins : list Q) (s : IsoBased)
  (b : scipy_stats.BinnedStatisticResult) :
  scipy_stats.binned_statistic (current_variant (per_variant s))
    (full_dist_traveled (per_variant s)) bins = Ok b ->
  exists idxs,
    pruning_idxs trim bins s = Ok idxs /\ NoDup idxs /\
    (forall i, In i idxs ->
       (i < length (full_dist_traveled (per_variant s)))%nat) /\
    (trim = true ->
     (length idxs <= length (scipy_stats.bin_edges b) - 1)%nat) /\
    (trim = false ->
     forall j, In j idxs <->
       exists i m d,
         nth_error (scipy_stats.statistic b) i = Some (Some m) /\
         nth_error (full_dist_traveled (per_variant s)) j = Some d /\ d == m).
Proof.
  intro Eb. unfold pruning_idxs. rewrite Eb. cbn [bind].
  pose proof (statistic_length _ _ _ _ Eb) as Lb.
  destruct trim.
  - eexists. split; [reflexivity|]. split; [apply list_of_set_NoDup|].
    split; [|split; [|discriminate]].
    + intros i Hin. apply (proj1 (list_of_set_In _ _)) in Hin.
      apply in_flat_map in Hin. destruct Hin as (r & _ & Hin).
      now apply trim_index_bound in Hin.
    + intros _.
      set (X := flat_map _ _).
      apply (Nat.le_trans _ (length X)).
      * apply NoDup_incl_length; [apply list_of_set_NoDup|].
        intros i Hin. exact (proj1 (list_of_set_In _ _) Hin).
      * unfold X.
        etransitivity; [apply flat_map_length_le, trim_index_length|].
        now rewrite length_seq.
  - destruct (notrim_indices_ok (full_dist_traveled (per_variant s))
                (scipy_stats.statistic b)
                (seq 0 (length (scipy_stats.bin_edges b) - 1)))
      as (idxs & Ei & Hb).
    { intros i Hin. apply in_seq in Hin. lia. }
    rewrite Ei. cbn [bind]. eexists. split; [reflexivity|].
    split; [apply list_of_set_NoDup|]. split; [|split; [discriminate|]].
    + intros i Hin. now apply (proj1 (list_of_set_In _ _)), Hb in Hin.
    + intros _ j. rewrite list_of_set_In. split.
      * intro Hj.
        destruct (notrim_indices_In_inv _ _ _ _ j Ei Hj) as (i & m & _ & Hst & Hw).
        apply where_In_iff in Hw. destruct Hw as (d & Hd & Hq).
        exists i, m, d. auto.
      * intros (i & m & d & Hst & Hd & Hq).
        apply (notrim_indices_In _ _ _ _ i j m Ei).
        -- apply in_seq. rewrite <- Lb.
           assert (i < length (scipy_stats.statistic b))%nat; [|lia].
           apply nth_error_Some. congruence.
        -- exact Hst.
        -- apply where_In_iff. eauto.
Qed.

(** C7, as the code has it.  On a state whose containers are all [N]
    columns wide, and with edges that [binned_statistic] accepts, a pruning
    pass returns and keeps the columns [idxs], a duplicate-free list of
    existing column indices: every per-step container and every
    per-candidate vector of the result is the old one indexed with [idxs].
    Hence the result is never wider than the input.  With [trim] it has at
    most one column per bin of the result, which is at most [prune_segments]
    for the [prune_segments + 1] edges of [pruning_gcr_centered] when
    [prune_segments] is 1 at least (a single edge is read as a number of
    bins).  Without [trim] the columns kept are exactly those whose progress
    equals the largest progress of some bin. *)
Theorem pruning_bounds {P : PySet} (trim : bool) (bins : list Q)
  (s : IsoBased) (N : nat) (b : scipy_stats.BinnedStatisticResult) :
  wide s N -> length (current_variant (per_variant s)) = N ->
  scipy_stats.binned_statistic (current_variant (per_variant s))
    (full_dist_traveled (per_variant s)) bins = Ok b ->
  exists idxs s' log,
    pruning trim bins s = Ok (s', log) /\
    pruning_idxs trim bins s = Ok idxs /\
    NoDup idxs /\ (forall i, In i idxs -> (i < N)%nat) /\
    reindexed idxs s s' /\
    wide s' (length idxs) /\
    (length idxs <= N)%nat /\
    (trim = true ->
     (length idxs <= length (scipy_stats.bin_edges b) - 1)%nat /\
     ((1 <= prune_segments (settings s))%Z ->
      Z.of_nat (length bins) = (prune_segments (settings s) + 1)%Z ->
      (Z.of_nat (length idxs) <= prune_segments (settings s))%Z)) /\
    (trim = false ->
     forall j, In j idxs <->
       exists i m d,
         nth_error (scipy_stats.statistic b) i = Some (Some m) /\
         nth_error (full_dist_traveled (per_variant s)) j = Some d /\ d == m).
Proof.
  intros Hw Lcv Eb.
  assert (Lfd : length (full_dist_traveled (per_variant s)) = N).
  { destruct Hw as (_ & _ & _ & _ & _ & _ & _ & _ & _ & H & _). exact H. }
  destruct (pruning_idxs_ok trim bins s b Eb)
    as (idxs & Ei & Hnd & Hb & Ht & Hf).
  rewrite Lfd in Hb.
  destruct (select_columns_ok idxs s N Hw Lcv Hb) as (s' & Es & Hr & Hw' & _).
  exists idxs, s', (pruning_log (length idxs) s).
  unfold pruning. rewrite Ei. cbn [bind]. rewrite Es.
  split; [reflexivity|]. split; [reflexivity|]. split; [exact Hnd|].
  split; [exact Hb|]. split; [exact Hr|]. split; [exact Hw'|].
  split; [now apply NoDup_bounded_length|]. split; [|exact Hf].
  intro Htrim. specialize (Ht Htrim). split; [exact Ht|].
  intros Hps Hbins.
  pose proof (binned_statistic_inv _ _ _ _ Eb) as (_ & Hedges & _).
  rewrite (bin_edges_explicit _ bins _ Hedges) in Ht by lia. lia.
Qed.

Lemma pruning_bounds_witness :
  wide example_three 3 /\
  exists bins b idxs s',
    gcr_centered_bins (G := example_geod) example_three = Ok bins /\
    scipy_stats.binned_statistic (current_variant (per_variant example_three))
      (full_dist_traveled (per_variant example_three)) bins = Ok b /\
    pruning_idxs (P := example_set) true bins example_three = Ok idxs /\
    reindexed idxs example_three s' /\
    (Z.of_nat (length idxs) <= 2)%Z /\
    idxs = [0%nat].
Proof.
  split; [exact example_three_wide|].
  destruct (gcr_centered_bins (G := example_geod) example_three)
    as [bins|e] eqn:Eg; [|vm_compute in Eg; discriminate].
  pose proof Eg as Vg. vm_compute in Vg. injection Vg as Vg.
  destruct (scipy_stats.binned_statistic
              (current_variant (per_variant example_three))
              (full_dist_traveled (per_variant example_three)) bins)
    as [b|e] eqn:Eb; [|rewrite <- Vg in Eb; vm_compute in Eb; discriminate].
  destruct (@pruning_bounds example_set true bins example_three 3 b
              example_three_wide eq_refl Eb)
    as (idxs & s' & log & _ & Ei & _ & _ & Hr & _ & _ & Hseg & _).
  exists bins, b, idxs, s'. split; [reflexivity|]. split; [exact Eb|].
  split; [exact Ei|]. split; [exact Hr|]. split.
  - destruct (Hseg eq_refl) as [_ Hps].
    apply Hps; [cbn; lia | rewrite <- Vg; reflexivity].
  - rewrite <- Vg in Ei. vm_compute in Ei. injection Ei as <-. reflexivity.
Defined.

(** With [prune_segments = 0] the single value that
    [pruning_gcr_centered] hands to [pruning] is read as a number of bins:
    a pass with [trim] keeps a column, and nothing is logged. *)
Lemma pruning_zero_segments_keeps_column :
  gcr_centered_bins (G := example_geod) example_zero_segments = Ok [180] /\
  exists s',
    pruning_gcr_centered (G := example_geod) (P := example_set) true
      example_zero_segments = Ok (s', []) /\
    current_variant (per_variant s') = [45].
Proof.
  split; [reflexivity|].
  destruct (pruning_gcr_centered (G := example_geod) (P := example_set) true
              example_zero_segments) as [[s' log]|e] eqn:E;
    [|vm_compute in E; discriminate].
  vm_compute in E. injection E as <- <-.
  eexists. split; reflexivity.
Qed.

(* ================================================================== *)
(** * The pruning sector *)

Lemma insert_sorted_last (x : Q) (a : list Q) :
  Forall (fun y => y < x) a -> np.insert_sorted x a = a ++ [x].
Proof.
  induction 1 as [|y a Hy _ IH]; [reflexivity|].
  cbn. destruct (Qle_bool x y) eqn:E.
  - apply Qle_bool_iff in E. exfalso. exact (Qlt_not_le _ _ Hy E).
  - now rewrite IH.
Qed.

Lemma sort_descending (l : list Q) :
  StronglySorted (fun a b => b < a) l -> np.sort l = rev l.
Proof.
  unfold np.sort. induction 1 as [|x l _ IH Hx]; [reflexivity|].
  cbn [fold_right rev]. rewrite IH. apply insert_sorted_last.
  apply Forall_rev. exact Hx.
Qed.

Lemma map_seq_sorted (R : Q -> Q -> Prop) (g : nat -> Q) (a n : nat) :
  (forall i j, (a <= i < j)%nat -> (j < a + n)%nat -> R (g i) (g j)) ->
  StronglySorted R (map g (seq a n)).
Proof.
  revert a. induction n as [|n IH]; intros a H; [constructor|].
  cbn. constructor.
  - apply IH. intros i j Hij Hj. apply H; lia.
  - apply Forall_forall. intros y Hy. apply in_map_iff in Hy.
    destruct Hy as (j & <- & Hj). apply in_seq in Hj. apply H; lia.
Qed.

Lemma combine_repeat {A B : Type} (x : A) (l : list B) :
  combine (List.repeat x (length l)) l = map (fun y => (x, y)) l.
Proof. induction l as [|y l IH]; [reflexivity|]. cbn. now rewrite IH. Qed.

(** X12.  The bin edges that [pruning_gcr_centered] hands to [pruning] are
    ascending and evenly spaced: [prune_segments] sectors of equal width
    that cover the range from [prune_sector_deg_half] below the symmetry
    axis to [prune_sector_deg_half] above it. *)
Theorem gcr_centered_bins_sector {G : Geod} (s : IsoBased) (bins : list Q)
  (mean_dist : Q) :
  gcr_centered_bins s = Ok bins ->
  np.mean (full_dist_traveled (per_variant s)) = Ok mean_dist ->
  (0 < prune_segments (settings s))%Z ->
  0 < prune_sector_deg_half (settings s) ->
  length bins = Z.to_nat (prune_segments (settings s) + 1) /\
  forall k, (k <= Z.to_nat (prune_segments (settings s)))%nat ->
    exists edge,
      nth_error bins k = Some edge /\
      edge == pruning_axis s mean_dist - prune_sector_deg_half (settings s)
              + inject_Z (Z.of_nat k)
                * (2 * prune_sector_deg_half (settings s)
                   / inject_Z (prune_segments (settings s))).
Proof.
  intros E Emean Hseg Hhalf. unfold gcr_centered_bins in E.
  rewrite Emean in E. cbn [bind] in E. unfold geod_direct, geod_inverse in E.
  cbn [direct_triples bind map lat2 lon2 inverse_pairs azi1] in E.
  rewrite repeat_ok in E by lia. cbn [bind] in E.
  rewrite linspace_ok in E by lia. cbn [bind] in E.
  fold (pruning_axis s mean_dist) in E.
  set (axis := pruning_axis s mean_dist) in *.
  set (half := prune_sector_deg_half (settings s)) in *.
  set (segs := prune_segments (settings s)) in *.
  set (n := Z.to_nat (segs + 1)) in *.
  unfold np.sub in E. rewrite zip_with_ok in E.
  2:{ rewrite repeat_each_length, length_map, length_seq. cbn. lia. }
  cbn [bind] in E. injection E as <-.
  set (f := fun i : nat => - half + inject_Z (Z.of_nat i) *
                            ((half - - half) / inject_Z (segs + 1 - 1))) in *.
  rewrite app_nil_r.
  replace (List.repeat axis n) with (List.repeat axis (length (map f (seq 0 n))))
    by (now rewrite length_map, length_seq).
  rewrite combine_repeat, map_map. cbn [fst snd].
  set (g := fun i : nat => axis - f i).
  assert (Hmap : map (fun x : Q => axis - x) (map f (seq 0 n)) = map g (seq 0 n)).
  { now rewrite map_map. }
  rewrite Hmap.
  assert (Hsegs : ~ inject_Z segs == 0).
  { intro H0. change 0 with (inject_Z 0) in H0.
    apply (proj1 (inject_Z_injective _ _)) in H0. lia. }
  assert (Hstep : forall i, g i == axis + half
                    - inject_Z (Z.of_nat i) * (2 * half / inject_Z segs)).
  { intro i. unfold g, f. replace (segs + 1 - 1)%Z with segs by lia. field. exact Hsegs. }
  assert (Hpos : 0 < 2 * half / inject_Z segs).
  { apply Qlt_shift_div_l.
    - change 0 with (inject_Z 0). rewrite <- Zlt_Qlt. exact Hseg.
    - rewrite Qmult_0_l. lra. }
  rewrite sort_descending.
  2:{ apply map_seq_sorted. intros i j Hij _. rewrite !Hstep.
      assert (Hlt : inject_Z (Z.of_nat i) < inject_Z (Z.of_nat j)).
      { rewrite <- Zlt_Qlt. lia. }
      assert (Hm : inject_Z (Z.of_nat i) * (2 * half / inject_Z segs)
                   < inject_Z (Z.of_nat j) * (2 * half / inject_Z segs)).
      { apply Qmult_lt_compat_r; assumption. }
      lra. }
  split; [now rewrite length_rev, length_map, length_seq|].
  intros k Hk. exists (g (n - 1 - k)%nat). split.
  - rewrite nth_error_rev, length_map, length_seq.
    destruct (Nat.ltb_spec k n); [|unfold n in *; lia].
    rewrite nth_error_map, nth_error_seq.
    replace (n - S k)%nat with (n - 1 - k)%nat by lia.
    destruct (Nat.ltb_spec (n - 1 - k) n); [reflexivity | lia].
  - rewrite Hstep.
    replace (Z.of_nat (n - 1 - k)) with (segs - Z.of_nat k)%Z by (unfold n; lia).
    unfold Zminus. rewrite inject_Z_plus, inject_Z_opp. field. exact Hsegs.
Qed.

Lemma gcr_centered_bins_sector_witness :
  exists bins edge,
    gcr_centered_bins (G := example_geod) example_three = Ok bins /\
    length bins = 3%nat /\ nth_error bins 2 = Some edge /\ edge == 180.
Proof.
  destruct (gcr_centered_bins (G := example_geod) example_three)
    as [bins|e] eqn:E; [|vm_compute in E; discriminate].
  destruct (np.mean (full_dist_traveled (per_variant example_three)))
    as [mean_dist|e] eqn:Em; [|vm_compute in Em; discriminate].
  destruct (gcr_centered_bins_sector (G := example_geod) example_three bins
              mean_dist E Em) as [Hlen Hedges].
  { reflexivity. }
  { reflexivity. }
  destruct (Hedges 2%nat) as (edge & Hk & He); [cbn; lia|].
  exists bins, edge. split; [reflexivity|]. split; [exact Hlen|].
  split; [exact Hk|]. rewrite He. reflexivity.
Defined.

(* ================================================================== *)
(** * The whole step on the class itself *)

(** X13.  With the bindings that class [IsoBased] itself resolves, a call of
    [move_boat_direct] never returns normally, whatever the state, the
    weather, the ship and the constraints are. *)
Theorem move_boat_direct_never_completes {G : Geod} {W : WeatherCond}
  {B : Boat} {C : ConstraintsList} (s : IsoBased) :
  raises (move_boat_direct IsoBased_methods s).
Proof.
  unfold raises, move_boat_direct, relative_wind.
  destruct (get_wind_functions s) as [winds|e]; cbn; eexists; reflexivity.
Qed.

(* ================================================================== *)
(** * The shape of every reachable state *)

Lemma vstack_inv {A : Type} (row : list A) (m m' : matrix A) :
  np.vstack row m = Ok m' -> m' = row :: m /\ length row = np.shape1 m.
Proof.
  unfold np.vstack. destruct (Nat.eqb_spec (length row) (np.shape1 m));
    [|discriminate].
  intro E. injection E as <-. auto.
Qed.

Lemma repeat_axis1_inv {A : Type} (m m' : matrix A) (k : Z) :
  np.repeat_axis1 m k = Ok m' -> m' = map (np.repeat_each (Z.to_nat k)) m.
Proof.
  unfold np.repeat_axis1. destruct (k <? 0)%Z; [discriminate|].
  intro E. now injection E as <-.
Qed.

Lemma repeat_inv {A : Type} (a a' : list A) (k : Z) :
  np.repeat a k = Ok a' -> a' = np.repeat_each (Z.to_nat k) a.
Proof.
  unfold np.repeat. destruct (k <? 0)%Z; [discriminate|].
  intro E. now injection E as <-.
Qed.

Lemma inverse_pairs_length {G : Geod} (la1 lo1 la2 lo2 : list Q)
  (r : list (Q * Q)) :
  inverse_pairs la1 lo1 la2 lo2 = Ok r -> length r = length la2.
Proof.
  revert lo1 la2 lo2 r.
  induction la1 as [|a la1 IH]; intros lo1 la2 lo2 r E.
  - destruct lo1, la2, lo2; try discriminate. now injection E as <-.
  - destruct lo1 as [|b lo1], la2 as [|c la2], lo2 as [|d lo2]; try discriminate.
    cbn in E. destruct (inverse_pairs la1 lo1 la2 lo2) as [r0|e] eqn:E0;
      [|discriminate].
    cbn in E. injection E as <-. cbn. now rewrite (IH _ _ _ _ E0).
Qed.

Lemma mask_assign_length {A : Type} (a : list A) (mask : list bool) (v : A)
  (r : list A) :
  np.mask_assign a mask v = Ok r -> length r = length a.
Proof.
  unfold np.mask_assign.
  destruct (Nat.eqb_spec (length mask) (length a)); [|discriminate].
  intro E. injection E as <-. rewrite length_map, length_combine. lia.
Qed.

Lemma add_each_length (a delta r : list Q) :
  add_each a delta = Ok r -> length r = length a.
Proof.
  revert delta r. induction a as [|x a IH]; intros delta r E.
  - cbn in E. now injection E as <-.
  - destruct delta as [|d delta]; [discriminate|]. cbn in E.
    destruct (add_each a delta) as [r0|e] eqn:E0; [|discriminate].
    cbn in E. injection E as <-. cbn. now rewrite (IH _ _ E0).
Qed.

Lemma take_length {A : Type} (a : list A) (idxs : list nat) (r : list A) :
  np.take a idxs = Ok r -> length r = length idxs.
Proof.
  revert r. induction idxs as [|i idxs IH]; intros r E.
  - cbn in E. now injection E as <-.
  - cbn in E. destruct (nth_error a i); [|discriminate].
    destruct (np.take a idxs) as [r0|e]; [|discriminate].
    cbn in E. injection E as <-. cbn. now rewrite (IH r0 eq_refl).
Qed.

Lemma take_cols_shape {A : Type} (m m' : matrix A) (idxs : list nat) :
  np.take_cols m idxs = Ok m' -> length m' = length m /\ cols m' (length idxs).
Proof.
  revert m'. induction m as [|r m IH]; intros m' E.
  - cbn in E. injection E as <-. split; [reflexivity | constructor].
  - cbn in E. destruct (np.take r idxs) as [r'|e] eqn:Er; [|discriminate].
    destruct (np.take_cols m idxs) as [m0|e]; [|discriminate].
    cbn in E. injection E as <-. destruct (IH m0 eq_refl) as [Hl Hc].
    split; [cbn; now rewrite Hl|].
    constructor; [exact (take_length _ _ _ Er) | exact Hc].
Qed.

Lemma state_ok_init (ends0 : RouteEnds) (cfg : Settings) (time0 : Q)
  (current_azimuth0 : list Q) :
  state_ok (init ends0 cfg time0 current_azimuth0) 1.
Proof.
  unfold state_ok, shape_ok, has_shape, cols. cbn.
  repeat split; repeat constructor.
Qed.

Lemma state_ok_define_variants {G : Geod} (cls : Methods) (s s' : IsoBased)
  (N : nat) :
  state_ok s N -> define_variants cls s = Ok s' ->
  state_ok s' (N * Z.to_nat (variant_segments (settings s) + 1)).
Proof.
  intros (Hs & Lfd & Lff) H. unfold define_variants in H.
  bind_ok H. injection H as <-.
  repeat match goal with
  | E : np.repeat_axis1 _ _ = Ok _ |- _ => apply repeat_axis1_inv in E; subst
  | E : np.repeat _ _ = Ok _ |- _ => apply repeat_inv in E; subst
  end.
  split; [|cbn; rewrite !repeat_each_length; split; congruence].
  apply (shape_ok_replicated _ _ s); [exact Hs | | reflexivity].
  unfold replicated. cbn.
  match goal with
  | E : ShipParamsOps.define_variants _ _ = Ok _ |- _ =>
      unfold ShipParamsOps.define_variants in E; bind_ok E; injection E as <-
  end.
  repeat match goal with
  | E : np.repeat_axis1 _ _ = Ok _ |- _ => apply repeat_axis1_inv in E; subst
  end.
  repeat split.
Qed.

Lemma state_ok_pruning {P : PySet} (trim : bool) (bins : list Q)
  (s s' : IsoBased) (log : list LogRecord) (N : nat) :
  state_ok s N -> pruning trim bins s = Ok (s', log) ->
  exists N', state_ok s' N'.
Proof.
  intros ((Sla & Slo & Saz & Sdi) & _ & _) H. apply pruning_inversion in H.
  destruct H as (idxs & _ & Es & _).
  apply select_columns_inversion in Es. destruct Es as (Hr & Hc & _).
  destruct Hr as (Ela & Elo & Eaz & Edi & _ & _ & _ & _ & _ & _ & _ & Efd & _ & Eff & _).
  apply take_cols_shape in Ela, Elo, Eaz, Edi.
  apply take_length in Efd, Eff.
  exists (length idxs). unfold state_ok, shape_ok, has_shape in *. rewrite Hc.
  intuition congruence.
Qed.

Lemma check_bearing_frame {G : Geod} (dist : list Q) (s s1 : IsoBased)
  (move : Move) :
  check_bearing dist s = Ok (s1, move) ->
  count s1 = count s /\ per_step s1 = per_step s /\
  per_variant s1 = per_variant s /\ ends s1 = ends s.
Proof.
  unfold check_bearing. intro H. bind_ok H.
  match type of H with (if ?b then _ else _) = _ => destruct b end.
  - injection H as <- _.
    destruct (_ && _); cbn; auto.
  - bind_ok H. injection H as <- _. auto.
Qed.

Lemma state_ok_update_position {G : Geod} (move : Move)
  (is_constrained : list bool) (dist : list Q) (s s' : IsoBased) (N : nat) :
  state_ok s N -> update_position move is_constrained dist s = Ok s' ->
  state_ok (increment_count s') N.
Proof.
  intros ((Sla & Slo & Saz & Sdi) & Lfd & Lff) H.
  unfold update_position in H. bind_ok H. injection H as <-.
  repeat match goal with
  | E : np.vstack _ _ = Ok _ |- _ =>
      apply vstack_inv in E; destruct E as [-> ?]
  end.
  match goal with
  | E : geod_inverse _ _ _ _ = Ok _ |- _ =>
      unfold geod_inverse in E; bind_ok E; injection E as <-
  end.
  match goal with
  | E : inverse_pairs _ _ _ _ = Ok _ |- _ => apply inverse_pairs_length in E
  end.
  match goal with
  | E : np.mask_assign _ _ _ = Ok _ |- _ =>
      apply mask_assign_length in E; cbn [s12] in E; rewrite length_map in E
  end.
  rewrite (shape1_has_shape _ _ _ Sla) in *.
  rewrite (shape1_has_shape _ _ _ Slo) in *.
  rewrite (shape1_has_shape _ _ _ Saz) in *.
  rewrite (shape1_has_shape _ _ _ Sdi) in *.
  destruct Sla as [Rla Cla], Slo as [Rlo Clo], Saz as [Raz Caz], Sdi as [Rdi Cdi].
  unfold state_ok, shape_ok, has_shape, cols. cbn.
  rewrite Rla, Rlo, Raz, Rdi.
  repeat split; try lia; try congruence;
    constructor; assumption.
Qed.

Lemma state_ok_frame (s s' : IsoBased) (N : nat) :
  state_ok (increment_count s) N ->
  count s' = count s ->
  lats_per_step (per_step s') = lats_per_step (per_step s) ->
  lons_per_step (per_step s') = lons_per_step (per_step s) ->
  azimuth_per_step (per_step s') = azimuth_per_step (per_step s) ->
  dist_per_step (per_step s') = dist_per_step (per_step s) ->
  full_dist_traveled (per_variant s') = full_dist_traveled (per_variant s) ->
  length (full_fuel_consumed (per_variant s')) =
    length (full_fuel_consumed (per_variant s)) ->
  state_ok (increment_count s') N.
Proof.
  unfold state_ok, shape_ok. cbn. intros H Hc -> -> -> -> -> ->.
  rewrite Hc. exact H.
Qed.

Lemma state_ok_move_boat_direct {G : Geod} {W : WeatherCond} {B : Boat}
  {C : ConstraintsList} (cls : Methods) (s s' : IsoBased) (N : nat) :
  only_updates_time cls -> state_ok s N -> move_boat_direct cls s = Ok s' ->
  state_ok s' N.
Proof.
  intros Hcls Hs H. unfold move_boat_direct in H. bind_ok H.
  destruct (self_get_current_azimuth cls s) as [courses|]; [|discriminate].
  bind_ok H. injection H as <-.
  repeat match goal with p : (_ * _)%type |- _ => destruct p end.
  cbn [fst snd] in *.
  match goal with
  | E : check_bearing _ s = Ok (?s1, _) |- _ =>
      apply check_bearing_frame in E; destruct E as (Ec & Eps & Epv & _);
      assert (Hs1 : state_ok s1 N)
        by (unfold state_ok, shape_ok in *; rewrite Ec, Eps, Epv; exact Hs)
  end.
  match goal with
  | E : update_position _ _ _ _ = Ok ?s2 |- _ =>
      pose proof (state_ok_update_position _ _ _ _ _ N Hs1 E) as Hs2
  end.
  match goal with
  | E : self_update_time cls ?s2 _ = Ok ?s3 |- _ =>
      destruct (Hcls _ _ _ E) as (ft & tm & ->);
      assert (Hs3 : state_ok (increment_count
                (with_per_variant s2
                   (mkPerVariant (current_azimuth (per_variant s2))
                      (current_variant (per_variant s2))
                      (full_dist_traveled (per_variant s2)) ft
                      (full_fuel_consumed (per_variant s2)) tm))) N)
        by (apply (state_ok_frame s2); [exact Hs2 | reflexivity ..])
  end.
  match goal with
  | E : update_fuel _ ?s3 = Ok ?s4 |- _ =>
      assert (Hs4 : state_ok (increment_count s4) N);
      [ unfold update_fuel in E; bind_ok E; injection E as <-;
        apply (state_ok_frame s3); [exact Hs3 | try reflexivity ..];
        cbn;
        match goal with
        | E' : add_each _ _ = Ok _ |- _ => exact (add_each_length _ _ _ E')
        end
      | ]
  end.
  match goal with
  | E : update_shipparams _ ?s4 = Ok ?s5 |- _ =>
      unfold update_shipparams in E; bind_ok E; injection E as <-;
      apply (state_ok_frame s4); [exact Hs4 | reflexivity ..]
  end.
Qed.

(** X14.  The shape invariant of the class comment holds in every state that
    calls of [define_variants], [move_boat_direct] and [pruning] lead to,
    for any bindings in which [update_time] assigns the two time vectors
    only: the four position containers have [count + 1] rows and one common
    number of columns, which is also the length of the progress vector and
    of the fuel total. *)
Theorem reachable_state_ok {G : Geod} {W : WeatherCond} {B : Boat}
  {C : ConstraintsList} {P : PySet} (cls : Methods) (s : IsoBased) :
  only_updates_time cls -> reachable cls s -> exists N, state_ok s N.
Proof.
  intros Hcls Hr. induction Hr as
    [ends0 cfg time0 azi0 | s s' _ [N IH] E | s s' _ [N IH] E
    | trim bins s s' log _ [N IH] E].
  - exists 1%nat. apply state_ok_init.
  - eexists. exact (state_ok_define_variants cls s s' N IH E).
  - exists N. exact (state_ok_move_boat_direct cls s s' N Hcls IH E).
  - exact (state_ok_pruning trim bins s s' log N IH E).
Qed.

Lemma example_subclass_only_updates_time : only_updates_time example_subclass.
Proof.
  intros s d s' E. cbn in E. injection E as <-.
  exists (full_time_traveled (per_variant s)), (time (per_variant s)).
  destruct s as [c l p e cfg ps pv]. destruct pv. reflexivity.
Qed.

Lemma reachable_state_ok_witness :
  exists s1 s2 s3 log N,
    define_variants (G := example_geod) example_subclass example_departure
      = Ok s1 /\
    move_boat_direct (G := example_geod) (W := example_weather)
      (B := example_boat) (C := example_constraints) example_subclass s1
      = Ok s2 /\
    pruning (P := example_set) true [0; 90; 180] s2 = Ok (s3, log) /\
    count s3 = 1%nat /\ state_ok s3 N.
Proof.
  destruct (define_variants (G := example_geod) example_subclass
              example_departure) as [s1|e] eqn:E1;
    [|vm_compute in E1; discriminate].
  pose proof E1 as V1. vm_compute in V1. injection V1 as V1. subst s1.
  match type of E1 with _ = Ok ?c1 =>
    destruct (move_boat_direct (G := example_geod) (W := example_weather)
                (B := example_boat) (C := example_constraints)
                example_subclass c1) as [s2|e] eqn:E2;
      [|vm_compute in E2; discriminate]
  end.
  pose proof E2 as V2. vm_compute in V2. injection V2 as V2. subst s2.
  match type of E2 with _ = Ok ?c2 =>
    destruct (pruning (P := example_set) true [0; 90; 180] c2)
      as [[s3 log]|e] eqn:E3; [|vm_compute in E3; discriminate]
  end.
  destruct (reachable_state_ok (G := example_geod) (W := example_weather)
              (B := example_boat) (C := example_constraints)
              (P := example_set) example_subclass s3
              example_subclass_only_updates_time) as [N HN].
  { eapply reach_pruning; [|exact E3].
    eapply reach_move_boat_direct; [|exact E2].
    eapply reach_define_variants; [|exact E1].
    apply (reach_init example_subclass example_ends example_settings 0 [90]). }
  eexists _, _, s3, log, N.
  split; [exact E1|]. split; [exact E2|]. split; [exact E3|].
  split; [|exact HN].
  vm_compute in E3. injection E3 as <- _. reflexivity.
Defined.

(* ================================================================== *)
(** * What a completed step leaves behind *)

Lemma inverse_pairs_nth {G : Geod} (la1 lo1 la2 lo2 : list Q)
  (r : list (Q * Q)) (j : nat) (c d : Q) :
  inverse_pairs la1 lo1 la2 lo2 = Ok r ->
  nth_error la2 j = Some c -> nth_error lo2 j = Some d ->
  exists a b,
    nth_error la1 j = Some a /\ nth_error lo1 j = Some b /\
    nth_error r j = Some (inverse1 a b c d).
Proof.
  revert lo1 la2 lo2 r j.
  induction la1 as [|a la1 IH]; intros lo1 la2 lo2 r j E Hc Hd.
  - destruct lo1, la2, lo2; try discriminate. now destruct j.
  - destruct lo1 as [|b lo1], la2 as [|c0 la2], lo2 as [|d0 lo2]; try discriminate.
    cbn in E. destruct (inverse_pairs la1 lo1 la2 lo2) as [r0|e] eqn:E0;
      [|discriminate].
    cbn in E. injection E as <-. destruct j as [|j]; cbn in Hc, Hd |- *.
    + injection Hc as <-. injection Hd as <-. eauto.
    + exact (IH _ _ _ _ _ E0 Hc Hd).
Qed.

Lemma nth_error_full {A : Type} (n j : nat) (x y : A) :
  nth_error (np.full n x) j = Some y -> y = x.
Proof.
  intro H. apply nth_error_In in H. exact (repeat_spec _ _ _ H).
Qed.

Lemma update_position_tracks_origin {G : Geod} (move : Move)
  (is_constrained : list bool) (dist : list Q) (s s' : IsoBased) :
  update_position move is_constrained dist s = Ok s' ->
  count s' = count s /\ ends s' = ends s /\
  current_azimuth (per_variant s') = current_variant (per_variant s') /\
  forall j p, position s' j = Some p ->
    nth_error (current_variant (per_variant s')) j = Some (azimuth_from_start s p) /\
    exists d, nth_error (full_dist_traveled (per_variant s')) j = Some d /\
              (d = 0 \/ d = distance_from_start s p).
Proof.
  intro H. unfold update_position in H. bind_ok H. injection H as <-.
  repeat match goal with
  | E : np.vstack _ _ = Ok _ |- _ =>
      apply vstack_inv in E; destruct E as [-> ?]
  end.
  match goal with
  | E : geod_inverse _ _ _ _ = Ok _ |- _ =>
      unfold geod_inverse in E; bind_ok E; injection E as <-
  end.
  cbn [with_per_variant with_per_step count ends per_variant per_step
       current_azimuth current_variant full_dist_traveled azi1 s12] in *.
  split; [reflexivity|]. split; [reflexivity|]. split; [reflexivity|].
  intros j [la lo] Hp. unfold position in Hp.
  cbn [with_per_variant with_per_step per_step lats_per_step lons_per_step] in Hp.
  destruct (nth_error (lat2 move) j) as [la'|] eqn:Ela; [|discriminate].
  destruct (nth_error (lon2 move) j) as [lo'|] eqn:Elo; [|discriminate].
  injection Hp as <- <-.
  match goal with
  | E : inverse_pairs _ _ _ _ = Ok ?r |- _ =>
      rename r into pairs;
      destruct (inverse_pairs_nth _ _ _ _ _ j la' lo' E Ela Elo)
        as (sa & sb & Ha & Hb & Hr)
  end.
  apply nth_error_full in Ha, Hb. subst sa sb.
  split.
  - rewrite nth_error_map, Hr. reflexivity.
  - match goal with
    | E : np.mask_assign _ _ _ = Ok _ |- _ =>
        unfold np.mask_assign in E;
        destruct (Nat.eqb_spec (length is_constrained)
                    (length (map snd pairs))) as [Hlen|]; [|discriminate E];
        injection E as <-
    end.
    destruct (nth_error is_constrained j) as [blocked|] eqn:Eb.
    + eexists. split.
      * rewrite nth_error_map.
        erewrite nth_error_combine; [reflexivity | | exact Eb].
        rewrite nth_error_map, Hr. reflexivity.
      * cbn [fst snd]. destruct blocked; [now left | now right].
    + exfalso. apply nth_error_None in Eb. rewrite Hlen, length_map in Eb.
      assert (j < length pairs)%nat by (apply nth_error_Some; congruence). lia.
Qed.

Lemma tracks_origin_frame {G : Geod} (s s' : IsoBased) :
  tracks_origin s ->
  ends s' = ends s ->
  lats_per_step (per_step s') = lats_per_step (per_step s) ->
  lons_per_step (per_step s') = lons_per_step (per_step s) ->
  current_azimuth (per_variant s') = current_azimuth (per_variant s) ->
  current_variant (per_variant s') = current_variant (per_variant s) ->
  full_dist_traveled (per_variant s') = full_dist_traveled (per_variant s) ->
  tracks_origin s'.
Proof.
  unfold tracks_origin, position, azimuth_from_start, distance_from_start.
  intros H -> -> -> -> -> ->. exact H.
Qed.

(** X15.  After every completed call of [move_boat_direct] (for bindings whose
    [update_time] assigns the two time vectors only) the step is counted,
    and the heading kept for each candidate is not the heading it sailed but
    the azimuth of the geodesic from the origin of the route segment to its
    new position; its progress is the length of that geodesic, or 0. *)
Theorem move_boat_direct_tracks_origin {G : Geod} {W : WeatherCond} {B : Boat}
  {C : ConstraintsList} (cls : Methods) (s s' : IsoBased) :
  only_updates_time cls -> move_boat_direct cls s = Ok s' ->
  count s' = (count s + 1)%nat /\ ends s' = ends s /\ tracks_origin s'.
Proof.
  intros Hcls H. unfold move_boat_direct in H. bind_ok H.
  destruct (self_get_current_azimuth cls s) as [courses|]; [|discriminate].
  bind_ok H. injection H as <-.
  repeat match goal with p : (_ * _)%type |- _ => destruct p end.
  cbn [fst snd] in *.
  match goal with
  | E : check_bearing _ s = Ok _ |- _ =>
      apply check_bearing_frame in E; destruct E as (Ec & _ & _ & Ee)
  end.
  match goal with
  | E : update_position _ _ _ ?s1 = Ok ?s2 |- _ =>
      apply update_position_tracks_origin in E;
      destruct E as (Ec2 & Ee2 & Haz & Hpos);
      assert (T2 : tracks_origin s2)
        by (split; [exact Haz|];
            unfold azimuth_from_start, distance_from_start in *;
            rewrite Ee2; exact Hpos)
  end.
  match goal with
  | E : self_update_time cls ?s2 _ = Ok ?s3 |- _ =>
      destruct (Hcls _ _ _ E) as (ft & tm & ->)
  end.
  match goal with
  | E : update_fuel _ ?s3 = Ok ?s4 |- _ =>
      unfold update_fuel in E; bind_ok E; injection E as <-
  end.
  match goal with
  | E : update_shipparams _ ?s4 = Ok ?s5 |- _ =>
      unfold update_shipparams in E; bind_ok E; injection E as <-
  end.
  cbn [increment_count with_per_variant with_per_step count ends].
  split; [congruence|]. split; [congruence|].
  eapply tracks_origin_frame; [exact T2 | reflexivity ..].
Qed.

Lemma move_boat_direct_tracks_origin_witness :
  exists s',
    move_boat_direct (G := example_geod) (W := example_weather)
      (B := example_boat) (C := example_constraints) example_subclass
      example_two = Ok s' /\
    count s' = 2%nat /\
    nth_error (current_variant (per_variant s')) 1 =
      Some (azimuth_from_start (G := example_geod) s' (0, 10)).
Proof.
  destruct (move_boat_direct (G := example_geod) (W := example_weather)
              (B := example_boat) (C := example_constraints)
              example_subclass example_two) as [s'|e] eqn:E;
    [|vm_compute in E; discriminate].
  destruct (move_boat_direct_tracks_origin (G := example_geod)
              (W := example_weather) (B := example_boat)
              (C := example_constraints) example_subclass example_two s'
              example_subclass_only_updates_time E) as (Hc & _ & _ & Hpos).
  exists s'. split; [reflexivity|]. split; [exact Hc|].
  apply (Hpos 1%nat (0, 10)).
  vm_compute in E. injection E as <-. reflexivity.
Defined.

(* ================================================================== *)
(** * Settings that pass the check and still stop the branching *)

(** X16.  Whatever the state is, branching raises when [variant_segments] is
    below -1 (the number of copies per column, [variant_segments + 1], is
    then negative).  [check_settings] does not exclude such a value: it
    accepts every even [variant_segments] whose half fan lies inside the
    prune sector. *)
Theorem define_variants_negative_segments {G : Geod} (cls : Methods)
  (s : IsoBased) :
  (variant_segments (settings s) < -1)%Z ->
  raises (define_variants cls s) /\
  (Z.even (variant_segments (settings s)) = true ->
   Z.even (prune_segments (settings s)) = true ->
   0 <= variant_increments_deg (settings s) ->
   0 < prune_sector_deg_half (settings s) ->
   check_settings s = Ok tt).
Proof.
  intro Hneg. split.
  - unfold raises, define_variants.
    destruct (np.row0 (lats_per_step (per_step s))); [|eexists; reflexivity].
    cbn [bind].
    destruct (np.row0 (lons_per_step (per_step s))); [|eexists; reflexivity].
    cbn [bind].
    destruct (geod_inverse _ _ _ _); [|eexists; reflexivity]. cbn [bind].
    unfold np.repeat_axis1 at 1.
    destruct (Z.ltb_spec (variant_segments (settings s) + 1) 0); [|lia].
    eexists. reflexivity.
  - intros Hev Hep Hinc Hhalf. unfold check_settings.
    assert (Hfan : inject_Z (variant_segments (settings s)) / 2
                   * variant_increments_deg (settings s) <= 0).
    { assert (Hvs : inject_Z (variant_segments (settings s)) / 2 <= 0).
      { apply Qle_shift_div_r; [reflexivity|]. rewrite Qmult_0_l.
        change 0 with (inject_Z 0). rewrite <- Zle_Qle. lia. }
      setoid_replace 0 with
        (0 * variant_increments_deg (settings s)) by ring.
      apply Qmult_le_compat_r; assumption. }
    destruct (Qle_bool _ _) eqn:E.
    + apply Qle_bool_iff in E. exfalso. lra.
    + rewrite Z.even_spec in Hev, Hep.
      destruct Hev as [a Ha], Hep as [b Hb].
      replace (variant_segments (settings s) mod 2)%Z with 0%Z
        by (rewrite Ha, Z.mul_comm, Z.mod_mul; lia).
      replace (prune_segments (settings s) mod 2)%Z with 0%Z
        by (rewrite Hb, Z.mul_comm, Z.mod_mul; lia).
      reflexivity.
Qed.

Lemma define_variants_negative_segments_witness :
  check_settings example_negative = Ok tt /\
  define_variants (G := example_geod) IsoBased_methods example_negative =
    Raise (ValueError "repeats may not contain negative values").
Proof.
  destruct (define_variants_negative_segments (G := example_geod)
              IsoBased_methods example_negative) as [[e He] Hcheck].
  { cbn. lia. }
  split.
  - apply Hcheck; [reflexivity | reflexivity | cbn; lra | cbn; lra].
  - rewrite He. vm_compute in He. injection He as <-. reflexivity.
Defined.

(* ================================================================== *)
(** * The sector around the median heading *)

Lemma half_decomposition (n : Z) :
  inject_Z n / 2 == inject_Z (n / 2) + inject_Z (n mod 2) / 2.
Proof.
  rewrite (Z.div_mod n 2) at 1 by lia.
  rewrite inject_Z_plus, inject_Z_mult. change (inject_Z 2) with 2. field.
Qed.

(** The index [int(np.round(n / 2))] is a valid index into [n] entries. *)
Lemma round_half_even_half (n : Z) :
  (0 < n)%Z -> (0 <= round_half_even (inject_Z n / 2) < n)%Z.
Proof.
  intro Hn. unfold round_half_even.
  assert (Hf : Qfloor (inject_Z n / 2) = (n / 2)%Z).
  { change 2 with (inject_Z 2). apply Qfloor_quotient. lia. }
  rewrite Hf. pose proof (half_decomposition n) as Hx.
  pose proof (Z.div_mod n 2 ltac:(lia)) as Hdm.
  pose proof (Z.mod_pos_bound n 2 ltac:(lia)) as Hm.
  assert (Hcases : (n mod 2 = 0 \/ n mod 2 = 1)%Z) by lia.
  destruct Hcases as [E | E]; rewrite E in Hx.
  - assert (Hr : inject_Z n / 2 - inject_Z (n / 2) == 0).
    { rewrite Hx. change (inject_Z 0) with 0. field. }
    destruct (Qlt_bool _ (1 # 2)) eqn:E1.
    + lia.
    + apply Qlt_bool_false_iff in E1. rewrite Hr in E1. exfalso. lra.
  - assert (Hr : inject_Z n / 2 - inject_Z (n / 2) == 1 # 2).
    { rewrite Hx. change (inject_Z 1) with 1. field. }
    destruct (Qlt_bool _ (1 # 2)) eqn:E1.
    { apply Qlt_bool_iff in E1. rewrite Hr in E1. exfalso. lra. }
    destruct (Qlt_bool (1 # 2) _) eqn:E2.
    { apply Qlt_bool_iff in E2. rewrite Hr in E2. exfalso. lra. }
    destruct (Z.even (n / 2)) eqn:Ev; [lia|].
    assert (n / 2 <> 0)%Z by (intro H0; rewrite H0 in Ev; discriminate).
    lia.
Qed.

Lemma insert_sorted_In (x y : Q) (a : list Q) :
  In y (np.insert_sorted x a) <-> y = x \/ In y a.
Proof.
  induction a as [|z a IH]; cbn; [intuition|].
  destruct (Qle_bool x z); cbn; [intuition|]. rewrite IH. intuition.
Qed.

Lemma sort_In (y : Q) (a : list Q) : In y (np.sort a) <-> In y a.
Proof.
  unfold np.sort. induction a as [|x a IH]; [reflexivity|].
  cbn [fold_right]. rewrite insert_sorted_In, IH. cbn. intuition.
Qed.

Lemma sort_ascending (l : list Q) :
  StronglySorted Qle l -> np.sort l = l.
Proof.
  unfold np.sort. induction 1 as [|x l _ IH Hx]; [reflexivity|].
  cbn [fold_right]. rewrite IH. destruct l as [|y l]; [reflexivity|].
  cbn. inversion Hx as [|? ? Hxy _]; subst.
  apply Qle_bool_iff in Hxy. now rewrite Hxy.
Qed.

Lemma nth_error_combine_inv {A B : Type} (a : list A) (b : list B) (i : nat)
  (x : A) (y : B) :
  nth_error (combine a b) i = Some (x, y) ->
  nth_error a i = Some x /\ nth_error b i = Some y.
Proof.
  revert b i. induction a as [|x0 a IH]; intros b i H; [now destruct i|].
  destruct b as [|y0 b]; [now destruct i|].
  destruct i as [|i]; cbn in H |- *.
  - injection H as -> ->. auto.
  - now apply IH.
Qed.

(** X17.  On a state with at least one candidate, [pruning_headings_centered]
    finds its symmetry axis (the index [int(np.round(n / 2))] into the
    sorted azimuths is always valid), the axis is the azimuth from one of
    the candidates to the temporary destination, and the bin edges are
    ascending and evenly spaced from [prune_sector_deg_half] below the axis
    to [prune_sector_deg_half] above it. *)
Theorem headings_centered_bins_sector {G : Geod} (s : IsoBased)
  (lats0 lons0 : list Q) :
  np.row0 (lats_per_step (per_step s)) = Ok lats0 ->
  np.row0 (lons_per_step (per_step s)) = Ok lons0 ->
  length lons0 = length lats0 -> lats0 <> [] ->
  (0 < prune_segments (settings s))%Z ->
  0 < prune_sector_deg_half (settings s) ->
  exists bins j p,
    headings_centered_bins s = Ok bins /\
    position s j = Some p /\
    length bins = Z.to_nat (prune_segments (settings s) + 1) /\
    forall k, (k <= Z.to_nat (prune_segments (settings s)))%nat ->
      exists edge,
        nth_error bins k = Some edge /\
        edge == azimuth_to_destination s p - prune_sector_deg_half (settings s)
                + inject_Z (Z.of_nat k)
                  * (2 * prune_sector_deg_half (settings s)
                     / inject_Z (prune_segments (settings s))).
Proof.
  intros Hla Hlo Hlen Hne Hseg Hhalf.
  unfold headings_centered_bins. rewrite Hla, Hlo. cbn [bind].
  assert (Hs1 : np.shape1 (lats_per_step (per_step s)) = length lats0).
  { unfold np.row0 in Hla. destruct (lats_per_step (per_step s)); [discriminate|].
    injection Hla as ->. reflexivity. }
  rewrite Hs1. unfold geod_inverse.
  rewrite (inverse_pairs_full lats0 lons0 (length lats0) _ _ eq_refl Hlen).
  cbn [bind azi1].
  set (pairs := map (fun p : Q * Q =>
         inverse1 (fst p) (snd p) (fst (finish_temp (ends s)))
                  (snd (finish_temp (ends s)))) (combine lats0 lons0)).
  set (half := prune_sector_deg_half (settings s)) in *.
  set (segs := prune_segments (settings s)) in *.
  assert (Lp : length (map fst pairs) = length lats0).
  { unfold pairs. rewrite !length_map, length_combine. lia. }
  assert (Hpos : (0 < Z.of_nat (length (np.sort (map fst pairs))))%Z).
  { rewrite sort_length, Lp. destruct lats0; [contradiction | cbn; lia]. }
  pose proof (round_half_even_half _ Hpos) as Hidx.
  destruct (nth_error (np.sort (map fst pairs)) _) as [axis|] eqn:Eaxis.
  2:{ apply nth_error_None in Eaxis. lia. }
  apply nth_error_In, sort_In, in_map_iff in Eaxis.
  destruct Eaxis as (pr & Hfst & Hin). unfold pairs in Hin.
  apply in_map_iff in Hin. destruct Hin as ([la lo] & Hpr & Hin).
  apply In_nth_error in Hin. destruct Hin as [j Hj].
  apply nth_error_combine_inv in Hj. destruct Hj as [Hjla Hjlo].
  rewrite linspace_ok by lia. cbn [bind].
  set (n := Z.to_nat (segs + 1)).
  assert (Hsegs : ~ inject_Z segs == 0).
  { intro H0. change 0 with (inject_Z 0) in H0.
    apply (proj1 (inject_Z_injective _ _)) in H0. lia. }
  set (g := fun i : nat => axis - half + inject_Z (Z.of_nat i) *
              ((axis + half - (axis - half)) / inject_Z (segs + 1 - 1))).
  assert (Hstep : forall i, g i == axis - half
                    + inject_Z (Z.of_nat i) * (2 * half / inject_Z segs)).
  { intro i. unfold g. replace (segs + 1 - 1)%Z with segs by lia.
    field. exact Hsegs. }
  assert (Hwidth : 0 < 2 * half / inject_Z segs).
  { apply Qlt_shift_div_l.
    - change 0 with (inject_Z 0). rewrite <- Zlt_Qlt. exact Hseg.
    - rewrite Qmult_0_l. lra. }
  rewrite sort_ascending.
  2:{ apply map_seq_sorted. intros i i' Hii _. fold (g i) (g i').
      rewrite !Hstep.
      assert (Hlt : inject_Z (Z.of_nat i) < inject_Z (Z.of_nat i')).
      { rewrite <- Zlt_Qlt. lia. }
      assert (Hm : inject_Z (Z.of_nat i) * (2 * half / inject_Z segs)
                   < inject_Z (Z.of_nat i') * (2 * half / inject_Z segs)).
      { apply Qmult_lt_compat_r; assumption. }
      lra. }
  exists (map g (seq 0 n)), j, (la, lo).
  split; [reflexivity|]. split.
  - unfold position. unfold np.row0 in Hla, Hlo.
    destruct (lats_per_step (per_step s)); [discriminate|].
    destruct (lons_per_step (per_step s)); [discriminate|].
    injection Hla as ->. injection Hlo as ->. now rewrite Hjla, Hjlo.
  - split; [now rewrite length_map, length_seq|].
    intros k Hk. exists (g k). split.
    + rewrite nth_error_map, nth_error_seq.
      destruct (Nat.ltb_spec k n); [reflexivity | unfold n in *; lia].
    + rewrite Hstep. unfold azimuth_to_destination. cbn [fst snd].
      rewrite <- Hfst, <- Hpr. reflexivity.
Qed.

Lemma headings_centered_bins_sector_witness :
  exists bins edge,
    headings_centered_bins (G := example_geod) example_three = Ok bins /\
    length bins = 3%nat /\ nth_error bins 2 = Some edge /\ edge == 180.
Proof.
  destruct (headings_centered_bins_sector (G := example_geod) example_three
              [0; 0; 0] [7; 7; 7] eq_refl eq_refl eq_refl)
    as (bins & j & p & E & _ & Hlen & Hedges).
  { discriminate. }
  { reflexivity. }
  { reflexivity. }
  destruct (Hedges 2%nat) as (edge & Hk & He); [cbn; lia|].
  exists bins, edge. split; [exact E|]. split; [exact Hlen|].
  split; [exact Hk|]. rewrite He. reflexivity.
Defined.

(* ================================================================== *)
(** * Angles beyond two and a half turns *)

(** X18.  [degree_to_pmpi] takes off at most two turns.  For an angle above 900
    or below -900 degrees the angle that is converted to radians is the
    given one moved by exactly two turns towards 0, and it still lies
    outside the range from -180 to 180 degrees. *)
Theorem degree_to_pmpi_two_turns {R : Radians} (degrees : Q) :
  900 < degrees \/ degrees < -(900) ->
  exists n,
    degree_to_pmpi degrees = radians n /\
    (180 < n /\ n == degrees - 720 \/ n < -(180) /\ n == degrees + 720).
Proof.
  intro Hout. unfold degree_to_pmpi, degree_to_pmpi_degrees. cbv zeta.
  destruct (Qle_bool 360 degrees) eqn:E1;
    [apply Qle_bool_iff in E1 | apply Qle_bool_false_lt in E1];
    (match goal with |- context [Qle_bool ?x (-(360))] =>
       destruct (Qle_bool x (-(360))) eqn:E2;
       [apply Qle_bool_iff in E2 | apply Qle_bool_false_lt in E2] end);
    (match goal with |- context [Qlt_bool 180 ?x] =>
       destruct (Qlt_bool 180 x) eqn:E3;
       [apply Qlt_bool_iff in E3 | apply Qlt_bool_false_iff in E3] end);
    (match goal with |- context [Qlt_bool ?x (-(180))] =>
       destruct (Qlt_bool x (-(180))) eqn:E4;
       [apply Qlt_bool_iff in E4 | apply Qlt_bool_false_iff in E4] end);
    first
      [ exfalso; destruct Hout; lra
      | eexists; split; [reflexivity|]; left; split; lra
      | eexists; split; [reflexivity|]; right; split; lra ].
Qed.

Lemma degree_to_pmpi_two_turns_witness :
  exists n,
    degree_to_pmpi (R := example_radians) 1000 =
      radians (Radians := example_radians) n /\ n == 280.
Proof.
  destruct (degree_to_pmpi_two_turns (R := example_radians) 1000)
    as (n & E & [[_ Hn] | [Hlt Hn]]).
  - left. reflexivity.
  - exists n. split; [exact E|]. rewrite Hn. reflexivity.
  - exfalso. rewrite Hn in Hlt. vm_compute in Hlt. discriminate.
Defined.
